(** * MELT: a shallow embedding of melt.cpp and its verified properties

    The editor of melt.cpp is one class, [Melt], whose methods mutate its
    fields.  The embedding keeps the class as a record and every method as
    a function from record to record.  Machine integers are integers of
    [Z] with the conversions of the C++ program written out; the document
    is a list of lines and a line is a list of characters. *)

From Stdlib Require Import ZArith Ascii String List Lia.
From stdpp Require Import base tactics option list strings.

Local Open Scope Z_scope.

(** ** Machine integers

    [unsigned] is 32 bits wide, [size_t] 64 bits wide and [int] a 32-bit
    two's complement integer.  A value is stored as the integer it
    denotes; [to_unsigned], [to_size_t] and [to_int] are the conversions
    (and the wrap-around of arithmetic) into each type. *)

Definition INT_MAX : Z := 2 ^ 31 - 1.

Definition to_unsigned (z : Z) : Z := z mod 2 ^ 32.

Definition to_size_t (z : Z) : Z := z mod 2 ^ 64.

Definition to_int (z : Z) : Z := (z + 2 ^ 31) mod 2 ^ 32 - 2 ^ 31.

(** ** Strings and the document *)

Abbreviation line := (list ascii).

(** [s.length()] and [lines.size()], as the [size_t] they are. *)
Definition len (s : line) : Z := Z.of_nat (length s).

Definition size (ls : list line) : Z := Z.of_nat (length ls).

(** [lines[y]].  Indexing a vector out of range is undefined in C++; the
    embedding reads the empty line there.  Every read below that a claim
    depends on is guarded by the source or by the claim's hypotheses. *)
Definition line_at (ls : list line) (y : Z) : line :=
  default [] (ls !! Z.to_nat y).

(** [s.insert(x, 1, c)] *)
Definition str_insert (x : Z) (c : ascii) (s : line) : line :=
  take (Z.to_nat x) s ++ c :: drop (Z.to_nat x) s.

(** [s.erase(x, 1)] *)
Definition str_erase1 (x : Z) (s : line) : line :=
  take (Z.to_nat x) s ++ drop (S (Z.to_nat x)) s.

(** [s.substr(x)] *)
Definition str_substr (x : Z) (s : line) : line := drop (Z.to_nat x) s.

(** [s.erase(x)] *)
Definition str_erase (x : Z) (s : line) : line := take (Z.to_nat x) s.

(** [lines.insert(lines.begin() + y, l)] *)
Definition vec_insert (y : Z) (l : line) (ls : list line) : list line :=
  take (Z.to_nat y) ls ++ l :: drop (Z.to_nat y) ls.

(** [lines.erase(lines.begin() + y)] *)
Definition vec_erase (y : Z) (ls : list line) : list line :=
  delete (Z.to_nat y) ls.

(** ** The editor state

    The fields of [class Melt], in the order of the class, followed by the
    two parts of the outside world the methods touch: the key codes the
    terminal will deliver to [getch], and the files written by [save]. *)

Record Melt : Type := mkMelt {
  lines : list line;
  front : list line;
  back : list line;
  fstate : Z;
  edmode : Z;
  fname : line;
  smessage : line;
  cmd : line;
  last_cmd : line;
  cx : Z;
  cy : Z;
  ox : Z;
  oy : Z;
  mx : Z;
  my : Z;
  ax : Z;
  ay : Z;
  is_running : bool;
  is_ws_changed : bool;
  pending : list Z;
  written : list (line * list ascii)
}.

Definition set_lines (v : list line) (m : Melt) : Melt :=
  mkMelt v (front m) (back m) (fstate m) (edmode m) (fname m) (smessage m) (cmd m) (last_cmd m)
    (cx m) (cy m) (ox m) (oy m) (mx m) (my m) (ax m) (ay m) (is_running m) (is_ws_changed m)
    (pending m) (written m).

Definition set_front (v : list line) (m : Melt) : Melt :=
  mkMelt (lines m) v (back m) (fstate m) (edmode m) (fname m) (smessage m) (cmd m) (last_cmd m)
    (cx m) (cy m) (ox m) (oy m) (mx m) (my m) (ax m) (ay m) (is_running m) (is_ws_changed m)
    (pending m) (written m).

Definition set_back (v : list line) (m : Melt) : Melt :=
  mkMelt (lines m) (front m) v (fstate m) (edmode m) (fname m) (smessage m) (cmd m) (last_cmd m)
    (cx m) (cy m) (ox m) (oy m) (mx m) (my m) (ax m) (ay m) (is_running m) (is_ws_changed m)
    (pending m) (written m).

Definition set_fstate (v : Z) (m : Melt) : Melt :=
  mkMelt (lines m) (front m) (back m) v (edmode m) (fname m) (smessage m) (cmd m) (last_cmd m)
    (cx m) (cy m) (ox m) (oy m) (mx m) (my m) (ax m) (ay m) (is_running m) (is_ws_changed m)
    (pending m) (written m).

Definition set_edmode (v : Z) (m : Melt) : Melt :=
  mkMelt (lines m) (front m) (back m) (fstate m) v (fname m) (smessage m) (cmd m) (last_cmd m)
    (cx m) (cy m) (ox m) (oy m) (mx m) (my m) (ax m) (ay m) (is_running m) (is_ws_changed m)
    (pending m) (written m).

Definition set_fname (v : line) (m : Melt) : Melt :=
  mkMelt (lines m) (front m) (back m) (fstate m) (edmode m) v (smessage m) (cmd m) (last_cmd m)
    (cx m) (cy m) (ox m) (oy m) (mx m) (my m) (ax m) (ay m) (is_running m) (is_ws_changed m)
    (pending m) (written m).

Definition set_smessage (v : line) (m : Melt) : Melt :=
  mkMelt (lines m) (front m) (back m) (fstate m) (edmode m) (fname m) v (cmd m) (last_cmd m)
    (cx m) (cy m) (ox m) (oy m) (mx m) (my m) (ax m) (ay m) (is_running m) (is_ws_changed m)
    (pending m) (written m).

Definition set_cmd (v : line) (m : Melt) : Melt :=
  mkMelt (lines m) (front m) (back m) (fstate m) (edmode m) (fname m) (smessage m) v (last_cmd m)
    (cx m) (cy m) (ox m) (oy m) (mx m) (my m) (ax m) (ay m) (is_running m) (is_ws_changed m)
    (pending m) (written m).

Definition set_last_cmd (v : line) (m : Melt) : Melt :=
  mkMelt (lines m) (front m) (back m) (fstate m) (edmode m) (fname m) (smessage m) (cmd m) v
    (cx m) (cy m) (ox m) (oy m) (mx m) (my m) (ax m) (ay m) (is_running m) (is_ws_changed m)
    (pending m) (written m).

Definition set_cursor (x y : Z) (m : Melt) : Melt :=
  mkMelt (lines m) (front m) (back m) (fstate m) (edmode m) (fname m) (smessage m) (cmd m) (last_cmd m)
    x y (ox m) (oy m) (mx m) (my m) (ax m) (ay m) (is_running m) (is_ws_changed m)
    (pending m) (written m).

Definition set_ox (v : Z) (m : Melt) : Melt :=
  mkMelt (lines m) (front m) (back m) (fstate m) (edmode m) (fname m) (smessage m) (cmd m) (last_cmd m)
    (cx m) (cy m) v (oy m) (mx m) (my m) (ax m) (ay m) (is_running m) (is_ws_changed m)
    (pending m) (written m).

Definition set_oy (v : Z) (m : Melt) : Melt :=
  mkMelt (lines m) (front m) (back m) (fstate m) (edmode m) (fname m) (smessage m) (cmd m) (last_cmd m)
    (cx m) (cy m) (ox m) v (mx m) (my m) (ax m) (ay m) (is_running m) (is_ws_changed m)
    (pending m) (written m).

(** [mx], [my], [ax] and [ay] are always assigned together. *)
Definition set_term (vmx vmy vax vay : Z) (m : Melt) : Melt :=
  mkMelt (lines m) (front m) (back m) (fstate m) (edmode m) (fname m) (smessage m) (cmd m) (last_cmd m)
    (cx m) (cy m) (ox m) (oy m) vmx vmy vax vay (is_running m) (is_ws_changed m)
    (pending m) (written m).

Definition set_is_running (v : bool) (m : Melt) : Melt :=
  mkMelt (lines m) (front m) (back m) (fstate m) (edmode m) (fname m) (smessage m) (cmd m) (last_cmd m)
    (cx m) (cy m) (ox m) (oy m) (mx m) (my m) (ax m) (ay m) v (is_ws_changed m)
    (pending m) (written m).

Definition set_is_ws_changed (v : bool) (m : Melt) : Melt :=
  mkMelt (lines m) (front m) (back m) (fstate m) (edmode m) (fname m) (smessage m) (cmd m) (last_cmd m)
    (cx m) (cy m) (ox m) (oy m) (mx m) (my m) (ax m) (ay m) (is_running m) v
    (pending m) (written m).

Definition set_pending (v : list Z) (m : Melt) : Melt :=
  mkMelt (lines m) (front m) (back m) (fstate m) (edmode m) (fname m) (smessage m) (cmd m) (last_cmd m)
    (cx m) (cy m) (ox m) (oy m) (mx m) (my m) (ax m) (ay m) (is_running m) (is_ws_changed m)
    v (written m).

Definition set_written (v : list (line * list ascii)) (m : Melt) : Melt :=
  mkMelt (lines m) (front m) (back m) (fstate m) (edmode m) (fname m) (smessage m) (cmd m) (last_cmd m)
    (cx m) (cy m) (ox m) (oy m) (mx m) (my m) (ax m) (ay m) (is_running m) (is_ws_changed m)
    (pending m) v.

(** ** Text editing operations *)

Definition insCh (x y : Z) (c : ascii) (m : Melt) : Melt :=
  if (y <? size (lines m)) && (x <=? len (line_at (lines m) y))
  then set_lines (<[Z.to_nat y := str_insert x c (line_at (lines m) y)]> (lines m)) m
  else m.

Definition rmCh (x y : Z) (m : Melt) : Melt :=
  if (y <? size (lines m)) && (x <? len (line_at (lines m) y))
  then set_lines (<[Z.to_nat y := str_erase1 x (line_at (lines m) y)]> (lines m)) m
  else m.

Definition insLn (y : Z) (l : line) (m : Melt) : Melt :=
  if y <=? size (lines m) then set_lines (vec_insert y l (lines m)) m else m.

Definition rmLn (y : Z) (m : Melt) : Melt :=
  if y <? size (lines m) then set_lines (vec_erase y (lines m)) m else m.

(** [lines.size() - 1] is computed in [size_t] and [y + 1] in [unsigned]. *)
Definition jnLn (y : Z) (m : Melt) : Melt :=
  if y <? to_size_t (size (lines m) - 1)
  then
    let y1 := to_unsigned (y + 1) in
    let m1 := set_lines (<[Z.to_nat y := line_at (lines m) y ++ line_at (lines m) y1]> (lines m)) m in
    rmLn y1 m1
  else m.

Definition spLn (x y : Z) (m : Melt) : Melt :=
  if (y <? size (lines m)) && (x <=? len (line_at (lines m) y))
  then
    let s := str_substr x (line_at (lines m) y) in
    let m1 := set_lines (<[Z.to_nat y := str_erase x (line_at (lines m) y)]> (lines m)) m in
    insLn (to_unsigned (y + 1)) s m1
  else m.

(** ** Tab expansion *)

Definition tab_width : Z := 4.

Definition TAB : ascii := "009"%char.

Definition SPACE : ascii := " "%char.

(** The loop of [expandTabs]: [ret] is the string built so far and [col]
    the [int] column.  [col % tab_width] is the truncating remainder of
    C++, so [spaces] lies between 1 and 7 and needs no conversion. *)
Fixpoint expandTabs_loop (s : line) (ret : line) (col : Z) : line :=
  match s with
  | [] => ret
  | c :: s' =>
      if Ascii.eqb c TAB
      then
        let spaces := tab_width - Z.rem col tab_width in
        expandTabs_loop s' (ret ++ repeat SPACE (Z.to_nat spaces)) (to_int (col + spaces))
      else expandTabs_loop s' (ret ++ [c]) (to_int (col + 1))
  end.

Definition expandTabs (s : line) : line := expandTabs_loop s [] 0.

(** The loop of [visualLength]: [n] is the [size_t] counter [len]. *)
Fixpoint visualLength_loop (s : line) (n : Z) : Z :=
  match s with
  | [] => n
  | c :: s' =>
      if Ascii.eqb c TAB
      then visualLength_loop s' (to_size_t (n + to_size_t (tab_width - n mod tab_width)))
      else visualLength_loop s' (to_size_t (n + 1))
  end.

Definition visualLength (s : line) : Z := visualLength_loop s 0.

(** ** Cursor operations *)

Definition scrollUp (d : Z) (m : Melt) : Melt :=
  if oy m >=? d then set_oy (to_unsigned (oy m - d)) m else m.

Definition scrollDown (d : Z) (m : Melt) : Melt :=
  if to_unsigned (oy m + d) <? size (lines m) then set_oy (to_unsigned (oy m + d)) m else m.

Definition scrollLeft (d : Z) (m : Melt) : Melt :=
  if ox m >=? d then set_ox (to_unsigned (ox m - d)) m else set_ox 0 m.

(** The [for] loop of [scrollRight]: [n] counts the iterations left before
    [i] reaches [front.size()]; the loop also stops at the first [i] with
    [i + oy >= lines.size()]. *)
Fixpoint max_visible (n : nat) (i : Z) (m : Melt) (max_length : Z) : Z :=
  match n with
  | O => max_length
  | S n' =>
      let idx := to_size_t (i + oy m) in
      if idx <? size (lines m)
      then max_visible n' (i + 1) m
             (if idx <? size (lines m)
              then Z.max max_length (to_int (visualLength (line_at (lines m) idx)))
              else max_length)
      else max_length
  end.

Definition scrollRight (d : Z) (m : Melt) : Melt :=
  match front m with
  | [] => m
  | _ :: _ =>
      let max_length := max_visible (length (front m)) 0 m 0 in
      if to_unsigned (ox m + d) <? to_unsigned max_length
      then set_ox (to_unsigned (ox m + d)) m
      else m
  end.

Definition scrollToFit (m : Melt) : Melt :=
  let m1 :=
    if cx m <? ox m then scrollLeft (to_unsigned (ox m - cx m)) m
    else if cx m >=? to_unsigned (ox m + ax m)
    then scrollRight (to_unsigned (to_unsigned (cx m - to_unsigned (ox m + ax m)) + 1)) m
    else m in
  if cy m1 <? oy m1 then scrollUp (to_unsigned (oy m1 - cy m1)) m1
  else if cy m1 >=? to_unsigned (oy m1 + ay m1)
  then scrollDown (to_unsigned (to_unsigned (cy m1 - to_unsigned (oy m1 + ay m1)) + 1)) m1
  else m1.

(** The clamp rules of [mvCursor], one definition for each stage.
    [mvCursor_row] is [ny] once the target row is clamped to the
    document. *)
Definition mvCursor_row (yd : Z) (m : Melt) : Z :=
  let ny := to_int (to_int (cy m) + yd) in
  if ny <? 0 then 0
  else if ny >=? to_int (size (lines m)) then to_int (to_size_t (size (lines m) - 1))
  else ny.

(** [mvCursor_col] is [nx] once it is clamped to the length of a row
    that differs from the current one. *)
Definition mvCursor_col (xd yd : Z) (m : Melt) : Z :=
  let nx := to_int (to_int (cx m) + xd) in
  let ny := mvCursor_row yd m in
  if negb (ny =? to_int (cy m)) && (ny >=? 0) && (ny <? to_int (size (lines m)))
  then Z.min nx (to_int (len (line_at (lines m) ny)))
  else nx.

(** [mvCursor_target] is the pair [(nx, ny)] that [mvCursor] stores: the
    wrap to the previous row when [nx] is negative and the wrap forward
    when [nx] is past the end of the row. *)
Definition mvCursor_target (xd yd : Z) (m : Melt) : Z * Z :=
  let nx := mvCursor_col xd yd m in
  let ny := mvCursor_row yd m in
  if nx <? 0
  then
    if ny >? 0
    then (to_int (len (line_at (lines m) (to_int (ny - 1)))), to_int (ny - 1))
    else (0, ny)
  else if nx >? to_int (len (line_at (lines m) ny))
  then (0, if ny <? to_int (to_int (size (lines m)) - 1) then to_int (ny + 1) else ny)
  else (nx, ny).

Definition mvCursor (xd yd : Z) (m : Melt) : Melt :=
  let '(nx, ny) := mvCursor_target xd yd m in
  scrollToFit (set_cursor (to_unsigned nx) (to_unsigned ny) m).

(** ** Characters and messages *)

Definition str (s : string) : line := list_ascii_of_string s.

Definition LF : ascii := "010"%char.

Definition code (c : ascii) : Z := Z.of_nat (nat_of_ascii c).

(** Key codes of curses.h, which the program includes from the curses
    library: the values are those of ncurses and of pdcurses. *)
Definition KEY_DOWN : Z := 258.
Definition KEY_UP : Z := 259.
Definition KEY_LEFT : Z := 260.
Definition KEY_RIGHT : Z := 261.
Definition KEY_BACKSPACE : Z := 263.
Definition KEY_ENTER : Z := 343.

(** [::toupper] in the C locale (the program never calls [setlocale]). *)
Definition toupper (c : ascii) : ascii :=
  if (97 <=? code c) && (code c <=? 122)
  then ascii_of_nat (Z.to_nat (code c - 32))
  else c.

(** [s.resize(n, c)] and [v.resize(n, x)] *)
Definition resize_to {A : Type} (n : Z) (x : A) (l : list A) : list A :=
  take (Z.to_nat n) l ++ repeat x (Z.to_nat n - length l)%nat.

(** [s.substr(pos, n)]: at most [n] characters from [pos], fewer when
    the string ends first. *)
Definition str_substr_n (pos n : Z) (s : line) : line :=
  take (Z.to_nat (Z.min n (len s - pos))) (drop (Z.to_nat pos) s).

(** What reading a file gives: the stream cannot be opened, it fails while
    being read, or it delivers its bytes. *)
Inductive read_result : Type :=
  | CannotOpen
  | ReadError
  | Contents (bytes : list ascii).

(** The loop [while (std::getline(f, s)) lines.push_back(s)] over the
    bytes of a file; [cur] is the line being read. *)
Fixpoint getlines (bytes : list ascii) (cur : line) : list line :=
  match bytes with
  | [] => match cur with [] => [] | _ :: _ => [cur] end
  | c :: rest =>
      if Ascii.eqb c LF then cur :: getlines rest []
      else getlines rest (cur ++ [c])
  end.

(** [for (const auto &l : lines) f << l << "\n"] *)
Definition file_image (ls : list line) : list ascii :=
  concat (map (fun l => l ++ [LF]) ls).

Section Editor.

(** Whether plain [char] is signed is left to the platform by C++. *)
Variable char_signed : bool.

(** The file system, as far as the editor observes it. *)
Variable fs_exists : line -> bool.
Variable fs_read : line -> read_result.
Variable can_write : line -> bool.

(** The conversion of an [int] to [char], and the value of a [char] when
    it is compared with an [int]. *)
Definition to_char (z : Z) : Z :=
  if char_signed then (z + 128) mod 256 - 128 else z mod 256.

Definition char_val (c : ascii) : Z := to_char (code c).

(** The character stored by [fn += chr] and [cmd += ch]. *)
Definition char_of (z : Z) : ascii := ascii_of_nat (Z.to_nat (z mod 256)).

(** ** Filename validation *)

Definition MAX_FN_LEN : Z := 255.

Definition reserved : list line :=
  map str ["CON"; "PRN"; "AUX"; "NUL"; "COM1"; "COM2"; "COM3"; "COM4"; "COM5"; "COM6"; "COM7";
           "COM8"; "COM9"; "LPT1"; "LPT2"; "LPT3"; "LPT4"; "LPT5"; "LPT6"; "LPT7"; "LPT8"; "LPT9"]%string.

(** The characters of the raw string literal [invalid_chars]; the fourth
    is the double quote, character 34. *)
Definition invalid_chars : line :=
  ["<"; ">"; ":"; "034"; "/"; "\"; "|"; "?"; "*"]%char.

(** [fn.substr(0, fn.find('.'))], or [fn] itself when it has no period. *)
Fixpoint name_only (fn : line) : line :=
  match fn with
  | [] => []
  | c :: rest => if Ascii.eqb c "."%char then [] else c :: name_only rest
  end.

Definition valFn (fn : line) : bool :=
  match fn with
  | [] => false
  | _ :: _ =>
      if len fn >? MAX_FN_LEN then false
      else if bool_decide (head fn = Some SPACE) || bool_decide (last fn = Some SPACE)
              || bool_decide (last fn = Some "."%char)
      then false
      else if existsb (fun c => (char_val c <? 32) || bool_decide (c ∈ invalid_chars)) fn
      then false
      else negb (bool_decide (map toupper (name_only fn) ∈ reserved))
  end.

(** ** File I/O *)

Definition save (fn : line) (m : Melt) : option line * Melt :=
  match fn with
  | [] => (Some (str "Empty filename!"), m)
  | _ :: _ =>
      if can_write fn
      then (None, set_written ((fn, file_image (lines m)) :: written m) m)
      else (Some (str "Failed to open " ++ fn ++ str " for writing!"), m)
  end.

Definition load (fn : line) (m : Melt) : option line * Melt :=
  match fn with
  | [] => (Some (str "Empty filename!"), m)
  | _ :: _ =>
      match fs_read fn with
      | CannotOpen => (Some (str "Failed to open " ++ fn ++ str " for reading!"), m)
      | ReadError =>
          (Some (str "Failed to read from " ++ fn ++ str " due to unknown error!"),
           set_lines [[]] m)
      | Contents bytes =>
          let ls := getlines bytes [] in
          (None, set_lines (match ls with [] => [[]] | _ :: _ => ls end) m)
      end
  end.

(** ** Executing commands *)

(** The [s] command. *)
Definition cmd_save (m : Melt) : Melt :=
  match save (fname m) m with
  | (Some ret, m') => set_smessage ret m'
  | (None, m') => set_fstate 1 (set_smessage (str "Successfully written to " ++ fname m') m')
  end.

(** The Enter case of the prompt of the [w] command. *)
Definition confirm_write (fn : line) (m : Melt) : Melt :=
  match fn with
  | [] => set_smessage (str "Empty filename!") m
  | _ :: _ =>
      if negb (valFn fn) then set_smessage (str "Invalid filename!") m
      else
        match save fn m with
        | (Some ret, m') => set_smessage ret m'
        | (None, m') =>
            let m1 := set_fname fn m' in
            set_fstate 1 (set_smessage (str "Successfully written to " ++ fname m1) m1)
        end
  end.

(** The loop [while (chr != 27)] of the [w] command, over the keys that
    [getch] delivers; [None] when it waits for a key that never comes.
    [chr] is a [char], so [KEY_ENTER] and [KEY_BACKSPACE] never match. *)
Fixpoint prompt_loop (ks : list Z) (fn : line) (m : Melt) : option Melt :=
  match ks with
  | [] => None
  | k :: ks' =>
      let chr := to_char k in
      if (chr =? KEY_ENTER) || (chr =? 10) || (chr =? 13)
      then Some (confirm_write fn (set_pending ks' m))
      else if (chr =? KEY_BACKSPACE) || (chr =? 127) || (chr =? 8)
      then prompt_loop ks' (str_substr_n 0 (to_size_t (len fn - 1)) fn) m
      else if (chr >=? 32) && (chr <=? 126)
      then prompt_loop ks' (fn ++ [char_of chr]) m
      else if chr =? 27 then Some (set_pending ks' m)
      else prompt_loop ks' fn m
  end.

(** The [w] command. *)
Definition cmd_write (m : Melt) : option Melt :=
  let m1 := set_smessage (resize_to (mx m) SPACE (str "Write file: ")) m in
  prompt_loop (pending m1) [] m1.

(** The [q] command. *)
Definition cmd_quit (m : Melt) : Melt :=
  if fstate m =? 2 then set_smessage (str "No write since last change (use Q to override)!") m
  else set_is_running false m.

(** The [d] command. *)
Definition cmd_delete (m : Melt) : Melt :=
  if cy m >? 0
  then set_fstate 2 (mvCursor 0 (-1) (rmLn (cy m) m))
  else set_smessage (str "Only one line left!") m.

(** The [for] loop of [processCmd] followed by [last_cmd = cmd].  [replay]
    is the recursive call [processCmd(last_cmd)]; the unknown-command
    branch returns from the function. *)
Fixpoint cmd_loop (replay : Melt -> option Melt) (c : line) (m : Melt) : option Melt :=
  match c with
  | [] => Some (set_last_cmd (cmd m) m)
  | ch :: c' =>
      if Ascii.eqb ch "."%char then m' ← replay m; cmd_loop replay c' m'
      else if Ascii.eqb ch "s"%char then cmd_loop replay c' (cmd_save m)
      else if Ascii.eqb ch "w"%char then m' ← cmd_write m; cmd_loop replay c' m'
      else if Ascii.eqb ch "q"%char then cmd_loop replay c' (cmd_quit m)
      else if Ascii.eqb ch "Q"%char then cmd_loop replay c' (set_is_running false m)
      else if Ascii.eqb ch "d"%char then cmd_loop replay c' (cmd_delete m)
      else Some (set_smessage (str "Unknown command: " ++ [ch]) m)
  end.

(** [processCmd].  [fuel] bounds the depth of the recursion through [.];
    [None] stands for a call that does not return (the recursion is cut
    off, or the [w] prompt waits for a key).  The argument is a
    [string_view] of [cmd] or of [last_cmd]; it is passed by value here,
    which is the same in every call that returns: a replayed command that
    reaches a [.] of its own replays itself without end. *)
Fixpoint processCmd (fuel : nat) (c : line) (m : Melt) : option Melt :=
  match fuel with
  | O => None
  | S fuel' =>
      match c with
      | [] => Some m
      | _ :: _ => cmd_loop (fun m' => processCmd fuel' (last_cmd m') m') c m
      end
  end.

(** ** Keyboard events *)

Definition key_up (m : Melt) : Melt :=
  if edmode m =? 0
  then if cy m =? 0 then mvCursor (to_int (to_unsigned (- cx m))) 0 m else mvCursor 0 (-1) m
  else m.

Definition key_down (m : Melt) : Melt :=
  if edmode m =? 0
  then
    if cy m =? to_size_t (size (lines m) - 1)
    then mvCursor (to_int (to_size_t (len (line_at (lines m) (cy m)) - cx m))) 0 m
    else mvCursor 0 1 m
  else m.

Definition key_left (m : Melt) : Melt :=
  if (edmode m =? 0) && (cx m >? 0) then mvCursor (-1) 0 m else m.

Definition key_right (m : Melt) : Melt :=
  if (edmode m =? 0) && (cx m <? len (line_at (lines m) (cy m))) then mvCursor 1 0 m else m.

Definition key_backspace (m : Melt) : Melt :=
  if edmode m =? 0
  then
    set_fstate 2
      (if (cx m =? 0) && (cy m >? 0)
       then
         let prevlen := to_unsigned (len (line_at (lines m) (to_unsigned (cy m - 1)))) in
         mvCursor (to_int prevlen) 0 (mvCursor 0 (-1) (jnLn (to_unsigned (cy m - 1)) m))
       else if cx m >? 0
       then mvCursor (-1) 0 (rmCh (to_unsigned (cx m - 1)) (cy m) m)
       else m)
  else m.

Definition key_enter (fuel : nat) (m : Melt) : option Melt :=
  if edmode m =? 0
  then
    let m1 := spLn (cx m) (cy m) m in
    Some (set_fstate 2 (mvCursor (to_int (to_size_t (- len (line_at (lines m1) (cy m1))))) 1 m1))
  else if edmode m =? 1
  then m' ← processCmd fuel (cmd m) m; Some (set_edmode 0 (set_cmd [] m'))
  else Some m.

Definition key_tab (m : Melt) : Melt :=
  if edmode m =? 0
  then
    let ins := fun m' : Melt => insCh (cx m') (cy m') SPACE m' in
    set_fstate 2 (mvCursor 4 0 (ins (ins (ins (ins m)))))
  else m.

(** The statement [cmd.clear()] follows the [if]/[else if] of the
    Escape case and is not part of it. *)
Definition key_escape (m : Melt) : Melt :=
  set_cmd []
    (if edmode m =? 0 then set_edmode 1 m
     else if edmode m =? 1 then set_edmode 0 m
     else m).

Definition key_other (ch : Z) (m : Melt) : Melt :=
  if (ch >=? 32) && (ch <=? 126)
  then
    if edmode m =? 0
    then set_fstate 2 (mvCursor 1 0 (insCh (cx m) (cy m) (char_of ch) m))
    else if edmode m =? 1 then set_cmd (cmd m ++ [char_of ch]) m
    else m
  else m.

(** [processEvents]: [getch] takes the next pending key; [None] when
    there is none yet, or when the command it confirms does not return. *)
Definition processEvents (fuel : nat) (m : Melt) : option Melt :=
  match pending m with
  | [] => None
  | ch :: ks =>
      let m := set_pending ks m in
      if ch =? KEY_UP then Some (key_up m)
      else if ch =? KEY_DOWN then Some (key_down m)
      else if ch =? KEY_LEFT then Some (key_left m)
      else if ch =? KEY_RIGHT then Some (key_right m)
      else if (ch =? KEY_BACKSPACE) || (ch =? 127) || (ch =? 8) then Some (key_backspace m)
      else if (ch =? KEY_ENTER) || (ch =? 10) || (ch =? 13) then key_enter fuel m
      else if ch =? 9 then Some (key_tab m)
      else if ch =? 27 then Some (key_escape m)
      else Some (key_other ch m)
  end.

(** ** Start-up *)

(** The editor either runs on, or an exception leaves [run] and [main]
    ends the process: a [std::runtime_error], whose message [main]
    prints, or any other exception, which [main] catches without a
    message of its own. *)
Inductive outcome : Type :=
  | Running (m : Melt)
  | Fatal (what : line)
  | Failed.

(** [Melt med{}]: every field at its default member initializer; [keys]
    are the key codes that the terminal holds for [getch]. *)
Definition Melt_new (keys : list Z) : Melt :=
  mkMelt [] [] [] 0 0 [] [] [] [] 0 0 0 0 0 0 0 0 false false keys [].

(** The lambda [fback] of [init]. *)
Definition fback (msg : line) (m : Melt) : Melt :=
  set_smessage msg (set_fstate 0 (set_fname [] m)).

(** The file operations of [init]; [arg] is [argv[1]] when [argc > 1]. *)
Definition init_file (arg : option line) (m : Melt) : Melt :=
  let m := set_lines (lines m ++ [[]]) m in
  match arg with
  | Some a =>
      let m := set_fstate 1 (set_fname a m) in
      match fname m with
      | [] => fback [] m
      | _ :: _ =>
          if negb (valFn (fname m)) then fback (str "Invalid filename!") m
          else if negb (fs_exists (fname m)) then set_fstate 0 m
          else
            match load (fname m) m with
            | (Some r, m') => fback r m'
            | (None, m') => m'
            end
      end
  | None => fback [] m
  end.

(** The resizing of the frame buffers to [ay] rows of [ax] spaces. *)
Definition resize_frames (m : Melt) : Melt :=
  let blank := repeat SPACE (Z.to_nat (ax m)) in
  set_front (resize_to (ay m) blank (front m)) (set_back (resize_to (ay m) blank (back m)) m).

(** [init].  [scr_ok] says that [initscr] gave a screen, [modes_ok] that
    [raw], [keypad] and [noecho] all succeeded; [rows] and [cols] are what
    [getmaxyx] reports. *)
Definition init (arg : option line) (scr_ok modes_ok : bool) (rows cols : Z)
    (keys : list Z) : outcome :=
  let m := init_file arg (Melt_new keys) in
  if negb scr_ok then Fatal (str "Curses initialization failed!")
  else if negb modes_ok then Fatal (str "Curses dependencies failed!")
  else
    let vmx := to_unsigned cols in
    let vmy := to_unsigned rows in
    let m := set_term vmx vmy vmx (to_unsigned (vmy - 2)) m in
    if (ax m <? 40) || (ay m <? 12) then Fatal (str "Terminal size too small!")
    else Running (set_is_ws_changed true (resize_frames m)).

(** ** Rendering *)

(** The lambda [getVisible] of [update]. *)
Definition getVisible (s : line) (m : Melt) : line :=
  let estr := expandTabs s in
  let vis := repeat SPACE (Z.to_nat (ax m)) in
  if len estr >? ox m
  then
    let cp_len := Z.min (ax m) (to_size_t (len estr - ox m)) in
    let vis := str_substr_n (ox m) cp_len estr in
    if cp_len <? ax m then resize_to (ax m) SPACE vis else vis
  else vis.

(** The loop of [update] that fills [back]; [n] counts the rows left. *)
Fixpoint fill_back (n : nat) (i : Z) (m : Melt) : Melt :=
  match n with
  | O => m
  | S n' =>
      let row :=
        if to_size_t (i + oy m) <? size (lines m)
        then getVisible (line_at (lines m) (to_size_t (i + oy m))) m
        else "~"%char :: repeat SPACE (Z.to_nat (to_unsigned (ax m - 1))) in
      fill_back n' (i + 1) (set_back (<[Z.to_nat i := row]> (back m)) m)
  end.

(** [std::to_string] of an [unsigned] value: its decimal digits, of which
    there are at most ten; [n] counts the digits still allowed. *)
Fixpoint digits (n : nat) (v : Z) (acc : line) : line :=
  match n with
  | O => acc
  | S n' =>
      let acc' := ascii_of_nat (Z.to_nat (48 + v mod 10)) :: acc in
      if v / 10 =? 0 then acc' else digits n' (v / 10) acc'
  end.

Definition to_string (v : Z) : line := digits 10 v [].

(** No string of [2 ^ 63] characters or more can be built on a 64-bit
    platform: [std::string(n, ' ')] throws, [std::length_error] when [n]
    exceeds the [max_size()] of the library. *)
Definition string_max : Z := 2 ^ 63 - 1.

(** The two texts of the status bar: the name shown with the mark of a
    modified buffer, and the position of the cursor. *)
Definition status_info (m : Melt) : line :=
  let dname :=
    if len (fname m) >=? 23 then str_substr_n 0 20 (fname m) ++ str "..." else fname m in
  (match dname with [] => str "[NEW FILE]" | _ :: _ => dname end)
  ++ (if fstate m =? 2 then str "[+]" else []).

Definition status_position (m : Melt) : line :=
  str "Ln " ++ to_string (to_unsigned (cy m + 1))
  ++ str ", Col " ++ to_string (to_unsigned (cx m + 1)).

(** The status bar that [update] builds, with spaces between the two
    texts.  Their number [mx - info.length() - position.length()] is
    computed in [size_t], so it wraps when the terminal is narrower than
    the two texts; [None] stands for the exception thrown then. *)
Definition status_bar (m : Melt) : option line :=
  let info := status_info m in
  let position := status_position m in
  let n := to_size_t (to_size_t (mx m - len info) - len position) in
  if n >? string_max then None
  else Some (info ++ repeat SPACE (Z.to_nat n) ++ position).

(** [update]; [rows] and [cols] are what [getmaxyx] reports in this turn
    of the main loop.  The status bar string [sbar] is built, which may
    throw, but it is not kept: [render] only draws it. *)
Definition update (rows cols : Z) (m : Melt) : outcome :=
  let nx := to_unsigned cols in
  let ny := to_unsigned rows in
  let resized :=
    if negb (mx m =? nx) || negb (my m =? ny)
    then
      let m1 := set_term nx ny nx (to_unsigned (ny - 2)) (set_is_ws_changed true m) in
      if (ax m1 <? 40) || (ay m1 <? 12) then Fatal (str "Terminal size too small!")
      else Running (resize_frames m1)
    else Running m in
  match resized with
  | Running m1 =>
      let m2 := fill_back (Z.to_nat (ay m1)) 0 m1 in
      match status_bar m2 with
      | Some _ => Running (set_smessage (resize_to (mx m2) SPACE (smessage m2)) m2)
      | None => Failed
      end
  | stopped => stopped
  end.

(** The row-by-row copy of [render] when no full redraw is forced. *)
Fixpoint copy_rows (n : nat) (i : nat) (m : Melt) : Melt :=
  match n with
  | O => m
  | S n' =>
      copy_rows n' (S i)
        (if bool_decide (length (front m) ≤ i)%nat || negb (bool_decide (front m !! i = back m !! i))
         then set_front (<[i := line_at (back m) (Z.of_nat i)]> (front m)) m
         else m)
  end.

(** [render], as far as it changes the editor: what it draws on the
    terminal is not part of the state. *)
Definition render (m : Melt) : Melt :=
  if is_ws_changed m
  then set_is_ws_changed false (set_front (back m) m)
  else
    let m1 :=
      if negb (length (front m) =? length (back m))%nat
      then set_front (resize_to (size (back m)) [] (front m)) m
      else m in
    copy_rows (length (back m1)) 0 m1.

(** One turn of the loop of [run]: [update], [render], [processEvents]. *)
Definition turn (fuel : nat) (rows cols : Z) (m : Melt) : option outcome :=
  match update rows cols m with
  | Running m1 => m2 ← processEvents fuel (render m1); Some (Running m2)
  | stopped => Some stopped
  end.

(** The loop [while (is_running)] of [run], for as many turns as [sizes]
    has entries: the terminal size that [getmaxyx] reports in each. *)
Fixpoint run_loop (fuel : nat) (sizes : list (Z * Z)) (m : Melt) : option outcome :=
  match sizes with
  | [] => Some (Running m)
  | (rows, cols) :: sizes' =>
      if is_running m
      then
        match turn fuel rows cols m with
        | Some (Running m') => run_loop fuel sizes' m'
        | stopped => stopped
        end
      else Some (Running m)
  end.

Definition run (fuel : nat) (sizes : list (Z * Z)) (m : Melt) : option outcome :=
  run_loop fuel sizes (set_is_running true m).

End Editor.

(** ** Predicates of the specification *)

(** The document is representable: its line count and every line length
    fit in the [int] that [mvCursor] converts them to. *)
Definition lines_fit (ls : list line) : Prop :=
  size ls <= INT_MAX /\ Forall (fun l => len l <= INT_MAX) ls.

(** Every line is short enough for its tab-expanded width to fit in an
    [int]: a tab expands to at most [tab_width] columns. *)
Definition widths_fit (ls : list line) : Prop :=
  Forall (fun l => tab_width * len l <= INT_MAX) ls.

(** The cursor lies within the viewport on both axes. *)
Definition cursor_in_viewport (m : Melt) : Prop :=
  (ox m <= cx m < ox m + ax m) /\ (oy m <= cy m < oy m + ay m).

(** The states of the editor: those that [init] starts in, closed under
    every operation of the running editor: a turn of the main loop, its
    three steps taken alone, the execution of a command string, and the
    user typing further keys. *)
Inductive reachable (char_signed : bool) (fs_exists : line -> bool)
    (fs_read : line -> read_result) (can_write : line -> bool) : Melt -> Prop :=
  | reach_init arg scr_ok modes_ok rows cols keys m :
      init char_signed fs_exists fs_read arg scr_ok modes_ok rows cols keys = Running m ->
      reachable char_signed fs_exists fs_read can_write m
  | reach_turn fuel rows cols m m' :
      reachable char_signed fs_exists fs_read can_write m ->
      turn char_signed can_write fuel rows cols m = Some (Running m') ->
      reachable char_signed fs_exists fs_read can_write m'
  | reach_update rows cols m m' :
      reachable char_signed fs_exists fs_read can_write m ->
      update rows cols m = Running m' ->
      reachable char_signed fs_exists fs_read can_write m'
  | reach_render m :
      reachable char_signed fs_exists fs_read can_write m ->
      reachable char_signed fs_exists fs_read can_write (render m)
  | reach_event fuel m m' :
      reachable char_signed fs_exists fs_read can_write m ->
      processEvents char_signed can_write fuel m = Some m' ->
      reachable char_signed fs_exists fs_read can_write m'
  | reach_command fuel c m m' :
      reachable char_signed fs_exists fs_read can_write m ->
      processCmd char_signed can_write fuel c m = Some m' ->
      reachable char_signed fs_exists fs_read can_write m'
  | reach_typing keys m :
      reachable char_signed fs_exists fs_read can_write m ->
      reachable char_signed fs_exists fs_read can_write (set_pending (pending m ++ keys) m).

(** The command characters that [processCmd] knows. *)
Definition known_commands : line := ["."; "s"; "w"; "q"; "Q"; "d"]%char.

(** *** Filename validation, in the words of the specification *)










(** ** Concrete editors *)

(** An editor on a terminal of 26 rows and 80 columns that holds the
    document [ls] with the cursor at column [x] of row [y]: the state
    [init] starts in without a file, with the document and the cursor
    put in place. *)
Definition editor_with (ls : list line) (x y : Z) : Melt :=
  match init true (fun _ => false) (fun _ => CannotOpen) None true true 26 80 [] with
  | Running m => set_cursor x y (set_lines ls m)
  | _ => Melt_new []
  end.

(** A file system without files, in which every file can be created. *)
Definition no_file : line -> bool := fun _ => false.
Definition unreadable : line -> read_result := fun _ => CannotOpen.
Definition writable : line -> bool := fun _ => true.

(** The run of the resize scenario.  On a terminal of 26 rows and 80
    columns the user presses Enter twelve times and types fifty times the
    letter x: 62 turns of the main loop.  The left arrow is still to
    come. *)
Definition typing_keys : list Z := repeat 10 12%nat ++ repeat 120 50%nat ++ [KEY_LEFT].

Definition typed_editor : Melt :=
  match init true no_file unreadable None true true 26 80 typing_keys with
  | Running m =>
      match run true writable 1 (repeat (26, 80) 62%nat) m with
      | Some (Running m') => m'
      | _ => Melt_new []
      end
  | _ => Melt_new []
  end.

(** The window is then shrunk to 14 rows and 40 columns.  The next turn
    runs [update] and [render], and [getch] takes the left arrow:
    [shrunk_editor] is the state in which [processEvents] calls
    [mvCursor(-1, 0)]. *)
Definition shrunk_editor : Melt :=
  match update 14 40 typed_editor with
  | Running m => set_pending [] (render m)
  | _ => Melt_new []
  end.

(** An editor in command mode whose pending command is [c] and whose last
    stored command is [l]. *)
Definition command_editor (ls : list line) (x y : Z) (c l : line) : Melt :=
  set_edmode 1 (set_last_cmd l (set_cmd c (editor_with ls x y))).

Definition four_lines : list line := map str ["one"; "two"; "three"; "four"]%string.

(** ** Further definitions *)

(** ** Further definitions *)

Definition PERCENT : ascii := "%"%char.

(** The loop of [escPercent]; [ret] is the string built so far. *)
Fixpoint escPercent_loop (s : line) (ret : line) : line :=
  match s with
  | [] => ret
  | c :: s' =>
      if Ascii.eqb c PERCENT
      then escPercent_loop s' (ret ++ [PERCENT; PERCENT])
      else escPercent_loop s' (ret ++ [c])
  end.

Definition escPercent (s : line) : line := escPercent_loop s [].

(** The cursor is on the document: on one of its rows, and on that row
    at a character or just past the last one. *)
Definition cursor_on_document (m : Melt) : Prop :=
  0 <= cy m < size (lines m) /\ 0 <= cx m <= len (line_at (lines m) (cy m)).

(** A file image with its last line terminated: what saving the loaded
    lines of a file with contents [t] writes back. *)
Definition with_final_newline (t : list ascii) : list ascii :=
  match t with
  | [] => [LF]
  | _ :: _ => if bool_decide (last t = Some LF) then t else t ++ [LF]
  end.

(** The column at which [render] puts the terminal cursor before it
    subtracts [ox]: [visual_cx]. *)
Definition visual_cx (m : Melt) : Z :=
  if cy m <? size (lines m)
  then to_int (visualLength (str_substr_n 0 (cx m) (line_at (lines m) (cy m))))
  else 0.

(** Row [i] of the frame that [update] builds: the window of the expanded
    line, or the marker of a row past the end of the document. *)
Definition frame_row (m : Melt) (i : Z) : line :=
  if i + oy m <? size (lines m)
  then resize_to (ax m) SPACE (drop (Z.to_nat (ox m)) (expandTabs (line_at (lines m) (i + oy m))))
  else "~"%char :: repeat SPACE (Z.to_nat (ax m - 1)).

(** The file binding and the mode are consistent: the bound filename is
    empty or valid, a clean buffer is bound to a file, the state and mode
    fields hold one of the values the program gives them, and every file
    written so far has a valid name. *)
Definition binding_ok (char_signed : bool) (m : Melt) : Prop :=
  (fname m = [] \/ valFn char_signed (fname m) = true)
  /\ (fstate m = 1 -> fname m <> [])
  /\ (fstate m = 0 \/ fstate m = 1 \/ fstate m = 2)
  /\ (edmode m = 0 \/ edmode m = 1)
  /\ Forall (fun w => valFn char_signed w.1 = true) (written m).

(** The frame buffers match the terminal: the body is at least 40
    columns wide and 12 rows high, both buffers have [ay] rows, and every
    row of the target frame has [ax] characters. *)
Definition frames_sized (m : Melt) : Prop :=
  ax m = mx m /\ ay m = to_unsigned (my m - 2)
  /\ 40 <= ax m < 2 ^ 32 /\ 12 <= ay m
  /\ 0 <= ox m
  /\ size (back m) = ay m /\ size (front m) = ay m
  /\ Forall (fun r => len r = ax m) (back m).

(** At most [n] lines of at most [w] characters. *)
Definition bounded (n w : Z) (ls : list line) : Prop :=
  size ls <= n /\ Forall (fun l => len l <= w) ls.

(** The document leaves room for one more line, and every line for a
    tab and for being joined to another line. *)
Definition has_room (ls : list line) : Prop :=
  size ls < INT_MAX /\ Forall (fun l => 2 * len l + 4 <= INT_MAX) ls.

(** A character that the prompt of [w] and the command line accept. *)
Definition printable (c : ascii) : Prop := 32 <= code c <= 126.

(** An editor on a line with a tab, the cursor after the tab, and the
    state in which [update] leaves it on a terminal of 26 rows and 80
    columns. *)
Definition tabbed_editor : Melt := editor_with [str "a" ++ [TAB] ++ str "b"] 2 0.

Definition tabbed_frame : Melt :=
  match update 26 80 tabbed_editor with
  | Running m => m
  | _ => tabbed_editor
  end.

(** A file system in which every name is a file that holds [bytes]. *)
Definition present : line -> bool := fun _ => true.

Definition holding (bytes : list ascii) : line -> read_result := fun _ => Contents bytes.

(** The editor started on a file of two lines, the second without a final
    newline. *)
Definition opened_editor : Melt :=
  match init true present (holding (str "ab" ++ [LF] ++ str "c")) (Some (str "a.txt"))
          true true 26 80 [] with
  | Running m => m
  | _ => Melt_new []
  end.

(** The editor started with the keys Escape, Q and Enter to come, and the
    state after the three turns of the main loop that take them. *)
Definition quit_keys : list Z := [27; 81; 10].

Definition quitting_editor : Melt :=
  match init true no_file unreadable None true true 26 80 quit_keys with
  | Running m => m
  | _ => Melt_new []
  end.

Definition stopped_editor : Melt :=
  match run true writable 1 (repeat (26, 80) 3%nat) quitting_editor with
  | Some (Running m) => m
  | _ => Melt_new []
  end.


(** * Verified properties *)

(** ** Machine integers and list facts *)

Lemma to_int_small z : - 2 ^ 31 <= z <= INT_MAX -> to_int z = z.
Proof. unfold to_int, INT_MAX. intros H. rewrite Z.mod_small; lia. Qed.

Lemma to_unsigned_small z : 0 <= z < 2 ^ 32 -> to_unsigned z = z.
Proof. unfold to_unsigned. intros H. apply Z.mod_small; lia. Qed.

Lemma to_size_t_small z : 0 <= z < 2 ^ 64 -> to_size_t z = z.
Proof. unfold to_size_t. intros H. apply Z.mod_small; lia. Qed.

Lemma line_at_middle (pre post : list line) (l : line) :
  line_at (pre ++ l :: post) (Z.of_nat (length pre)) = l.
Proof.
  unfold line_at. rewrite Nat2Z.id.
  by rewrite list_lookup_middle.
Qed.

Lemma lines_insert_middle (pre post : list line) (l l' : line) :
  <[length pre := l']> (pre ++ l :: post) = pre ++ l' :: post.
Proof. induction pre as [|p pre IH]; simpl; [done | by rewrite IH]. Qed.

Lemma split_at (ls : list line) (y : Z) :
  0 <= y < size ls ->
  exists pre l post, ls = pre ++ l :: post /\ Z.of_nat (length pre) = y.
Proof.
  unfold size. intros H.
  destruct (ls !! Z.to_nat y) as [l|] eqn:E.
  - exists (take (Z.to_nat y) ls), l, (drop (S (Z.to_nat y)) ls). split.
    + symmetry. by apply take_drop_middle.
    + rewrite length_take. lia.
  - apply lookup_ge_None in E. lia.
Qed.

(** C6: for every valid position (col, row), with row below the line
    count and col at most the length of that line, and every character
    ch, [insCh col row ch] followed by [rmCh col row] restores the content
    of the line at that row; the whole document is restored with it. *)
Theorem insCh_rmCh_roundtrip (m : Melt) (col row : Z) (ch : ascii) :
  0 <= row < size (lines m) ->
  0 <= col <= len (line_at (lines m) row) ->
  line_at (lines (rmCh col row (insCh col row ch m))) row = line_at (lines m) row
  /\ lines (rmCh col row (insCh col row ch m)) = lines m.
Proof.
  intros Hrow Hcol.
  destruct (split_at (lines m) row Hrow) as (pre & l & post & Hls & Hpre).
  assert (Hl : line_at (lines m) row = l).
  { rewrite Hls, <- Hpre. apply line_at_middle. }
  rewrite Hl in Hcol. unfold len in Hcol.
  assert (Hins : lines (insCh col row ch m) = pre ++ str_insert col ch l :: post).
  { unfold insCh. rewrite Hl.
    replace (row <? size (lines m)) with true by (symmetry; apply Z.ltb_lt; lia).
    replace (col <=? len l) with true by (symmetry; apply Z.leb_le; unfold len; lia).
    simpl. rewrite Hls at 1. rewrite <- Hpre, Nat2Z.id. apply lines_insert_middle. }
  assert (Herase : str_erase1 col (str_insert col ch l) = l).
  { unfold str_erase1, str_insert.
    rewrite take_app_le by (rewrite length_take; lia).
    rewrite take_take, Nat.min_id.
    rewrite drop_app_ge by (rewrite length_take; lia).
    rewrite length_take.
    replace (S (Z.to_nat col) - Z.to_nat col `min` length l)%nat with 1%nat by lia.
    simpl. rewrite drop_0. apply take_drop. }
  assert (Hrm : lines (rmCh col row (insCh col row ch m)) = lines m).
  { unfold rmCh. rewrite Hins.
    assert (Hat : line_at (pre ++ str_insert col ch l :: post) row = str_insert col ch l).
    { rewrite <- Hpre. apply line_at_middle. }
    rewrite Hat.
    replace (row <? size (pre ++ str_insert col ch l :: post)) with true
      by (symmetry; apply Z.ltb_lt; unfold size; rewrite length_app; simpl; lia).
    replace (col <? len (str_insert col ch l)) with true.
    2:{ symmetry. apply Z.ltb_lt. unfold len, str_insert.
        rewrite length_app, length_take. simpl. rewrite length_drop. lia. }
    simpl. rewrite Herase, <- Hpre, Nat2Z.id, lines_insert_middle. by rewrite Hls. }
  split; [by rewrite Hrm | exact Hrm].
Qed.

(** C5: for every row r below the line count and every column c between
    0 and the length of line r, [spLn c r] followed by [jnLn r] restores
    the original document, and so the original line at row r.  The line
    count is one that the machine represents. *)
Theorem spLn_jnLn_roundtrip (m : Melt) (c r : Z) :
  size (lines m) <= INT_MAX ->
  0 <= r < size (lines m) ->
  0 <= c <= len (line_at (lines m) r) ->
  lines (jnLn r (spLn c r m)) = lines m
  /\ line_at (lines (jnLn r (spLn c r m))) r = line_at (lines m) r.
Proof.
  intros Hfit Hr Hc.
  destruct (split_at (lines m) r Hr) as (pre & l & post & Hls & Hpre).
  assert (Hl : line_at (lines m) r = l).
  { rewrite Hls, <- Hpre. apply line_at_middle. }
  assert (Hr1 : to_unsigned (r + 1) = r + 1).
  { apply to_unsigned_small. unfold INT_MAX in Hfit. lia. }
  assert (Hsz : size (lines m) = Z.of_nat (length pre) + 1 + Z.of_nat (length post)).
  { unfold size. rewrite Hls, length_app. simpl. lia. }
  assert (Hupd : forall x, <[Z.to_nat r := x]> (lines m) = pre ++ x :: post).
  { intros x. rewrite Hls, <- Hpre, Nat2Z.id. apply lines_insert_middle. }
  assert (Hsp : lines (spLn c r m) = pre ++ str_erase c l :: str_substr c l :: post).
  { unfold spLn. rewrite Hl.
    replace (r <? size (lines m)) with true by (symmetry; apply Z.ltb_lt; lia).
    replace (c <=? len l) with true by (symmetry; apply Z.leb_le; rewrite <- Hl; lia).
    simpl. unfold insLn. simpl.
    rewrite !Hupd.
    replace (to_unsigned (r + 1) <=? size (pre ++ str_erase c l :: post)) with true.
    2:{ symmetry. apply Z.leb_le. rewrite Hr1. unfold size. rewrite length_app. simpl. lia. }
    simpl. unfold vec_insert. rewrite Hr1, <- Hpre.
    replace (Z.to_nat (Z.of_nat (length pre) + 1)) with (length (pre ++ [str_erase c l]))
      by (rewrite length_app; simpl; lia).
    replace (pre ++ str_erase c l :: post) with ((pre ++ [str_erase c l]) ++ post)
      by (by rewrite <- app_assoc).
    rewrite take_app_length, drop_app_length. by rewrite <- app_assoc. }
  assert (Hjn : lines (jnLn r (spLn c r m)) = lines m).
  { unfold jnLn. rewrite Hsp, Hr1.
    replace (size (pre ++ str_erase c l :: str_substr c l :: post) - 1) with (size (lines m))
      by (rewrite Hsz; unfold size; rewrite length_app; simpl; lia).
    rewrite to_size_t_small by (unfold INT_MAX in Hfit; unfold size in *; lia).
    replace (r <? size (lines m)) with true by (symmetry; apply Z.ltb_lt; lia).
    unfold rmLn. simpl.
    assert (Ha : line_at (pre ++ str_erase c l :: str_substr c l :: post) r = str_erase c l).
    { rewrite <- Hpre. apply line_at_middle. }
    assert (Hb : line_at (pre ++ str_erase c l :: str_substr c l :: post) (r + 1) = str_substr c l).
    { replace (pre ++ str_erase c l :: str_substr c l :: post)
        with ((pre ++ [str_erase c l]) ++ str_substr c l :: post) by (by rewrite <- app_assoc).
      replace (r + 1) with (Z.of_nat (length (pre ++ [str_erase c l])))
        by (rewrite length_app; simpl; lia).
      apply line_at_middle. }
    rewrite Ha, Hb.
    replace (<[Z.to_nat r := str_erase c l ++ str_substr c l]>
               (pre ++ str_erase c l :: str_substr c l :: post))
      with (pre ++ (str_erase c l ++ str_substr c l) :: str_substr c l :: post)
      by (rewrite <- Hpre, Nat2Z.id; symmetry; apply lines_insert_middle).
    replace (r + 1 <? size (pre ++ (str_erase c l ++ str_substr c l) :: str_substr c l :: post))
      with true by (symmetry; apply Z.ltb_lt; unfold size; rewrite length_app; simpl; lia).
    simpl. unfold vec_erase, str_erase, str_substr. rewrite take_drop.
    replace (pre ++ l :: drop (Z.to_nat c) l :: post)
      with ((pre ++ [l]) ++ drop (Z.to_nat c) l :: post) by (by rewrite <- app_assoc).
    replace (Z.to_nat (r + 1)) with (length (pre ++ [l])) by (rewrite length_app; simpl; lia).
    rewrite delete_middle, <- app_assoc. by rewrite Hls. }
  split; [exact Hjn | by rewrite Hjn].
Qed.

Lemma len_app (a b : line) : len (a ++ b) = len a + len b.
Proof. unfold len. rewrite length_app. lia. Qed.

Lemma len_nonneg (a : line) : 0 <= len a.
Proof. unfold len. lia. Qed.

Lemma tab_loops_agree (s ret : line) (col : Z) :
  col = len ret ->
  col + 4 * len s <= INT_MAX ->
  visualLength_loop s col = len (expandTabs_loop s ret col).
Proof.
  revert ret col. induction s as [|c s IH]; intros ret col Hcol Hfit; simpl; [done|].
  pose proof (len_nonneg ret) as Hret.
  assert (Hs : len (c :: s) = 1 + len s) by (unfold len; simpl length; lia).
  rewrite Hs in Hfit. pose proof (len_nonneg s) as Hs0.
  unfold INT_MAX in Hfit.
  destruct (Ascii.eqb c TAB).
  - unfold tab_width.
    assert (Hrem : Z.rem col 4 = col mod 4) by (apply Z.rem_mod_nonneg; lia).
    pose proof (Z.mod_pos_bound col 4 ltac:(lia)) as Hmod.
    rewrite Hrem.
    rewrite (to_size_t_small (4 - col mod 4)) by lia.
    rewrite to_size_t_small by lia.
    rewrite to_int_small by (unfold INT_MAX; lia).
    apply IH.
    + rewrite len_app. unfold len at 2. rewrite repeat_length. lia.
    + unfold INT_MAX. lia.
  - rewrite to_size_t_small by lia.
    rewrite to_int_small by (unfold INT_MAX; lia).
    apply IH.
    + rewrite len_app. unfold len at 2. simpl. lia.
    + unfold INT_MAX. lia.
Qed.

(** C10: [visualLength s] is the length of [expandTabs s], for every
    string whose expanded width fits in the [int] that [expandTabs] counts
    its columns in. *)
Theorem visualLength_expandTabs (s : line) :
  4 * len s <= INT_MAX ->
  visualLength s = len (expandTabs s).
Proof.
  intros Hfit. unfold visualLength, expandTabs.
  apply tab_loops_agree; [done | lia].
Qed.

Lemma to_int_range z : - 2 ^ 31 <= to_int z <= INT_MAX.
Proof.
  unfold to_int, INT_MAX.
  pose proof (Z.mod_pos_bound (z + 2 ^ 31) (2 ^ 32) ltac:(lia)). lia.
Qed.

Lemma line_at_fits (ls : list line) (y : Z) :
  Forall (fun l => len l <= INT_MAX) ls -> 0 <= len (line_at ls y) <= INT_MAX.
Proof.
  intros Hall. split; [apply len_nonneg|].
  unfold line_at. destruct (ls !! Z.to_nat y) as [l|] eqn:E; simpl.
  - eapply (Forall_lookup_1 _ _ _ _ Hall E).
  - unfold len, INT_MAX. simpl. lia.
Qed.

Lemma size_pos (ls : list line) : ls <> [] -> 1 <= size ls.
Proof. unfold size. destruct ls; [done | simpl; lia]. Qed.

Lemma mvCursor_row_range (m : Melt) (yd : Z) :
  lines m <> [] ->
  size (lines m) <= INT_MAX ->
  0 <= mvCursor_row yd m < size (lines m).
Proof.
  intros Hne Hsz. pose proof (size_pos _ Hne) as Hpos.
  unfold mvCursor_row.
  rewrite (to_int_small (size (lines m))) by (unfold INT_MAX in *; lia).
  rewrite (to_size_t_small (size (lines m) - 1)) by (unfold INT_MAX in *; lia).
  rewrite (to_int_small (size (lines m) - 1)) by (unfold INT_MAX in *; lia).
  destruct (Z.ltb_spec (to_int (to_int (cy m) + yd)) 0); [lia|].
  destruct (Z.geb_spec (to_int (to_int (cy m) + yd)) (size (lines m))); lia.
Qed.

(** What [mvCursor_target] computes once the conversions are known to be
    the identity. *)
Lemma mvCursor_target_eq (m : Melt) (xd yd : Z) :
  lines m <> [] ->
  lines_fit (lines m) ->
  mvCursor_target xd yd m =
    let nx := mvCursor_col xd yd m in
    let ny := mvCursor_row yd m in
    if nx <? 0
    then if ny >? 0 then (len (line_at (lines m) (ny - 1)), ny - 1) else (0, ny)
    else if nx >? len (line_at (lines m) ny)
    then (0, if ny <? size (lines m) - 1 then ny + 1 else ny)
    else (nx, ny).
Proof.
  intros Hne [Hsz Hall]. pose proof (size_pos _ Hne) as Hpos.
  pose proof (mvCursor_row_range m yd Hne Hsz) as Hrow.
  unfold mvCursor_target. cbv zeta.
  set (ny := mvCursor_row yd m) in *. set (nx := mvCursor_col xd yd m).
  pose proof (line_at_fits (lines m) ny Hall) as Hl1.
  pose proof (line_at_fits (lines m) (ny - 1) Hall) as Hl0.
  rewrite (to_int_small (size (lines m))) by (unfold INT_MAX in *; lia).
  rewrite (to_int_small (size (lines m) - 1)) by (unfold INT_MAX in *; lia).
  rewrite (to_int_small (ny - 1)) by (unfold INT_MAX in *; lia).
  rewrite (to_int_small (ny + 1)) by (unfold INT_MAX in *; lia).
  rewrite (to_int_small (len (line_at (lines m) ny))) by (unfold INT_MAX in *; lia).
  rewrite (to_int_small (len (line_at (lines m) (ny - 1)))) by (unfold INT_MAX in *; lia).
  done.
Qed.

Lemma mvCursor_target_in_bounds (m : Melt) (xd yd nx ny : Z) :
  lines m <> [] ->
  lines_fit (lines m) ->
  mvCursor_target xd yd m = (nx, ny) ->
  0 <= ny < size (lines m) /\ 0 <= nx <= len (line_at (lines m) ny).
Proof.
  intros Hne Hfit. rewrite (mvCursor_target_eq m xd yd Hne Hfit). cbv zeta.
  destruct Hfit as [Hsz Hall].
  pose proof (mvCursor_row_range m yd Hne Hsz) as Hrow.
  set (ny1 := mvCursor_row yd m) in *. set (nx1 := mvCursor_col xd yd m).
  pose proof (len_nonneg (line_at (lines m) ny1)).
  pose proof (len_nonneg (line_at (lines m) (ny1 - 1))).
  pose proof (len_nonneg (line_at (lines m) (ny1 + 1))).
  destruct (Z.ltb_spec nx1 0).
  - destruct (Z.gtb_spec ny1 0); intros [= <- <-]; lia.
  - destruct (Z.gtb_spec nx1 (len (line_at (lines m) ny1))).
    + destruct (Z.ltb_spec ny1 (size (lines m) - 1)); intros [= <- <-]; lia.
    + intros [= <- <-]. lia.
Qed.

Lemma scrollToFit_keeps (m : Melt) :
  lines (scrollToFit m) = lines m /\ cx (scrollToFit m) = cx m /\ cy (scrollToFit m) = cy m
  /\ ax (scrollToFit m) = ax m /\ ay (scrollToFit m) = ay m
  /\ front (scrollToFit m) = front m.
Proof.
  unfold scrollToFit, scrollLeft, scrollRight, scrollUp, scrollDown.
  repeat case_match; simpl; repeat case_match; simpl; done.
Qed.

(** C2: for every document with at least one line, every starting cursor
    and every displacement, after [mvCursor dCol dRow] the cursor row is
    at least 0 and below the line count, and the cursor column is between 0
    and the length of that row. *)
Theorem mvCursor_cursor_in_bounds (m : Melt) (dCol dRow : Z) :
  lines m <> [] ->
  lines_fit (lines m) ->
  0 <= cy (mvCursor dCol dRow m) < size (lines (mvCursor dCol dRow m))
  /\ 0 <= cx (mvCursor dCol dRow m)
          <= len (line_at (lines (mvCursor dCol dRow m)) (cy (mvCursor dCol dRow m))).
Proof.
  intros Hne Hfit. unfold mvCursor.
  destruct (mvCursor_target dCol dRow m) as [nx ny] eqn:Ht.
  destruct (mvCursor_target_in_bounds m dCol dRow nx ny Hne Hfit Ht) as [Hy Hx].
  destruct Hfit as [Hsz Hall].
  pose proof (line_at_fits (lines m) ny Hall) as Hl.
  destruct (scrollToFit_keeps (set_cursor (to_unsigned nx) (to_unsigned ny) m))
    as (-> & -> & -> & _).
  simpl.
  rewrite !to_unsigned_small by (unfold INT_MAX in *; lia).
  done.
Qed.

(** C8, as amended: when the column that [mvCursor] resolves is past the
    end of the target row, the cursor goes to column 0 of the next row if
    the target row is not the last one, and to column 0 of the same row if
    it is the last one. *)
Theorem mvCursor_past_end_of_row (m : Melt) (xd yd : Z) :
  lines m <> [] ->
  lines_fit (lines m) ->
  mvCursor_col xd yd m > len (line_at (lines m) (mvCursor_row yd m)) ->
  (mvCursor_row yd m < size (lines m) - 1 ->
     cx (mvCursor xd yd m) = 0 /\ cy (mvCursor xd yd m) = mvCursor_row yd m + 1)
  /\ (mvCursor_row yd m = size (lines m) - 1 ->
     cx (mvCursor xd yd m) = 0 /\ cy (mvCursor xd yd m) = mvCursor_row yd m).
Proof.
  intros Hne Hfit Hover.
  pose proof (mvCursor_row_range m yd Hne (proj1 Hfit)) as Hrow.
  pose proof (len_nonneg (line_at (lines m) (mvCursor_row yd m))) as Hlen.
  unfold mvCursor. rewrite (mvCursor_target_eq m xd yd Hne Hfit). cbv zeta.
  destruct (Z.ltb_spec (mvCursor_col xd yd m) 0); [lia|].
  destruct (Z.gtb_spec (mvCursor_col xd yd m) (len (line_at (lines m) (mvCursor_row yd m))));
    [|lia].
  destruct Hfit as [Hsz _].
  split; intros Hcase.
  - destruct (Z.ltb_spec (mvCursor_row yd m) (size (lines m) - 1)); [|lia].
    destruct (scrollToFit_keeps
                (set_cursor (to_unsigned 0) (to_unsigned (mvCursor_row yd m + 1)) m))
      as (_ & -> & -> & _).
    simpl. rewrite !to_unsigned_small by (unfold INT_MAX in *; lia). done.
  - destruct (Z.ltb_spec (mvCursor_row yd m) (size (lines m) - 1)); [lia|].
    destruct (scrollToFit_keeps
                (set_cursor (to_unsigned 0) (to_unsigned (mvCursor_row yd m)) m))
      as (_ & -> & -> & _).
    simpl. rewrite !to_unsigned_small by (unfold INT_MAX in *; lia). done.
Qed.

Lemma visualLength_loop_bounds (s : line) (n : Z) :
  0 <= n ->
  n + tab_width * len s <= INT_MAX ->
  n + len s <= visualLength_loop s n <= n + tab_width * len s.
Proof.
  unfold tab_width. revert n. induction s as [|c s IH]; intros n Hn Hfit; simpl.
  { unfold len. simpl. lia. }
  assert (Hs : len (c :: s) = 1 + len s) by (unfold len; simpl length; lia).
  rewrite Hs in *. pose proof (len_nonneg s) as Hs0. unfold INT_MAX in *.
  destruct (Ascii.eqb c TAB).
  - unfold tab_width.
    pose proof (Z.mod_pos_bound n 4 ltac:(lia)) as Hmod.
    rewrite (to_size_t_small (4 - n mod 4)) by lia.
    rewrite to_size_t_small by lia.
    specialize (IH (n + (4 - n mod 4)) ltac:(lia) ltac:(lia)). lia.
  - rewrite to_size_t_small by lia.
    specialize (IH (n + 1) ltac:(lia) ltac:(lia)). lia.
Qed.

Lemma visualLength_bounds (s : line) :
  tab_width * len s <= INT_MAX ->
  len s <= visualLength s <= tab_width * len s.
Proof.
  intros Hfit. pose proof (visualLength_loop_bounds s 0 ltac:(lia) ltac:(lia)). 
  unfold visualLength. lia.
Qed.

Lemma max_visible_ge_acc (n : nat) (i : Z) (m : Melt) (acc : Z) :
  acc <= max_visible n i m acc.
Proof.
  revert i acc. induction n as [|n IH]; intros i acc; simpl; [lia|].
  destruct (to_size_t (i + oy m) <? size (lines m)); [|lia].
  etransitivity; [|apply IH]. lia.
Qed.

Lemma max_visible_le_max (n : nat) (i : Z) (m : Melt) (acc : Z) :
  acc <= INT_MAX -> max_visible n i m acc <= INT_MAX.
Proof.
  revert i acc. induction n as [|n IH]; intros i acc Hacc; simpl; [lia|].
  destruct (to_size_t (i + oy m) <? size (lines m)); [|lia].
  apply IH.
  pose proof (to_int_range (visualLength (line_at (lines m) (to_size_t (i + oy m))))). lia.
Qed.

Lemma max_visible_covers (n : nat) (i j : Z) (m : Melt) (acc : Z) :
  0 <= oy m ->
  size (lines m) <= INT_MAX ->
  0 <= i <= j ->
  j < i + Z.of_nat n ->
  j + oy m < size (lines m) ->
  to_int (visualLength (line_at (lines m) (j + oy m))) <= max_visible n i m acc.
Proof.
  intros Hoy Hsz. revert i acc. induction n as [|n IH]; intros i acc Hij Hn Hj; simpl; [lia|].
  rewrite to_size_t_small by (unfold INT_MAX in *; lia).
  destruct (Z.ltb_spec (i + oy m) (size (lines m))); [|lia].
  destruct (Z.eq_dec i j) as [->|Hne].
  - etransitivity; [|apply max_visible_ge_acc]. lia.
  - apply IH; lia.
Qed.

Lemma line_at_widths_fit (ls : list line) (y : Z) :
  widths_fit ls -> tab_width * len (line_at ls y) <= INT_MAX.
Proof.
  intros Hall. unfold line_at.
  destruct (ls !! Z.to_nat y) as [l|] eqn:E; simpl.
  - eapply (Forall_lookup_1 _ _ _ _ Hall E).
  - unfold len, tab_width, INT_MAX. simpl. lia.
Qed.

(** What [scrollToFit] achieves for a cursor that is on the document. *)
Lemma scrollToFit_viewport (m : Melt) :
  size (lines m) <= INT_MAX ->
  widths_fit (lines m) ->
  0 <= cy m < size (lines m) ->
  0 <= cx m <= len (line_at (lines m) (cy m)) ->
  0 <= ox m -> 0 <= oy m -> 2 <= ax m -> 1 <= ay m ->
  ox m + ax m <= INT_MAX -> oy m + ay m <= INT_MAX ->
  (oy (scrollToFit m) <= cy (scrollToFit m) < oy (scrollToFit m) + ay (scrollToFit m))
  /\ ox (scrollToFit m) <= cx (scrollToFit m)
  /\ (cx m < ox m + ax m \/ oy m <= cy m < oy m + Z.of_nat (length (front m)) ->
      cx (scrollToFit m) < ox (scrollToFit m) + ax (scrollToFit m)).
Proof.
  intros Hsz Hw Hcy Hcx Hox Hoy Hax Hay Hxfit Hyfit.
  pose proof (line_at_widths_fit (lines m) (cy m) Hw) as Hwl.
  pose proof (visualLength_bounds _ Hwl) as Hvis.
  unfold tab_width in *.
  unfold scrollToFit.
  set (m1 := if cx m <? ox m then _ else _).
  assert (H1 : lines m1 = lines m /\ cx m1 = cx m /\ cy m1 = cy m /\ oy m1 = oy m
               /\ ax m1 = ax m /\ ay m1 = ay m
               /\ ox m1 <= cx m
               /\ (cx m < ox m + ax m \/ oy m <= cy m < oy m + Z.of_nat (length (front m)) ->
                   cx m < ox m1 + ax m)).
  { subst m1. destruct (Z.ltb_spec (cx m) (ox m)).
    - unfold scrollLeft.
      rewrite (to_unsigned_small (ox m - cx m)) by (unfold INT_MAX in *; lia).
      destruct (Z.geb_spec (ox m) (ox m - cx m)); [|lia]. simpl.
      rewrite to_unsigned_small by (unfold INT_MAX in *; lia).
      repeat split; try done; lia.
    - rewrite (to_unsigned_small (ox m + ax m)) by (unfold INT_MAX in *; lia).
      destruct (Z.geb_spec (cx m) (ox m + ax m)); [|repeat split; try done; lia].
      pose proof (len_nonneg (line_at (lines m) (cy m))).
      rewrite (to_unsigned_small (cx m - (ox m + ax m))) by (unfold INT_MAX in *; lia).
      rewrite (to_unsigned_small (cx m - (ox m + ax m) + 1)) by (unfold INT_MAX in *; lia).
      unfold scrollRight. destruct (front m) as [|f fs] eqn:Hfront.
      { repeat split; try done; try lia. simpl. intros [?|?]; lia. }
      rewrite <- Hfront.
      rewrite (to_unsigned_small (ox m + (cx m - (ox m + ax m) + 1)))
        by (unfold INT_MAX in *; lia).
      destruct (Z.ltb_spec (ox m + (cx m - (ox m + ax m) + 1))
                  (to_unsigned (max_visible (length (front m)) 0 m 0))).
      + simpl. repeat split; try done; lia.
      + repeat split; try done; try lia. intros [?|Hvisible]; [lia|]. exfalso.
        pose proof (max_visible_covers (length (front m)) 0 (cy m - oy m) m 0
                      Hoy Hsz ltac:(lia) ltac:(lia) ltac:(lia)) as Hcov.
        replace (cy m - oy m + oy m) with (cy m) in Hcov by lia.
        rewrite to_int_small in Hcov by (unfold INT_MAX in *; lia).
        assert (Hmax : 0 <= max_visible (length (front m)) 0 m 0)
          by apply max_visible_ge_acc.
        pose proof (max_visible_le_max (length (front m)) 0 m 0 ltac:(unfold INT_MAX; lia)).
        rewrite to_unsigned_small in * by (unfold INT_MAX in *; lia). lia. }
  clearbody m1.
  destruct H1 as (Hl1 & Hcx1 & Hcy1 & Hoy1 & Hax1 & Hay1 & Hleft & Hright).
  destruct (Z.ltb_spec (cy m1) (oy m1)).
  - unfold scrollUp.
    rewrite (to_unsigned_small (oy m1 - cy m1)) by (unfold INT_MAX in *; lia).
    destruct (Z.geb_spec (oy m1) (oy m1 - cy m1)); [|lia]. simpl.
    rewrite to_unsigned_small by (unfold INT_MAX in *; lia).
    repeat split; first [lia | intros Hc; specialize (Hright Hc); lia].
  - rewrite (to_unsigned_small (oy m1 + ay m1)) by (unfold INT_MAX in *; lia).
    destruct (Z.geb_spec (cy m1) (oy m1 + ay m1)).
    + rewrite (to_unsigned_small (cy m1 - (oy m1 + ay m1))) by (unfold INT_MAX in *; lia).
      rewrite (to_unsigned_small (cy m1 - (oy m1 + ay m1) + 1)) by (unfold INT_MAX in *; lia).
      unfold scrollDown.
      rewrite (to_unsigned_small (oy m1 + (cy m1 - (oy m1 + ay m1) + 1)))
        by (unfold INT_MAX in *; lia).
      rewrite Hl1.
      destruct (Z.ltb_spec (oy m1 + (cy m1 - (oy m1 + ay m1) + 1)) (size (lines m))); [|lia].
      simpl. repeat split; first [lia | intros Hc; specialize (Hright Hc); lia].
    + repeat split; first [lia | intros Hc; specialize (Hright Hc); lia].
Qed.

Lemma widths_fit_lines_fit (ls : list line) :
  size ls <= INT_MAX -> widths_fit ls -> lines_fit ls.
Proof.
  intros Hsz Hw. split; [done|].
  eapply Forall_impl; [exact Hw|]. intros l Hl. simpl in Hl.
  pose proof (len_nonneg l). unfold tab_width in Hl. lia.
Qed.

(** C3, as amended: after every call of [mvCursor] the cursor lies within
    the viewport vertically and is not left of its origin column; it is
    also left of origin column + width whenever no rightward scroll was
    needed or the row it lands on was among the rows displayed before the
    call.  Otherwise the rightward scroll, which is limited by the longest
    displayed line, can be refused. *)
Theorem mvCursor_viewport (m : Melt) (dCol dRow : Z) :
  lines m <> [] ->
  size (lines m) <= INT_MAX ->
  widths_fit (lines m) ->
  0 <= ox m -> 0 <= oy m -> 2 <= ax m -> 1 <= ay m ->
  ox m + ax m <= INT_MAX -> oy m + ay m <= INT_MAX ->
  (oy (mvCursor dCol dRow m) <= cy (mvCursor dCol dRow m)
     < oy (mvCursor dCol dRow m) + ay (mvCursor dCol dRow m))
  /\ ox (mvCursor dCol dRow m) <= cx (mvCursor dCol dRow m)
  /\ (cx (mvCursor dCol dRow m) < ox m + ax m
      \/ oy m <= cy (mvCursor dCol dRow m) < oy m + Z.of_nat (length (front m)) ->
      cx (mvCursor dCol dRow m) < ox (mvCursor dCol dRow m) + ax (mvCursor dCol dRow m)).
Proof.
  intros Hne Hsz Hw Hox Hoy Hax Hay Hxfit Hyfit.
  pose proof (widths_fit_lines_fit _ Hsz Hw) as Hfit.
  unfold mvCursor.
  destruct (mvCursor_target dCol dRow m) as [nx ny] eqn:Ht.
  destruct (mvCursor_target_in_bounds m dCol dRow nx ny Hne Hfit Ht) as [Hy Hx].
  pose proof (line_at_fits (lines m) ny (proj2 Hfit)) as Hl.
  set (m0 := set_cursor (to_unsigned nx) (to_unsigned ny) m).
  assert (Hcx0 : cx m0 = nx) by (simpl; apply to_unsigned_small; unfold INT_MAX in *; lia).
  assert (Hcy0 : cy m0 = ny) by (simpl; apply to_unsigned_small; unfold INT_MAX in *; lia).
  pose proof (scrollToFit_viewport m0) as Hv.
  destruct (scrollToFit_keeps m0) as (_ & Hkx & Hky & _).
  rewrite Hkx, Hky in *. rewrite Hcx0, Hcy0 in *.
  apply Hv; simpl; try done.
Qed.

(** ** The document is never empty *)

Lemma to_unsigned_nonneg z : 0 <= to_unsigned z.
Proof. unfold to_unsigned. pose proof (Z.mod_pos_bound z (2 ^ 32) ltac:(lia)). lia. Qed.

Lemma insCh_length (x y : Z) (c : ascii) (m : Melt) :
  length (lines (insCh x y c m)) = length (lines m).
Proof. unfold insCh. case_match; simpl; [apply length_insert | done]. Qed.

Lemma rmCh_length (x y : Z) (m : Melt) :
  length (lines (rmCh x y m)) = length (lines m).
Proof. unfold rmCh. case_match; simpl; [apply length_insert | done]. Qed.

Lemma insLn_length (y : Z) (l : line) (m : Melt) :
  (length (lines m) <= length (lines (insLn y l m)))%nat.
Proof.
  unfold insLn, vec_insert. case_match; simpl; [|done].
  rewrite length_app. simpl. rewrite length_take, length_drop. lia.
Qed.

Lemma spLn_length (x y : Z) (m : Melt) :
  (length (lines m) <= length (lines (spLn x y m)))%nat.
Proof.
  unfold spLn. case_match; [|done].
  etransitivity; [|apply insLn_length]. simpl. by rewrite length_insert.
Qed.

Lemma rmLn_length (y : Z) (m : Melt) :
  (length (lines m) - 1 <= length (lines (rmLn y m)))%nat.
Proof.
  unfold rmLn, vec_erase. case_match; simpl; [|lia].
  rewrite delete_take_drop, length_app, length_take, length_drop. lia.
Qed.

Lemma nonempty_length (ls : list line) : ls <> [] <-> (1 <= length ls)%nat.
Proof. destruct ls; simpl; split; intros; try done; lia. Qed.

Lemma jnLn_nonempty (y : Z) (m : Melt) :
  0 <= y -> lines m <> [] -> lines (jnLn y m) <> [].
Proof.
  intros Hy Hne. apply nonempty_length in Hne. apply nonempty_length.
  unfold jnLn.
  destruct (Z.ltb_spec y (to_size_t (size (lines m) - 1))) as [Hlt|]; [|done].
  assert (2 <= length (lines m))%nat.
  { unfold to_size_t, size in Hlt.
    pose proof (Z.mod_le (Z.of_nat (length (lines m)) - 1) (2 ^ 64) ltac:(lia) ltac:(lia)).
    lia. }
  etransitivity; [|apply rmLn_length]. simpl. rewrite length_insert. lia.
Qed.

Lemma mvCursor_lines (xd yd : Z) (m : Melt) : lines (mvCursor xd yd m) = lines m.
Proof.
  unfold mvCursor. destruct (mvCursor_target xd yd m) as [nx ny].
  by destruct (scrollToFit_keeps (set_cursor (to_unsigned nx) (to_unsigned ny) m)) as (-> & _).
Qed.

Lemma cmd_delete_nonempty (m : Melt) : lines m <> [] -> lines (cmd_delete m) <> [].
Proof.
  intros Hne. unfold cmd_delete.
  destruct (Z.gtb_spec (cy m) 0) as [Hcy|]; simpl; [|done].
  rewrite mvCursor_lines. unfold rmLn, vec_erase.
  destruct (Z.ltb_spec (cy m) (size (lines m))) as [Hlt|]; simpl; [|done].
  apply nonempty_length. unfold size in Hlt.
  rewrite length_delete by (apply lookup_lt_is_Some_2; lia). lia.
Qed.

Section Preservation.

Variable char_signed : bool.
Variable can_write : line -> bool.

Lemma save_lines (fn : line) (m : Melt) : lines (save can_write fn m).2 = lines m.
Proof. unfold save. repeat case_match; done. Qed.

Lemma cmd_save_lines (m : Melt) : lines (cmd_save can_write m) = lines m.
Proof.
  unfold cmd_save. pose proof (save_lines (fname m) m) as Hs.
  destruct (save can_write (fname m) m) as [[ret|] m']; simpl in *; done.
Qed.

Lemma confirm_write_lines (fn : line) (m : Melt) :
  lines (confirm_write char_signed can_write fn m) = lines m.
Proof.
  unfold confirm_write. destruct fn as [|c fn]; [done|].
  case_match; [done|].
  pose proof (save_lines (c :: fn) m) as Hs.
  destruct (save can_write (c :: fn) m) as [[ret|] m']; simpl in *; done.
Qed.

Lemma prompt_loop_lines (ks : list Z) (fn : line) (m m' : Melt) :
  prompt_loop char_signed can_write ks fn m = Some m' -> lines m' = lines m.
Proof.
  revert fn. induction ks as [|k ks IH]; intros fn; simpl; [done|].
  repeat case_match; try (by apply IH).
  - intros [= <-]. by rewrite confirm_write_lines.
  - intros [= <-]. done.
Qed.

Lemma cmd_write_lines (m m' : Melt) :
  cmd_write char_signed can_write m = Some m' -> lines m' = lines m.
Proof. unfold cmd_write. intros H. by apply prompt_loop_lines in H. Qed.

Lemma cmd_quit_lines (m : Melt) : lines (cmd_quit m) = lines m.
Proof. unfold cmd_quit. by case_match. Qed.

Lemma cmd_loop_nonempty (replay : Melt -> option Melt) (c : line) (m m' : Melt) :
  (forall x y, replay x = Some y -> lines x <> [] -> lines y <> []) ->
  cmd_loop char_signed can_write replay c m = Some m' ->
  lines m <> [] -> lines m' <> [].
Proof.
  intros Hreplay. revert m. induction c as [|ch c IH]; intros m; simpl.
  { by intros [= <-]. }
  repeat (destruct (Ascii.eqb ch _)).
  - destruct (replay m) as [m1|] eqn:E; simpl; [|done].
    intros Hrun Hne. eapply IH; [exact Hrun|]. by eapply Hreplay.
  - intros Hrun Hne. eapply IH; [exact Hrun|]. by rewrite cmd_save_lines.
  - destruct (cmd_write char_signed can_write m) as [m1|] eqn:E; simpl; [|done].
    intros Hrun Hne. eapply IH; [exact Hrun|]. by rewrite (cmd_write_lines _ _ E).
  - intros Hrun Hne. eapply IH; [exact Hrun|]. by rewrite cmd_quit_lines.
  - intros Hrun Hne. eapply IH; [exact Hrun|]. done.
  - intros Hrun Hne. eapply IH; [exact Hrun|]. by apply cmd_delete_nonempty.
  - by intros [= <-].
Qed.

Lemma processCmd_nonempty (fuel : nat) (c : line) (m m' : Melt) :
  processCmd char_signed can_write fuel c m = Some m' ->
  lines m <> [] -> lines m' <> [].
Proof.
  revert c m m'. induction fuel as [|fuel IH]; intros c m m'; simpl; [done|].
  destruct c as [|ch c]; [by intros [= <-]|].
  apply cmd_loop_nonempty. intros x y. apply IH.
Qed.

Lemma key_up_lines (m : Melt) : lines (key_up m) = lines m.
Proof.
  unfold key_up. destruct (edmode m =? 0); [|reflexivity].
  destruct (cy m =? 0); apply mvCursor_lines.
Qed.

Lemma key_down_lines (m : Melt) : lines (key_down m) = lines m.
Proof.
  unfold key_down. destruct (edmode m =? 0); [|reflexivity].
  destruct (cy m =? to_size_t (size (lines m) - 1)); apply mvCursor_lines.
Qed.

Lemma key_left_lines (m : Melt) : lines (key_left m) = lines m.
Proof.
  unfold key_left. destruct ((edmode m =? 0) && (cx m >? 0)); [|reflexivity].
  apply mvCursor_lines.
Qed.

Lemma key_right_lines (m : Melt) : lines (key_right m) = lines m.
Proof.
  unfold key_right.
  destruct ((edmode m =? 0) && (cx m <? len (line_at (lines m) (cy m)))); [|reflexivity].
  apply mvCursor_lines.
Qed.

Lemma set_fstate_lines (v : Z) (m : Melt) : lines (set_fstate v m) = lines m.
Proof. reflexivity. Qed.

Lemma key_backspace_nonempty (m : Melt) :
  lines m <> [] -> lines (key_backspace m) <> [].
Proof.
  intros Hne. unfold key_backspace.
  destruct (edmode m =? 0); [|exact Hne].
  rewrite set_fstate_lines.
  destruct ((cx m =? 0) && (cy m >? 0)); [|destruct (cx m >? 0)].
  - rewrite !mvCursor_lines. apply jnLn_nonempty; [apply to_unsigned_nonneg | exact Hne].
  - rewrite mvCursor_lines. apply nonempty_length. rewrite rmCh_length.
    by apply nonempty_length.
  - exact Hne.
Qed.

Lemma key_enter_nonempty (fuel : nat) (m m' : Melt) :
  key_enter char_signed can_write fuel m = Some m' ->
  lines m <> [] -> lines m' <> [].
Proof.
  unfold key_enter. intros Hev Hne.
  destruct (edmode m =? 0); [|destruct (edmode m =? 1)].
  - injection Hev as <-. rewrite set_fstate_lines, mvCursor_lines.
    apply nonempty_length. apply nonempty_length in Hne.
    etransitivity; [exact Hne | apply spLn_length].
  - destruct (processCmd char_signed can_write fuel (cmd m) m) as [m1|] eqn:E;
      [|discriminate Hev].
    injection Hev as <-.
    change (lines m1 <> []). eapply processCmd_nonempty; [exact E | exact Hne].
  - injection Hev as <-. exact Hne.
Qed.

Lemma key_tab_length (m : Melt) : length (lines (key_tab m)) = length (lines m).
Proof.
  unfold key_tab. destruct (edmode m =? 0); [|reflexivity].
  rewrite set_fstate_lines, mvCursor_lines. by rewrite !insCh_length.
Qed.

Lemma key_escape_lines (m : Melt) : lines (key_escape m) = lines m.
Proof.
  unfold key_escape. destruct (edmode m =? 0); [reflexivity|].
  destruct (edmode m =? 1); reflexivity.
Qed.

Lemma key_other_length (ch : Z) (m : Melt) :
  length (lines (key_other ch m)) = length (lines m).
Proof.
  unfold key_other. destruct ((ch >=? 32) && (ch <=? 126)); [|reflexivity].
  destruct (edmode m =? 0); [|destruct (edmode m =? 1); reflexivity].
  rewrite set_fstate_lines, mvCursor_lines. apply insCh_length.
Qed.

Lemma processEvents_nonempty (fuel : nat) (m m' : Melt) :
  processEvents char_signed can_write fuel m = Some m' ->
  lines m <> [] -> lines m' <> [].
Proof.
  unfold processEvents. destruct (pending m) as [|ch ks]; [discriminate|].
  change (lines m) with (lines (set_pending ks m)).
  generalize (set_pending ks m). clear m. intros m Hev Hne.
  destruct (ch =? KEY_UP).
  { injection Hev as <-. by rewrite key_up_lines. }
  destruct (ch =? KEY_DOWN).
  { injection Hev as <-. by rewrite key_down_lines. }
  destruct (ch =? KEY_LEFT).
  { injection Hev as <-. by rewrite key_left_lines. }
  destruct (ch =? KEY_RIGHT).
  { injection Hev as <-. by rewrite key_right_lines. }
  destruct ((ch =? KEY_BACKSPACE) || (ch =? 127) || (ch =? 8)).
  { injection Hev as <-. by apply key_backspace_nonempty. }
  destruct ((ch =? KEY_ENTER) || (ch =? 10) || (ch =? 13)).
  { by eapply key_enter_nonempty. }
  destruct (ch =? 9).
  { injection Hev as <-. apply nonempty_length. rewrite key_tab_length.
    by apply nonempty_length. }
  destruct (ch =? 27).
  { injection Hev as <-. by rewrite key_escape_lines. }
  injection Hev as <-. apply nonempty_length. rewrite key_other_length.
  by apply nonempty_length.
Qed.

Lemma fill_back_lines (n : nat) (i : Z) (m : Melt) : lines (fill_back n i m) = lines m.
Proof. revert i m. induction n as [|n IH]; intros i m; simpl; [done | by rewrite IH]. Qed.

Lemma update_lines (rows cols : Z) (m m' : Melt) :
  update rows cols m = Running m' -> lines m' = lines m.
Proof.
  unfold update.
  destruct (negb (mx m =? to_unsigned cols) || negb (my m =? to_unsigned rows)).
  - match goal with |- context [if ?b then Fatal _ else _] => destruct b end; [done|].
    destruct (status_bar _); [|done].
    intros [= <-]. cbn [lines set_smessage]. by rewrite fill_back_lines.
  - destruct (status_bar _); [|done].
    intros [= <-]. cbn [lines set_smessage]. by rewrite fill_back_lines.
Qed.

Lemma copy_rows_lines (n i : nat) (m : Melt) : lines (copy_rows n i m) = lines m.
Proof.
  revert i m. induction n as [|n IH]; intros i m; simpl; [done|].
  rewrite IH. by case_match.
Qed.

Lemma render_lines (m : Melt) : lines (render m) = lines m.
Proof. unfold render. repeat case_match; rewrite ?copy_rows_lines; done. Qed.

Lemma turn_nonempty (fuel : nat) (rows cols : Z) (m m' : Melt) :
  turn char_signed can_write fuel rows cols m = Some (Running m') ->
  lines m <> [] -> lines m' <> [].
Proof.
  unfold turn. destruct (update rows cols m) as [m1| |] eqn:Hu; [|done|done].
  destruct (processEvents char_signed can_write fuel (render m1)) as [m2|] eqn:He;
    simpl; [|done].
  intros [= <-] Hne. eapply processEvents_nonempty; [exact He|].
  by rewrite render_lines, (update_lines _ _ _ _ Hu).
Qed.

End Preservation.

Lemma init_file_nonempty char_signed fs_exists fs_read (arg : option line) (m : Melt) :
  lines (init_file char_signed fs_exists fs_read arg m) <> [].
Proof.
  unfold init_file.
  assert (Hpush : lines m ++ [[]] <> []) by (by destruct (lines m)).
  destruct arg as [a|]; [|done].
  cbn [fname set_fstate set_fname].
  destruct a as [|c a]; [done|].
  destruct (negb _); [done|]. destruct (negb _); [done|].
  unfold load. cbn [fname set_fstate set_fname].
  destruct (fs_read (c :: a)) as [| |bytes]; try done.
  destruct (getlines bytes []); done.
Qed.

Lemma resize_frames_lines (m : Melt) : lines (resize_frames m) = lines m.
Proof. done. Qed.

Lemma init_nonempty char_signed fs_exists fs_read arg scr_ok modes_ok rows cols keys m :
  init char_signed fs_exists fs_read arg scr_ok modes_ok rows cols keys = Running m ->
  lines m <> [].
Proof.
  unfold init. destruct (negb scr_ok); [done|]. destruct (negb modes_ok); [done|].
  match goal with |- context [if ?b then Fatal _ else _] => destruct b end; [done|].
  intros [= <-]. cbn [lines set_is_ws_changed resize_frames set_front set_back set_term].
  apply init_file_nonempty.
Qed.

Lemma reachable_nonempty char_signed fs_exists fs_read can_write (m : Melt) :
  reachable char_signed fs_exists fs_read can_write m -> lines m <> [].
Proof.
  induction 1 as [arg scr_ok modes_ok rows cols keys m Hi
                 | fuel rows cols m m' _ IH Ht
                 | rows cols m m' _ IH Hu
                 | m _ IH
                 | fuel m m' _ IH He
                 | fuel c m m' _ IH Hc
                 | keys m _ IH].
  - by eapply init_nonempty.
  - by eapply turn_nonempty.
  - by rewrite (update_lines _ _ _ _ Hu).
  - by rewrite render_lines.
  - by eapply processEvents_nonempty.
  - by eapply processCmd_nonempty.
  - done.
Qed.

(** With one line left the [d] command changes nothing in the document,
    and with the cursor on that line it only sets the message. *)
Lemma cmd_delete_last_line (m : Melt) :
  size (lines m) = 1 ->
  lines (cmd_delete m) = lines m
  /\ (cy m = 0 -> cmd_delete m = set_smessage (str "Only one line left!") m).
Proof.
  intros Hone. unfold cmd_delete. split.
  - destruct (Z.gtb_spec (cy m) 0) as [Hcy|]; simpl; [|done].
    rewrite mvCursor_lines. unfold rmLn.
    destruct (Z.ltb_spec (cy m) (size (lines m))); [lia | done].
  - intros ->. done.
Qed.

(** C1: every state that the editor reaches from start-up, through any
    sequence of its operations, has a document of at least one line; and
    when one line is left the delete-line command does not remove it: the
    document is unchanged, and with the cursor on that line the command
    only sets its message. *)
Theorem document_never_empty char_signed fs_exists fs_read can_write (m : Melt) :
  reachable char_signed fs_exists fs_read can_write m ->
  1 <= size (lines m)
  /\ (size (lines m) = 1 ->
      lines (cmd_delete m) = lines m
      /\ (cy m = 0 -> cmd_delete m = set_smessage (str "Only one line left!") m)).
Proof.
  intros Hreach. split.
  - apply size_pos. by eapply reachable_nonempty.
  - apply cmd_delete_last_line.
Qed.

(** ** The command stored for [.] *)

Lemma set_ox_id (m : Melt) : set_ox (ox m) m = m.
Proof. by destruct m. Qed.

Lemma set_oy_id (m : Melt) : set_oy (oy m) m = m.
Proof. by destruct m. Qed.

Lemma scrollToFit_frame (m : Melt) :
  exists x y, scrollToFit m = set_oy y (set_ox x m).
Proof.
  unfold scrollToFit.
  set (m1 := if cx m <? ox m then _ else _).
  assert (H1 : exists x, m1 = set_ox x m).
  { subst m1. unfold scrollLeft, scrollRight.
    repeat case_match; try (by eexists); exists (ox m); by rewrite set_ox_id. }
  destruct H1 as [x ->]. exists x.
  unfold scrollUp, scrollDown.
  repeat case_match; try (by eexists);
    exists (oy (set_ox x m)); by rewrite set_oy_id.
Qed.

Lemma mvCursor_frame (xd yd : Z) (m : Melt) :
  exists x y vx vy, mvCursor xd yd m = set_oy vy (set_ox vx (set_cursor x y m)).
Proof.
  unfold mvCursor. destruct (mvCursor_target xd yd m) as [nx ny].
  destruct (scrollToFit_frame (set_cursor (to_unsigned nx) (to_unsigned ny) m)) as (vx & vy & ->).
  by eexists _, _, _, _.
Qed.

Lemma cmd_delete_commands (m : Melt) :
  cmd (cmd_delete m) = cmd m /\ last_cmd (cmd_delete m) = last_cmd m.
Proof.
  unfold cmd_delete. destruct (cy m >? 0); [|done].
  destruct (mvCursor_frame 0 (-1) (rmLn (cy m) m)) as (x & y & vx & vy & ->).
  unfold rmLn. by destruct (cy m <? size (lines m)).
Qed.

Section Commands.

Variable char_signed : bool.
Variable can_write : line -> bool.

Lemma save_commands (fn : line) (m : Melt) :
  cmd (save can_write fn m).2 = cmd m /\ last_cmd (save can_write fn m).2 = last_cmd m.
Proof. unfold save. repeat case_match; done. Qed.

Lemma cmd_save_commands (m : Melt) :
  cmd (cmd_save can_write m) = cmd m /\ last_cmd (cmd_save can_write m) = last_cmd m.
Proof.
  unfold cmd_save. pose proof (save_commands (fname m) m) as Hs.
  destruct (save can_write (fname m) m) as [[ret|] m']; simpl in *; done.
Qed.

Lemma confirm_write_commands (fn : line) (m : Melt) :
  cmd (confirm_write char_signed can_write fn m) = cmd m
  /\ last_cmd (confirm_write char_signed can_write fn m) = last_cmd m.
Proof.
  unfold confirm_write. destruct fn as [|c fn]; [done|].
  case_match; [done|].
  pose proof (save_commands (c :: fn) m) as Hs.
  destruct (save can_write (c :: fn) m) as [[ret|] m']; simpl in *; done.
Qed.

Lemma prompt_loop_commands (ks : list Z) (fn : line) (m m' : Melt) :
  prompt_loop char_signed can_write ks fn m = Some m' ->
  cmd m' = cmd m /\ last_cmd m' = last_cmd m.
Proof.
  revert fn. induction ks as [|k ks IH]; intros fn; simpl; [done|].
  repeat case_match; try (by apply IH).
  - intros [= <-].
    by destruct (confirm_write_commands fn (set_pending ks m)) as [-> ->].
  - intros [= <-]. done.
Qed.

Lemma cmd_write_commands (m m' : Melt) :
  cmd_write char_signed can_write m = Some m' ->
  cmd m' = cmd m /\ last_cmd m' = last_cmd m.
Proof. unfold cmd_write. intros Hp. by apply prompt_loop_commands in Hp. Qed.

Lemma cmd_quit_commands (m : Melt) :
  cmd (cmd_quit m) = cmd m /\ last_cmd (cmd_quit m) = last_cmd m.
Proof. unfold cmd_quit. by case_match. Qed.

Lemma cmd_loop_cmd (replay : Melt -> option Melt) (c : line) (m m' : Melt) :
  (forall x y, replay x = Some y -> cmd y = cmd x) ->
  cmd_loop char_signed can_write replay c m = Some m' ->
  cmd m' = cmd m.
Proof.
  intros Hreplay. revert m. induction c as [|ch c IH]; intros m; simpl.
  { by intros [= <-]. }
  repeat (destruct (Ascii.eqb ch _)).
  - destruct (replay m) as [m1|] eqn:E; simpl; [|done].
    intros Hrun. rewrite (IH _ Hrun). by apply Hreplay.
  - intros Hrun. rewrite (IH _ Hrun). apply cmd_save_commands.
  - destruct (cmd_write char_signed can_write m) as [m1|] eqn:E; simpl; [|done].
    intros Hrun. rewrite (IH _ Hrun). by apply cmd_write_commands.
  - intros Hrun. rewrite (IH _ Hrun). apply cmd_quit_commands.
  - intros Hrun. by rewrite (IH _ Hrun).
  - intros Hrun. rewrite (IH _ Hrun). apply cmd_delete_commands.
  - by intros [= <-].
Qed.

Lemma processCmd_cmd (fuel : nat) (c : line) (m m' : Melt) :
  processCmd char_signed can_write fuel c m = Some m' -> cmd m' = cmd m.
Proof.
  revert c m m'. induction fuel as [|fuel IH]; intros c m m'; simpl; [done|].
  destruct c as [|ch c]; [by intros [= <-]|].
  apply cmd_loop_cmd. intros x y. apply IH.
Qed.

(** A loop that meets only known commands ends in [last_cmd = cmd]. *)
Lemma cmd_loop_known (replay : Melt -> option Melt) (c : line) (m m' : Melt) :
  Forall (fun ch => ch ∈ known_commands) c ->
  cmd_loop char_signed can_write replay c m = Some m' ->
  last_cmd m' = cmd m'.
Proof.
  intros Hknown. revert m. induction Hknown as [|ch c Hch _ IH]; intros m; simpl.
  { by intros [= <-]. }
  destruct (Ascii.eqb_spec ch "."%char).
  { destruct (replay m) as [m1|]; simpl; [apply IH | done]. }
  destruct (Ascii.eqb_spec ch "s"%char); [apply IH|].
  destruct (Ascii.eqb_spec ch "w"%char).
  { destruct (cmd_write char_signed can_write m) as [m1|]; simpl; [apply IH | done]. }
  destruct (Ascii.eqb_spec ch "q"%char); [apply IH|].
  destruct (Ascii.eqb_spec ch "Q"%char); [apply IH|].
  destruct (Ascii.eqb_spec ch "d"%char); [apply IH|].
  exfalso. apply list_elem_of_In in Hch. unfold known_commands in Hch. simpl in Hch.
  intuition congruence.
Qed.

(** A loop that meets an unknown command after plain ones, none of them
    [.], returns with [last_cmd] as it was. *)
Lemma cmd_loop_unknown (replay : Melt -> option Melt) (pre rest : line) (ch : ascii)
    (m m' : Melt) :
  Forall (fun k => k ∈ known_commands /\ k <> "."%char) pre ->
  ch ∉ known_commands ->
  cmd_loop char_signed can_write replay (pre ++ ch :: rest) m = Some m' ->
  last_cmd m' = last_cmd m.
Proof.
  intros Hpre Hch. revert m. induction Hpre as [|k pre [Hk Hdot] _ IH]; intros m; simpl.
  - assert (Hin : forall k, In k known_commands -> ch <> k).
    { intros k Hk ->. by apply Hch, list_elem_of_In. }
    unfold known_commands in Hin. simpl in Hin.
    destruct (Ascii.eqb_spec ch "."%char) as [He|_]; [by apply Hin in He; auto 10|].
    destruct (Ascii.eqb_spec ch "s"%char) as [He|_]; [by apply Hin in He; auto 10|].
    destruct (Ascii.eqb_spec ch "w"%char) as [He|_]; [by apply Hin in He; auto 10|].
    destruct (Ascii.eqb_spec ch "q"%char) as [He|_]; [by apply Hin in He; auto 10|].
    destruct (Ascii.eqb_spec ch "Q"%char) as [He|_]; [by apply Hin in He; auto 10|].
    destruct (Ascii.eqb_spec ch "d"%char) as [He|_]; [by apply Hin in He; auto 10|].
    by intros [= <-].
  - destruct (Ascii.eqb_spec k "."%char); [done|].
    destruct (Ascii.eqb_spec k "s"%char).
    { intros Hrun. rewrite (IH _ Hrun). apply cmd_save_commands. }
    destruct (Ascii.eqb_spec k "w"%char).
    { destruct (cmd_write char_signed can_write m) as [m1|] eqn:E; simpl; [|done].
      intros Hrun. rewrite (IH _ Hrun). by apply cmd_write_commands. }
    destruct (Ascii.eqb_spec k "q"%char).
    { intros Hrun. rewrite (IH _ Hrun). apply cmd_quit_commands. }
    destruct (Ascii.eqb_spec k "Q"%char).
    { intros Hrun. by rewrite (IH _ Hrun). }
    destruct (Ascii.eqb_spec k "d"%char).
    { intros Hrun. rewrite (IH _ Hrun). apply cmd_delete_commands. }
    exfalso. apply list_elem_of_In in Hk. unfold known_commands in Hk. simpl in Hk.
    intuition congruence.
Qed.

(** A loop over commands other than [.] and [w] returns: it neither
    recurses nor waits for a key. *)
Lemma cmd_loop_returns (replay : Melt -> option Melt) (c : line) (m : Melt) :
  Forall (fun ch => ch <> "."%char /\ ch <> "w"%char) c ->
  is_Some (cmd_loop char_signed can_write replay c m).
Proof.
  intros Hc. revert m. induction Hc as [|ch c [Hdot Hw] _ IH]; intros m; simpl.
  { by eexists. }
  destruct (Ascii.eqb_spec ch "."%char); [done|].
  destruct (Ascii.eqb ch "s"%char); [apply IH|].
  destruct (Ascii.eqb_spec ch "w"%char); [done|].
  destruct (Ascii.eqb ch "q"%char); [apply IH|].
  destruct (Ascii.eqb ch "Q"%char); [apply IH|].
  destruct (Ascii.eqb ch "d"%char); [apply IH|].
  by eexists.
Qed.

Lemma processCmd_returns (fuel : nat) (c : line) (m : Melt) :
  Forall (fun ch => ch <> "."%char /\ ch <> "w"%char) c ->
  is_Some (processCmd char_signed can_write (S fuel) c m).
Proof.
  intros Hc. simpl. destruct c as [|ch c]; [by eexists|].
  by apply cmd_loop_returns.
Qed.



End Commands.

(** C7, as amended: when the interpreter has finished a confirmed command
    string that is not empty and holds known commands only, that string is
    the command replayed by [.]; when it stops at an unknown command that
    follows plain commands (none of them [.]), it returns without storing
    the string, and the stored command is what it was; an empty string is
    not stored either: the interpreter returns at once and changes
    nothing. *)
Theorem processCmd_stores_command char_signed can_write (fuel : nat) (m m' : Melt) :
  processCmd char_signed can_write fuel (cmd m) m = Some m' ->
  (cmd m <> [] -> Forall (fun ch => ch ∈ known_commands) (cmd m) -> last_cmd m' = cmd m)
  /\ (forall pre ch rest,
        cmd m = pre ++ ch :: rest ->
        Forall (fun k => k ∈ known_commands /\ k <> "."%char) pre ->
        ch ∉ known_commands ->
        last_cmd m' = last_cmd m)
  /\ (cmd m = [] -> m' = m /\ last_cmd m' = last_cmd m).
Proof.
  intros Hrun. pose proof (processCmd_cmd _ _ _ _ _ _ Hrun) as Hcmd.
  destruct fuel as [|fuel]; [done|]. simpl in Hrun. split; [|split].
  - intros Hne Hknown. destruct (cmd m) as [|ch c] eqn:Ec; [done|].
    rewrite <- Hcmd. eapply cmd_loop_known; [exact Hknown | exact Hrun].
  - intros pre ch rest Ec Hpre Hch. rewrite Ec in Hrun.
    destruct (pre ++ ch :: rest) as [|k c] eqn:Ek; [by destruct pre|].
    rewrite <- Ek in Hrun. eapply cmd_loop_unknown; [exact Hpre | exact Hch | exact Hrun].
  - intros Hempty. rewrite Hempty in Hrun. by injection Hrun as <-.
Qed.

(** ** Filename validation *)

Lemma code_range (c : ascii) : 0 <= code c < 256.
Proof. unfold code. pose proof (nat_ascii_bounded c). lia. Qed.















(** ** The [d] command on the first row *)

(** On the first row the [d] command is refused, whatever the number of
    lines. *)
Lemma cmd_delete_refuses_on_first_row (m : Melt) :
  cy m = 0 -> cmd_delete m = set_smessage (str "Only one line left!") m.
Proof. unfold cmd_delete. by intros ->. Qed.

(** C4: the code at the failing input.  The command string ddd on a
    document of four lines with the cursor on the first row deletes no
    line: each [d] is refused with the message that only one line is
    left, although four are. *)
Theorem ddd_on_first_row_deletes_nothing :
  (fun m => (lines m, smessage m, last_cmd m))
    <$> processCmd true writable 1 (str "ddd") (command_editor four_lines 0 0 (str "ddd") [])
  = Some (four_lines, str "Only one line left!", str "ddd").
Proof. vm_compute. reflexivity. Qed.

(** With the cursor on the last row the same command string deletes
    three lines. *)
Lemma ddd_on_last_row_deletes_three :
  (fun m => (lines m, cy m))
    <$> processCmd true writable 1 (str "ddd") (command_editor four_lines 0 3 (str "ddd") [])
  = Some ([str "one"], 0).
Proof. vm_compute. reflexivity. Qed.

(** ** Counterexamples *)

(** The run of the resize scenario ends in the state that [mvCursor]
    leaves. *)
Lemma shrunk_editor_is_reached :
  match init true no_file unreadable None true true 26 80 typing_keys with
  | Running m =>
      run true writable 1 (repeat (26, 80) 62%nat ++ [(14, 40)]) m
      = Some (Running (mvCursor (-1) 0 shrunk_editor))
  | _ => False
  end.
Proof. vm_compute. reflexivity. Qed.

(** C3, counterexample: after the window is shrunk, the call
    [mvCursor(-1, 0)] of the left arrow leaves the cursor at column 49 of
    a viewport that shows columns 0 to 39. *)
Lemma mvCursor_leaves_cursor_outside_viewport :
  ~ cursor_in_viewport (mvCursor (-1) 0 shrunk_editor).
Proof.
  unfold cursor_in_viewport.
  assert (Hx : cx (mvCursor (-1) 0 shrunk_editor) = 49) by (vm_compute; reflexivity).
  assert (Ho : ox (mvCursor (-1) 0 shrunk_editor) = 0) by (vm_compute; reflexivity).
  assert (Ha : ax (mvCursor (-1) 0 shrunk_editor) = 40) by (vm_compute; reflexivity).
  rewrite Hx, Ho, Ha. lia.
Qed.

(** C7, counterexample: the confirmed command x is unknown; the
    interpreter returns and the command replayed by [.] is still d. *)
Lemma unknown_command_is_not_stored :
  ~ (forall m',
       processCmd true writable 1 (cmd (command_editor [[]] 0 0 (str "x") (str "d")))
         (command_editor [[]] 0 0 (str "x") (str "d")) = Some m' ->
       last_cmd m' = cmd (command_editor [[]] 0 0 (str "x") (str "d"))).
Proof.
  intros Hclaim.
  specialize (Hclaim (set_smessage (str "Unknown command: x")
                        (command_editor [[]] 0 0 (str "x") (str "d")))).
  specialize (Hclaim ltac:(vm_compute; reflexivity)).
  vm_compute in Hclaim. discriminate Hclaim.
Qed.

(** The empty command string is not stored either: with the stored
    command d, confirming an empty command leaves d in place. *)
Lemma empty_command_is_not_stored :
  processCmd true writable 1 (cmd (command_editor [[]] 0 0 [] (str "d")))
    (command_editor [[]] 0 0 [] (str "d"))
  = Some (command_editor [[]] 0 0 [] (str "d"))
  /\ last_cmd (command_editor [[]] 0 0 [] (str "d")) = str "d"
  /\ cmd (command_editor [[]] 0 0 [] (str "d")) = [].
Proof. repeat split; vm_compute; reflexivity. Qed.


(** C8, counterexample: on the single line abc with the cursor at column
    3, [mvCursor(1, 0)] resolves column 4, past the end of the last row,
    and stores column 0: neither the column as it is nor the end of the
    line. *)
Lemma mvCursor_last_row_goes_to_column_0 :
  mvCursor_row 0 (editor_with [str "abc"] 3 0) = size (lines (editor_with [str "abc"] 3 0)) - 1
  /\ mvCursor_col 1 0 (editor_with [str "abc"] 3 0) = 4
  /\ len (line_at (lines (editor_with [str "abc"] 3 0)) 0) = 3
  /\ cx (mvCursor 1 0 (editor_with [str "abc"] 3 0)) = 0
  /\ ~ (cx (mvCursor 1 0 (editor_with [str "abc"] 3 0)) = 4
        \/ cx (mvCursor 1 0 (editor_with [str "abc"] 3 0)) = 3).
Proof.
  assert (Hx : cx (mvCursor 1 0 (editor_with [str "abc"] 3 0)) = 0) by (vm_compute; reflexivity).
  repeat split; try (vm_compute; reflexivity).
  rewrite Hx. lia.
Qed.

(** ** Instances *)

Lemma document_never_empty_witness :
  1 <= size (lines (editor_with [[]] 0 0))
  /\ lines (cmd_delete (editor_with [[]] 0 0)) = lines (editor_with [[]] 0 0)
  /\ cmd_delete (editor_with [[]] 0 0)
     = set_smessage (str "Only one line left!") (editor_with [[]] 0 0).
Proof.
  assert (Hreach : reachable true no_file unreadable writable (editor_with [[]] 0 0)).
  { apply (reach_init true no_file unreadable writable None true true 26 80 []).
    vm_compute. reflexivity. }
  destruct (document_never_empty true no_file unreadable writable _ Hreach) as [Hsize Hdel].
  destruct (Hdel ltac:(vm_compute; reflexivity)) as [Hlines Hrefuse].
  split; [exact Hsize|]. split; [exact Hlines|].
  apply Hrefuse. vm_compute. reflexivity.
Defined.

Lemma mvCursor_cursor_in_bounds_witness :
  0 <= cy (mvCursor 0 1 (editor_with [str "abc"; str "de"] 3 0))
    < size (lines (mvCursor 0 1 (editor_with [str "abc"; str "de"] 3 0)))
  /\ 0 <= cx (mvCursor 0 1 (editor_with [str "abc"; str "de"] 3 0))
       <= len (line_at (lines (mvCursor 0 1 (editor_with [str "abc"; str "de"] 3 0)))
                 (cy (mvCursor 0 1 (editor_with [str "abc"; str "de"] 3 0)))).
Proof.
  apply (mvCursor_cursor_in_bounds (editor_with [str "abc"; str "de"] 3 0) 0 1).
  - vm_compute. discriminate.
  - split; [vm_compute; discriminate|].
    repeat constructor; vm_compute; discriminate.
Defined.

Lemma mvCursor_viewport_witness :
  (oy (mvCursor 1 0 (editor_with [repeat "x"%char 100] 79 0))
     <= cy (mvCursor 1 0 (editor_with [repeat "x"%char 100] 79 0))
     < oy (mvCursor 1 0 (editor_with [repeat "x"%char 100] 79 0))
       + ay (mvCursor 1 0 (editor_with [repeat "x"%char 100] 79 0)))
  /\ ox (mvCursor 1 0 (editor_with [repeat "x"%char 100] 79 0))
     <= cx (mvCursor 1 0 (editor_with [repeat "x"%char 100] 79 0))
  /\ cx (mvCursor 1 0 (editor_with [repeat "x"%char 100] 79 0))
     < ox (mvCursor 1 0 (editor_with [repeat "x"%char 100] 79 0))
       + ax (mvCursor 1 0 (editor_with [repeat "x"%char 100] 79 0)).
Proof.
  destruct (mvCursor_viewport (editor_with [repeat "x"%char 100] 79 0) 1 0)
    as (Hv & Hl & Hr).
  - vm_compute. discriminate.
  - vm_compute. discriminate.
  - apply Forall_cons_2; [vm_compute; discriminate | apply Forall_nil_2].
  - vm_compute. discriminate.
  - vm_compute. discriminate.
  - vm_compute. discriminate.
  - vm_compute. discriminate.
  - vm_compute. discriminate.
  - vm_compute. discriminate.
  - split; [exact Hv|]. split; [exact Hl|]. apply Hr. right.
    split; [vm_compute; discriminate | vm_compute; reflexivity].
Defined.

Lemma spLn_jnLn_roundtrip_witness :
  lines (jnLn 0 (spLn 5 0 (editor_with [str "hello world"] 0 0)))
    = lines (editor_with [str "hello world"] 0 0)
  /\ line_at (lines (jnLn 0 (spLn 5 0 (editor_with [str "hello world"] 0 0)))) 0
     = line_at (lines (editor_with [str "hello world"] 0 0)) 0.
Proof.
  apply (spLn_jnLn_roundtrip (editor_with [str "hello world"] 0 0) 5 0).
  - vm_compute. discriminate.
  - split; [vm_compute; discriminate | vm_compute; reflexivity].
  - split; vm_compute; discriminate.
Defined.

Lemma insCh_rmCh_roundtrip_witness :
  line_at (lines (rmCh 2 0 (insCh 2 0 "x"%char (editor_with [str "abc"] 0 0)))) 0
    = line_at (lines (editor_with [str "abc"] 0 0)) 0
  /\ lines (rmCh 2 0 (insCh 2 0 "x"%char (editor_with [str "abc"] 0 0)))
     = lines (editor_with [str "abc"] 0 0).
Proof.
  apply (insCh_rmCh_roundtrip (editor_with [str "abc"] 0 0) 2 0 "x"%char).
  - split; [vm_compute; discriminate | vm_compute; reflexivity].
  - split; vm_compute; discriminate.
Defined.

Lemma visualLength_expandTabs_witness :
  visualLength (str "a" ++ [TAB] ++ str "bc" ++ [TAB]) 
  = len (expandTabs (str "a" ++ [TAB] ++ str "bc" ++ [TAB])).
Proof.
  apply (visualLength_expandTabs (str "a" ++ [TAB] ++ str "bc" ++ [TAB])).
  vm_compute. discriminate.
Defined.

Lemma mvCursor_past_end_of_row_witness :
  (cx (mvCursor 1 0 (editor_with [str "abc"; str "de"] 3 0)) = 0
   /\ cy (mvCursor 1 0 (editor_with [str "abc"; str "de"] 3 0))
      = mvCursor_row 0 (editor_with [str "abc"; str "de"] 3 0) + 1)
  /\ (cx (mvCursor 1 0 (editor_with [str "abc"] 3 0)) = 0
      /\ cy (mvCursor 1 0 (editor_with [str "abc"] 3 0))
         = mvCursor_row 0 (editor_with [str "abc"] 3 0)).
Proof.
  split.
  - refine (proj1 (mvCursor_past_end_of_row (editor_with [str "abc"; str "de"] 3 0) 1 0
                     _ _ _) _).
    + vm_compute. discriminate.
    + split; [vm_compute; discriminate|]. repeat constructor; vm_compute; discriminate.
    + vm_compute. reflexivity.
    + vm_compute. reflexivity.
  - refine (proj2 (mvCursor_past_end_of_row (editor_with [str "abc"] 3 0) 1 0 _ _ _) _).
    + vm_compute. discriminate.
    + split; [vm_compute; discriminate|]. repeat constructor; vm_compute; discriminate.
    + vm_compute. reflexivity.
    + vm_compute. reflexivity.
Defined.

Lemma processCmd_stores_command_witness :
  last_cmd (set_last_cmd (str "dq")
              (cmd_quit (cmd_delete (command_editor four_lines 0 3 (str "dq") []))))
    = cmd (command_editor four_lines 0 3 (str "dq") [])
  /\ last_cmd (set_smessage (str "Unknown command: x")
                 (cmd_delete (command_editor four_lines 0 3 (str "dx") (str "q"))))
     = last_cmd (command_editor four_lines 0 3 (str "dx") (str "q"))
  /\ last_cmd (command_editor four_lines 0 3 [] (str "d")) = str "d".
Proof.
  split; [|split].
  - refine (proj1 (processCmd_stores_command true writable 1
                     (command_editor four_lines 0 3 (str "dq") []) _ _) _ _).
    + vm_compute. reflexivity.
    + vm_compute. discriminate.
    + change (Forall (fun ch => ch ∈ known_commands) ["d"; "q"]%char).
      repeat (apply Forall_cons_2; [apply list_elem_of_In; vm_compute; auto 10|]).
      apply Forall_nil_2.
  - refine (proj1 (proj2 (processCmd_stores_command true writable 1
                            (command_editor four_lines 0 3 (str "dx") (str "q")) _ _))
              (str "d") "x"%char [] _ _ _).
    + vm_compute. reflexivity.
    + vm_compute. reflexivity.
    + apply Forall_cons_2; [|apply Forall_nil_2].
      split; [apply list_elem_of_In; vm_compute; auto 10 | discriminate].
    + intros Hin. apply list_elem_of_In in Hin. vm_compute in Hin.
      repeat (destruct Hin as [Hin|Hin]; [discriminate Hin|]). exact Hin.
  - refine (proj2 (proj2 (proj2 (processCmd_stores_command true writable 1
                                   (command_editor four_lines 0 3 [] (str "d"))
                                   (command_editor four_lines 0 3 [] (str "d")) _)) _)).
    + vm_compute. reflexivity.
    + vm_compute. reflexivity.
Defined.

(** * Further properties *)

(** * Further properties of the text buffer *)

Lemma size_insert (ls : list line) (i : nat) (l : line) : size (<[i := l]> ls) = size ls.
Proof. unfold size. by rewrite length_insert. Qed.

Lemma line_at_lookup (ls : list line) (y : Z) (l : line) :
  ls !! Z.to_nat y = Some l -> line_at ls y = l.
Proof. unfold line_at. by intros ->. Qed.

(** X1: a line inserted at a row within the document, or right after its
    last line, is the line read back at that row, the document is one line
    longer, and removing the row again gives back the document. *)
Theorem insLn_rmLn_roundtrip (m : Melt) (y : Z) (l : line) :
  0 <= y <= size (lines m) ->
  line_at (lines (insLn y l m)) y = l
  /\ size (lines (insLn y l m)) = size (lines m) + 1
  /\ lines (rmLn y (insLn y l m)) = lines m.
Proof.
  intros Hy. unfold insLn.
  replace (y <=? size (lines m)) with true by (symmetry; apply Z.leb_le; lia).
  unfold vec_insert. cbn [lines set_lines].
  assert (Hlen : length (take (Z.to_nat y) (lines m)) = Z.to_nat y).
  { rewrite length_take. unfold size in Hy. lia. }
  split; [|split].
  - apply line_at_lookup. rewrite <- Hlen at 1. by rewrite list_lookup_middle.
  - unfold size. rewrite length_app. simpl. rewrite length_take, length_drop.
    unfold size in Hy. lia.
  - unfold rmLn. cbn [lines set_lines].
    replace (y <? _) with true.
    2:{ symmetry. apply Z.ltb_lt. unfold size in *. rewrite length_app. simpl.
        rewrite length_take, length_drop. lia. }
    cbn [lines set_lines]. unfold vec_erase. rewrite <- Hlen at 1.
    rewrite delete_middle. apply take_drop.
Qed.

(** X2: removing the character at a position of a line and inserting the
    same character at that position gives back the document. *)
Theorem rmCh_insCh_roundtrip (m : Melt) (x y : Z) (c : ascii) :
  0 <= y < size (lines m) ->
  0 <= x ->
  line_at (lines m) y !! Z.to_nat x = Some c ->
  lines (insCh x y c (rmCh x y m)) = lines m.
Proof.
  intros Hy Hx Hc.
  destruct (split_at (lines m) y Hy) as (pre & l & post & Hls & Hpre).
  assert (Hl : line_at (lines m) y = l) by (rewrite Hls, <- Hpre; apply line_at_middle).
  rewrite Hl in Hc. pose proof (lookup_lt_Some _ _ _ Hc) as Hlt.
  unfold rmCh. rewrite Hl.
  replace (y <? size (lines m)) with true by (symmetry; apply Z.ltb_lt; lia).
  replace (x <? len l) with true by (symmetry; apply Z.ltb_lt; unfold len; lia).
  cbn [andb]. unfold insCh. cbn [lines set_lines].
  rewrite size_insert.
  replace (y <? size (lines m)) with true by (symmetry; apply Z.ltb_lt; lia).
  assert (Hupd : forall v, <[Z.to_nat y := v]> (lines m) = pre ++ v :: post).
  { intros v. rewrite Hls, <- Hpre, Nat2Z.id. apply lines_insert_middle. }
  rewrite !Hupd.
  assert (Hat : forall v, line_at (pre ++ v :: post) y = v).
  { intros v. rewrite <- Hpre. apply line_at_middle. }
  rewrite !Hat.
  replace (x <=? len (str_erase1 x l)) with true.
  2:{ symmetry. apply Z.leb_le. unfold len, str_erase1.
      rewrite length_app, length_take, length_drop. lia. }
  cbn [andb lines set_lines].
  rewrite <- Hpre, Nat2Z.id, lines_insert_middle, Hls. do 2 f_equal.
  unfold str_insert, str_erase1.
  rewrite take_app_le by (rewrite length_take; lia).
  rewrite take_take, Nat.min_id.
  rewrite drop_app_ge by (rewrite length_take; lia).
  rewrite length_take. replace (Z.to_nat x - Z.to_nat x `min` length l)%nat with 0%nat by lia.
  rewrite drop_0. rewrite <- (take_drop_middle l (Z.to_nat x) c Hc) at 3. done.
Qed.

(** X3: joining a line with the one below it and splitting the result
    where the first line ended gives back the document. *)
Theorem jnLn_spLn_roundtrip (m : Melt) (y : Z) :
  size (lines m) <= INT_MAX ->
  0 <= y < size (lines m) - 1 ->
  lines (spLn (len (line_at (lines m) y)) y (jnLn y m)) = lines m.
Proof.
  intros Hfit Hy.
  destruct (split_at (lines m) y ltac:(lia)) as (pre & l & post0 & Hls & Hpre).
  destruct post0 as [|l2 post].
  { exfalso. unfold size in Hy. rewrite Hls, length_app in Hy. simpl in Hy. lia. }
  assert (Hl : line_at (lines m) y = l) by (rewrite Hls, <- Hpre; apply line_at_middle).
  assert (Hl2 : line_at (lines m) (y + 1) = l2).
  { rewrite Hls. replace (pre ++ l :: l2 :: post) with ((pre ++ [l]) ++ l2 :: post)
      by (by rewrite <- app_assoc).
    replace (y + 1) with (Z.of_nat (length (pre ++ [l]))) by (rewrite length_app; simpl; lia).
    apply line_at_middle. }
  assert (Hy1 : to_unsigned (y + 1) = y + 1)
    by (apply to_unsigned_small; unfold INT_MAX in Hfit; lia).
  assert (Hjn : lines (jnLn y m) = pre ++ (l ++ l2) :: post).
  { unfold jnLn.
    rewrite to_size_t_small by (unfold INT_MAX in Hfit; lia).
    replace (y <? size (lines m) - 1) with true by (symmetry; apply Z.ltb_lt; lia).
    rewrite Hy1, Hl, Hl2. unfold rmLn. cbn [lines set_lines]. rewrite size_insert.
    replace (y + 1 <? size (lines m)) with true by (symmetry; apply Z.ltb_lt; lia).
    cbn [lines set_lines]. unfold vec_erase.
    replace (<[Z.to_nat y := l ++ l2]> (lines m)) with (pre ++ (l ++ l2) :: l2 :: post)
      by (rewrite Hls, <- Hpre, Nat2Z.id; symmetry; apply lines_insert_middle).
    replace (pre ++ (l ++ l2) :: l2 :: post) with ((pre ++ [l ++ l2]) ++ l2 :: post)
      by (by rewrite <- app_assoc).
    replace (Z.to_nat (y + 1)) with (length (pre ++ [l ++ l2]))
      by (rewrite length_app; simpl; lia).
    rewrite delete_middle. by rewrite <- app_assoc. }
  rewrite Hl. unfold spLn. rewrite Hjn.
  assert (Hat : line_at (pre ++ (l ++ l2) :: post) y = l ++ l2)
    by (rewrite <- Hpre; apply line_at_middle).
  rewrite Hat.
  replace (y <? size (pre ++ (l ++ l2) :: post)) with true
    by (symmetry; apply Z.ltb_lt; unfold size; rewrite length_app; simpl; lia).
  replace (len l <=? len (l ++ l2)) with true
    by (symmetry; apply Z.leb_le; unfold len; rewrite length_app; lia).
  cbn [andb]. unfold insLn. cbn [lines set_lines]. rewrite size_insert, Hy1.
  replace (y + 1 <=? size (pre ++ (l ++ l2) :: post)) with true
    by (symmetry; apply Z.leb_le; unfold size; rewrite length_app; simpl; lia).
  cbn [lines set_lines].
  replace (<[Z.to_nat y := str_erase (len l) (l ++ l2)]> (pre ++ (l ++ l2) :: post))
    with (pre ++ str_erase (len l) (l ++ l2) :: post)
    by (rewrite <- Hpre, Nat2Z.id; symmetry; apply lines_insert_middle).
  unfold vec_insert, str_erase, str_substr, len. rewrite Nat2Z.id.
  rewrite take_app_length, drop_app_length.
  replace (pre ++ l :: post) with ((pre ++ [l]) ++ post) by (by rewrite <- app_assoc).
  replace (Z.to_nat (y + 1)) with (length (pre ++ [l])) by (rewrite length_app; simpl; lia).
  rewrite take_app_length, drop_app_length, Hls. by rewrite <- app_assoc.
Qed.


(** * Files *)

Lemma getlines_line (l rest cur : line) :
  LF ∉ l -> getlines (l ++ LF :: rest) cur = (cur ++ l) :: getlines rest [].
Proof.
  revert cur. induction l as [|c l IH]; intros cur Hl; simpl.
  - rewrite ?Ascii.eqb_refl. by rewrite app_nil_r.
  - destruct (Ascii.eqb_spec c LF) as [->|Hc].
    + exfalso. apply Hl. by left.
    + rewrite IH by (intros Hin; apply Hl; by right). by rewrite <- app_assoc.
Qed.

Lemma getlines_file_image (ls : list line) :
  Forall (fun l => LF ∉ l) ls -> getlines (file_image ls) [] = ls.
Proof.
  unfold file_image. induction 1 as [|l ls Hl _ IH]; simpl; [done|].
  rewrite <- app_assoc. simpl. rewrite getlines_line by done. by rewrite IH.
Qed.

Lemma getlines_no_newline (bytes : list ascii) (cur : line) :
  LF ∉ cur -> Forall (fun l => LF ∉ l) (getlines bytes cur).
Proof.
  revert cur. induction bytes as [|c bytes IH]; intros cur Hcur; simpl.
  - destruct cur; [constructor | by repeat constructor].
  - destruct (Ascii.eqb_spec c LF) as [->|Hc].
    + constructor; [done|]. apply IH. apply not_elem_of_nil.
    + apply IH. rewrite elem_of_app, list_elem_of_singleton. intros [?|?]; [done | congruence].
Qed.

Section Files.

Variable fs_read : line -> read_result.
Variable can_write : line -> bool.

(** X5: a successful [save] writes the lines, each followed by a newline,
    and leaves the document as it is; loading a file with that content
    gives the same lines again, provided no line holds a newline
    character. *)
Theorem save_load_roundtrip (fn : line) (m m1 : Melt) :
  lines m <> [] ->
  Forall (fun l => LF ∉ l) (lines m) ->
  save can_write fn m = (None, m1) ->
  written m1 = (fn, file_image (lines m)) :: written m
  /\ lines m1 = lines m
  /\ forall m2 : Melt,
       fs_read fn = Contents (file_image (lines m)) ->
       load fs_read fn m2 = (None, set_lines (lines m) m2).
Proof.
  intros Hne Hnl. unfold save. destruct fn as [|c fn]; [done|].
  destruct (can_write (c :: fn)); [|done]. intros [= <-].
  split; [done|]. split; [done|]. intros m2 Hread.
  unfold load. rewrite Hread, getlines_file_image by done.
  by destruct (lines m).
Qed.

(** [load] never leaves the editor without a line.  When it succeeds
    the document is not empty and no line holds a newline character; when
    it fails, either nothing has changed (the name is empty or the file
    cannot be opened) or the document is one empty line (the read
    failed). *)
Lemma load_document (fn : line) (m m' : Melt) (err : option line) :
  load fs_read fn m = (err, m') ->
  (err = None -> lines m' <> [] /\ Forall (fun l => LF ∉ l) (lines m'))
  /\ (err <> None -> m' = m \/ lines m' = [[]]).
Proof.
  unfold load. destruct fn as [|c fn].
  { intros [= <- <-]. split; [done | by left]. }
  destruct (fs_read (c :: fn)) as [| |bytes] eqn:E.
  - intros [= <- <-]. split; [done | by left].
  - intros [= <- <-]. split; [done | by right].
  - intros [= <- <-]. split; [|done]. intros _.
    pose proof (getlines_no_newline bytes [] (not_elem_of_nil _)) as Hnl.
    destruct (getlines bytes []) as [|l ls]; cbn [lines set_lines].
    + split; [done|]. repeat constructor. apply not_elem_of_nil.
    + done.
Qed.

End Files.

Lemma file_image_getlines (bytes : list ascii) (cur : line) :
  LF ∉ cur ->
  file_image (getlines bytes cur) =
    match cur ++ bytes with
    | [] => []
    | _ :: _ => if bool_decide (last (cur ++ bytes) = Some LF)
                then cur ++ bytes else (cur ++ bytes) ++ [LF]
    end.
Proof.
  revert cur. induction bytes as [|c bytes IH]; intros cur Hcur.
  - simpl. rewrite app_nil_r. destruct cur as [|a cur]; [done|].
    unfold file_image. simpl. rewrite app_nil_r.
    rewrite bool_decide_eq_false_2; [done|].
    intros Hlast. apply Hcur. apply last_Some_elem_of in Hlast. done.
  - simpl getlines. destruct (Ascii.eqb_spec c LF) as [->|Hc].
    + specialize (IH [] (not_elem_of_nil _)). rewrite app_nil_l in IH.
      change (file_image (cur :: getlines bytes []))
        with ((cur ++ [LF]) ++ file_image (getlines bytes [])).
      rewrite IH.
      assert (Hnn : exists a t, cur ++ LF :: bytes = a :: t).
      { destruct cur; simpl; eauto. }
      destruct Hnn as (a & t & Hat). rewrite Hat, <- Hat. clear a t Hat.
      rewrite last_app_cons.
      destruct bytes as [|b bytes].
      * rewrite bool_decide_eq_true_2 by done. by rewrite app_nil_r.
      * rewrite last_cons_cons. destruct (bool_decide (last (b :: bytes) = Some LF)).
        -- by rewrite <- ?app_assoc.
        -- by rewrite <- ?app_assoc.
    + rewrite IH.
      2:{ rewrite elem_of_app, list_elem_of_singleton. intros [?|?]; [done | congruence]. }
      rewrite <- app_assoc. simpl. done.
Qed.

(** X7: loading a file and writing it back gives the bytes of the file
    with a final newline added when it is missing; an empty file becomes
    one newline.  The document loaded is never without a line, and none
    of its lines holds a newline character. *)
Theorem load_save_normalises fs_read can_write (fn : line) (bytes : list ascii)
    (m m1 m2 : Melt) :
  fs_read fn = Contents bytes ->
  can_write fn = true ->
  load fs_read fn m = (None, m1) ->
  save can_write fn m1 = (None, m2) ->
  written m2 = (fn, with_final_newline bytes) :: written m
  /\ lines m1 <> [] /\ Forall (fun l => LF ∉ l) (lines m1).
Proof.
  intros Hread Hwrite Hload.
  destruct (load_document fs_read fn m m1 None Hload) as [Hdoc _].
  specialize (Hdoc eq_refl). intros Hsave. split; [|exact Hdoc].
  revert Hload Hsave.
  unfold load, save. destruct fn as [|c fn]; [done|].
  rewrite Hread, Hwrite. intros [= <-] [= <-]. cbn [written set_written lines set_lines].
  do 2 f_equal. unfold with_final_newline.
  pose proof (file_image_getlines bytes [] (not_elem_of_nil _)) as Himg. simpl in Himg.
  destruct (getlines bytes []) as [|l ls] eqn:Eg.
  - destruct bytes as [|b bytes]; [done|].
    exfalso. unfold file_image in Himg. simpl in Himg.
    destruct (bool_decide _); [done|]. by destruct bytes.
  - rewrite Himg. destruct bytes as [|b bytes]; [|done].
    simpl in Eg. done.
Qed.

(** * Escaping and tab expansion *)

Lemma escPercent_loop_app (s ret : line) :
  escPercent_loop s ret = ret ++ escPercent s.
Proof.
  unfold escPercent. revert ret. induction s as [|c s IH]; intros ret; simpl.
  - by rewrite app_nil_r.
  - destruct (Ascii.eqb c PERCENT).
    + rewrite (IH (ret ++ _)), (IH [PERCENT; PERCENT]). by rewrite <- app_assoc.
    + rewrite (IH (ret ++ _)), (IH [c]). by rewrite <- app_assoc.
Qed.

Lemma escPercent_cons (c : ascii) (s : line) :
  escPercent (c :: s) =
    (if Ascii.eqb c PERCENT then [PERCENT; PERCENT] else [c]) ++ escPercent s.
Proof.
  unfold escPercent at 1. simpl.
  destruct (Ascii.eqb c PERCENT); by rewrite escPercent_loop_app.
Qed.

Lemma escPercent_app_len (a b : line) :
  escPercent (a ++ b) = escPercent a ++ escPercent b
  /\ len (escPercent a) = len a + len (filter (fun c => c = PERCENT) a)
  /\ filter (fun c => c <> PERCENT) (escPercent a) = filter (fun c => c <> PERCENT) a.
Proof.
  split; [|split].
  - induction a as [|c a IH]; [done|].
    rewrite <- app_comm_cons, !escPercent_cons, IH. by rewrite <- app_assoc.
  - induction a as [|c a IH]; [done|].
    rewrite escPercent_cons, len_app, IH, filter_cons.
    destruct (Ascii.eqb_spec c PERCENT) as [->|Hc].
    + rewrite decide_True by done. unfold len. simpl. lia.
    + rewrite decide_False by done. unfold len. simpl. lia.
  - induction a as [|c a IH]; [done|].
    rewrite escPercent_cons, filter_app, IH, (filter_cons _ c a).
    destruct (Ascii.eqb_spec c PERCENT) as [->|Hc].
    + rewrite decide_False by (intros H; by apply H).
      rewrite !filter_cons, decide_False by (intros H; by apply H). done.
    + rewrite decide_True by done.
      rewrite filter_cons, decide_True by done. done.
Qed.

Lemma escPercent_inj (s t : line) :
  escPercent s = escPercent t -> s = t.
Proof.
  revert t. induction s as [|c s IH]; intros t.
  - destruct t as [|d t]; [done|]. rewrite escPercent_cons.
    by destruct (Ascii.eqb d PERCENT).
  - destruct t as [|d t].
    { rewrite escPercent_cons. by destruct (Ascii.eqb c PERCENT). }
    rewrite !escPercent_cons.
    destruct (Ascii.eqb_spec c PERCENT) as [->|Hc];
      destruct (Ascii.eqb_spec d PERCENT) as [->|Hd]; simpl.
    + intros [= H]. f_equal. by apply IH.
    + intros [= <- H]. done.
    + intros [= -> H]. done.
    + intros [= -> H]. f_equal. by apply IH.
Qed.
(** X8: [escPercent] doubles every percent sign and leaves the other
    characters alone: it distributes over concatenation, the result is
    longer by the number of percent signs, the characters other than the
    percent sign are those of the argument in their order, and two
    strings with the same result are equal. *)
Theorem escPercent_doubles_percents (a b : line) :
  escPercent (a ++ b) = escPercent a ++ escPercent b
  /\ len (escPercent a) = len a + len (filter (fun c => c = PERCENT) a)
  /\ filter (fun c => c <> PERCENT) (escPercent a) = filter (fun c => c <> PERCENT) a
  /\ (escPercent a = escPercent b -> a = b).
Proof.
  destruct (escPercent_app_len a b) as (Happ & Hlen & Hfil).
  split; [exact Happ|]. split; [exact Hlen|]. split; [exact Hfil|].
  apply escPercent_inj.
Qed.


Lemma expandTabs_loop_app (s ret : line) (col : Z) :
  expandTabs_loop s ret col = ret ++ expandTabs_loop s [] col.
Proof.
  revert ret col. induction s as [|c s IH]; intros ret col; simpl.
  - by rewrite app_nil_r.
  - destruct (Ascii.eqb c TAB).
    + rewrite (IH (ret ++ _)), (IH (repeat _ _)). by rewrite <- app_assoc.
    + rewrite (IH (ret ++ _)), (IH [c]). by rewrite <- app_assoc.
Qed.

Lemma expandTabs_loop_no_tab (s : line) (col : Z) :
  TAB ∉ expandTabs_loop s [] col.
Proof.
  revert col. induction s as [|c s IH]; intros col; simpl.
  - apply not_elem_of_nil.
  - destruct (Ascii.eqb_spec c TAB) as [->|Hc]; rewrite expandTabs_loop_app, elem_of_app.
    + intros [Hin|Hin]; [|by eapply IH].
      apply list_elem_of_In, repeat_spec in Hin. discriminate Hin.
    + rewrite list_elem_of_singleton. intros [?|Hin]; [congruence | by eapply IH].
Qed.

Lemma expandTabs_loop_plain (s : line) (col : Z) :
  TAB ∉ s -> expandTabs_loop s [] col = s.
Proof.
  revert col. induction s as [|c s IH]; intros col Hs; simpl; [done|].
  destruct (Ascii.eqb_spec c TAB) as [->|Hc].
  - exfalso. apply Hs. by left.
  - rewrite expandTabs_loop_app, IH; [done|]. intros Hin. apply Hs. by right.
Qed.

(** X9: the result of [expandTabs] holds no tab, and a string without tabs
    is returned as it is. *)
Theorem expandTabs_removes_tabs (s : line) :
  (TAB ∉ expandTabs s) /\ (TAB ∉ s -> expandTabs s = s).
Proof.
  split; [apply expandTabs_loop_no_tab | apply expandTabs_loop_plain].
Qed.

Lemma visualLength_loop_app (s t : line) (n : Z) :
  visualLength_loop (s ++ t) n = visualLength_loop t (visualLength_loop s n).
Proof.
  revert n. induction s as [|c s IH]; intros n; simpl; [done|].
  destruct (Ascii.eqb c TAB); apply IH.
Qed.

Lemma len_cons (c : ascii) (s : line) : len (c :: s) = 1 + len s.
Proof. unfold len. simpl length. lia. Qed.

(** Within the range of [int] the two loops advance together, from any
    column. *)
Lemma tab_loops_agree_from (s : line) (col : Z) :
  0 <= col ->
  col + tab_width * len s <= INT_MAX ->
  visualLength_loop s col = col + len (expandTabs_loop s [] col).
Proof.
  unfold tab_width. revert col. induction s as [|c s IH]; intros col Hcol Hfit; simpl.
  { unfold len. simpl. lia. }
  rewrite len_cons in Hfit. pose proof (len_nonneg s) as Hs0. unfold INT_MAX in Hfit.
  destruct (Ascii.eqb c TAB); rewrite expandTabs_loop_app, len_app.
  - unfold tab_width.
    assert (Hrem : Z.rem col 4 = col mod 4) by (apply Z.rem_mod_nonneg; lia).
    pose proof (Z.mod_pos_bound col 4 ltac:(lia)) as Hmod.
    rewrite Hrem.
    rewrite (to_size_t_small (4 - col mod 4)) by lia.
    rewrite to_size_t_small by lia.
    rewrite to_int_small by (unfold INT_MAX; lia).
    rewrite IH by (unfold INT_MAX; lia).
    unfold len at 2. rewrite repeat_length. lia.
  - rewrite to_size_t_small by lia.
    rewrite to_int_small by (unfold INT_MAX; lia).
    rewrite IH by (unfold INT_MAX; lia).
    unfold len at 2. simpl. lia.
Qed.

Lemma expandTabs_app (s t : line) :
  tab_width * len s <= INT_MAX ->
  expandTabs (s ++ t) = expandTabs s ++ expandTabs_loop t [] (visualLength s).
Proof.
  unfold expandTabs, visualLength, tab_width.
  assert (Hgen : forall col, 0 <= col -> col + 4 * len s <= INT_MAX ->
            expandTabs_loop (s ++ t) [] col =
            expandTabs_loop s [] col ++ expandTabs_loop t [] (visualLength_loop s col)).
  { induction s as [|c s IH]; intros col Hcol Hfit; simpl; [done|].
    rewrite len_cons in Hfit. pose proof (len_nonneg s) as Hs0. unfold INT_MAX in Hfit.
    destruct (Ascii.eqb c TAB);
      rewrite (expandTabs_loop_app (s ++ t)), (expandTabs_loop_app s).
    - unfold tab_width.
      assert (Hrem : Z.rem col 4 = col mod 4) by (apply Z.rem_mod_nonneg; lia).
      pose proof (Z.mod_pos_bound col 4 ltac:(lia)) as Hmod.
      rewrite Hrem.
      rewrite (to_size_t_small (4 - col mod 4)) by lia.
      rewrite to_size_t_small by lia.
      rewrite to_int_small by (unfold INT_MAX; lia).
      rewrite IH by (unfold INT_MAX; lia). by rewrite <- app_assoc.
    - rewrite to_size_t_small by lia.
      rewrite to_int_small by (unfold INT_MAX; lia).
      rewrite IH by (unfold INT_MAX; lia). by rewrite <- app_assoc. }
  intros Hfit. apply Hgen; lia.
Qed.

Lemma cursor_cell_shows_character (l : line) (x : Z) (c : ascii) :
  tab_width * len l <= INT_MAX ->
  0 <= x ->
  l !! Z.to_nat x = Some c ->
  0 <= visualLength (str_substr_n 0 x l) <= visualLength l
  /\ expandTabs l !! Z.to_nat (visualLength (str_substr_n 0 x l))
     = Some (if Ascii.eqb c TAB then SPACE else c).
Proof.
  intros Hfit Hx Hc. unfold tab_width in Hfit.
  pose proof (lookup_lt_Some _ _ _ Hc) as Hlt.
  assert (Hsub : str_substr_n 0 x l = take (Z.to_nat x) l).
  { unfold str_substr_n. rewrite drop_0. f_equal. unfold len. lia. }
  rewrite Hsub.
  pose proof (take_drop_middle l (Z.to_nat x) c Hc) as Hsplit.
  set (pre := take (Z.to_nat x) l) in *.
  assert (Hprelen : len pre = x) by (unfold len, pre; rewrite length_take; lia).
  assert (Hlen : len l = len pre + 1 + len (drop (S (Z.to_nat x)) l)).
  { rewrite <- Hsplit at 1. rewrite len_app, len_cons. lia. }
  pose proof (len_nonneg (drop (S (Z.to_nat x)) l)) as Hpost.
  assert (Hprefit : tab_width * len pre <= INT_MAX) by (unfold tab_width; lia).
  pose proof (visualLength_bounds pre Hprefit) as Hvpre. unfold tab_width in Hvpre.
  pose proof (tab_loops_agree_from pre 0 ltac:(lia) ltac:(unfold tab_width; lia)) as Hpre.
  fold (visualLength pre) in Hpre. fold (expandTabs pre) in Hpre.
  split.
  - split; [lia|].
    replace (visualLength l)
      with (visualLength_loop (pre ++ c :: drop (S (Z.to_nat x)) l) 0)
      by (by rewrite Hsplit).
    rewrite visualLength_loop_app. fold (visualLength pre).
    pose proof (visualLength_loop_bounds (c :: drop (S (Z.to_nat x)) l) (visualLength pre)
                  ltac:(lia)) as Hb.
    rewrite len_cons in Hb. unfold tab_width in Hb.
    specialize (Hb ltac:(lia)). lia.
  - replace (expandTabs l) with (expandTabs (pre ++ c :: drop (S (Z.to_nat x)) l))
      by (by rewrite Hsplit).
    rewrite expandTabs_app by done.
    rewrite lookup_app_r by (unfold len in Hpre; lia).
    replace (Z.to_nat (visualLength pre) - length (expandTabs pre))%nat with 0%nat
      by (unfold len in Hpre; lia).
    simpl. destruct (Ascii.eqb c TAB).
    + rewrite expandTabs_loop_app.
      assert (Hrem : Z.rem (visualLength pre) 4 = visualLength pre mod 4)
        by (apply Z.rem_mod_nonneg; lia).
      pose proof (Z.mod_pos_bound (visualLength pre) 4 ltac:(lia)) as Hmod.
      unfold tab_width. rewrite Hrem.
      destruct (Z.to_nat (4 - visualLength pre mod 4)) as [|k] eqn:Ek; [lia|]. done.
    + by rewrite expandTabs_loop_app.
Qed.

(** X10: [visualLength] counts columns with tab stops every [tab_width]
    columns: one more character advances the width by one, a tab to the
    next multiple of [tab_width]. *)
Theorem visualLength_step (s : line) (c : ascii) :
  tab_width * (len s + 1) <= INT_MAX ->
  visualLength (s ++ [c]) =
    if Ascii.eqb c TAB then tab_width * (visualLength s / tab_width + 1)
    else visualLength s + 1.
Proof.
  intros Hfit. unfold tab_width in *. pose proof (len_nonneg s) as Hs.
  pose proof (visualLength_bounds s ltac:(unfold tab_width; lia)) as Hv.
  unfold tab_width in Hv.
  unfold visualLength at 1. rewrite visualLength_loop_app. fold (visualLength s).
  simpl. unfold INT_MAX in *. destruct (Ascii.eqb c TAB).
  - unfold tab_width.
    pose proof (Z.mod_pos_bound (visualLength s) 4 ltac:(lia)) as Hmod.
    rewrite (to_size_t_small (4 - visualLength s mod 4)) by lia.
    rewrite to_size_t_small by lia.
    pose proof (Z.div_mod (visualLength s) 4 ltac:(lia)). lia.
  - rewrite to_size_t_small by lia. done.
Qed.

(** * The frame *)

Lemma length_resize_to {A} (n : Z) (x : A) (l : list A) :
  length (resize_to n x l) = Z.to_nat n.
Proof. unfold resize_to. rewrite length_app, length_take, repeat_length. lia. Qed.

Lemma getVisible_window (s : line) (m : Melt) :
  0 <= ox m -> 0 <= ax m ->
  len (expandTabs s) < 2 ^ 64 ->
  getVisible s m = resize_to (ax m) SPACE (drop (Z.to_nat (ox m)) (expandTabs s)).
Proof.
  intros Hox Hax Hlen. unfold getVisible.
  set (estr := expandTabs s) in *. pose proof (len_nonneg estr) as Hn.
  destruct (Z.gtb_spec (len estr) (ox m)) as [Hgt|Hle].
  - rewrite to_size_t_small by lia.
    assert (Hdrop : length (drop (Z.to_nat (ox m)) estr) = Z.to_nat (len estr - ox m)).
    { rewrite length_drop. unfold len. lia. }
    unfold str_substr_n.
    replace (Z.min (ax m `min` (len estr - ox m)) (len estr - ox m))
      with (ax m `min` (len estr - ox m)) by lia.
    destruct (Z.ltb_spec (ax m `min` (len estr - ox m)) (ax m)) as [Hshort|Hfull].
    + replace (ax m `min` (len estr - ox m)) with (len estr - ox m) by lia.
      rewrite take_ge by lia. done.
    + replace (ax m `min` (len estr - ox m)) with (ax m) by lia.
      unfold resize_to.
      replace (Z.to_nat (ax m) - length (drop (Z.to_nat (ox m)) estr))%nat with 0%nat by lia.
      simpl. by rewrite app_nil_r.
  - unfold resize_to. rewrite drop_ge by (unfold len in Hle; lia).
    rewrite take_nil. simpl. by rewrite Nat.sub_0_r.
Qed.

Lemma fill_back_fields (n : nat) (i : Z) (m : Melt) :
  lines (fill_back n i m) = lines m /\ ox (fill_back n i m) = ox m
  /\ oy (fill_back n i m) = oy m /\ ax (fill_back n i m) = ax m
  /\ ay (fill_back n i m) = ay m /\ front (fill_back n i m) = front m
  /\ mx (fill_back n i m) = mx m /\ my (fill_back n i m) = my m.
Proof.
  revert i m. induction n as [|n IH]; intros i m; simpl; [done|].
  destruct (IH (i + 1) (set_back (<[Z.to_nat i := 
     if to_size_t (i + oy m) <? size (lines m)
     then getVisible (line_at (lines m) (to_size_t (i + oy m))) m
     else "~"%char :: repeat SPACE (Z.to_nat (to_unsigned (ax m - 1)))]> (back m)) m))
    as (-> & -> & -> & -> & -> & -> & -> & ->).
  done.
Qed.

(** The rows that the loop of [update] writes. *)
Lemma fill_back_rows (n : nat) (i : Z) (m : Melt) :
  size (lines m) <= INT_MAX -> widths_fit (lines m) ->
  0 <= ox m -> 0 <= oy m <= INT_MAX -> 1 <= ax m <= INT_MAX ->
  0 <= i -> i + Z.of_nat n <= INT_MAX -> (Z.to_nat i + n <= length (back m))%nat ->
  back (fill_back n i m) =
    take (Z.to_nat i) (back m) ++ map (frame_row m) (seqZ i (Z.of_nat n))
    ++ drop (Z.to_nat i + n) (back m).
Proof.
  intros Hsz Hw Hox Hoy Hax. revert i m Hsz Hw Hox Hoy Hax.
  induction n as [|n IH]; intros i m Hsz Hw Hox Hoy Hax Hi Hin Hlen.
  { simpl. rewrite Nat.add_0_r. by rewrite take_drop. }
  cbn [fill_back].
  set (row := if to_size_t (i + oy m) <? size (lines m) then _ else _).
  assert (Hrow : row = frame_row m i).
  { subst row. unfold frame_row.
    rewrite to_size_t_small by (unfold INT_MAX in *; lia).
    destruct (Z.ltb_spec (i + oy m) (size (lines m))).
    - apply getVisible_window; [lia | lia |].
      pose proof (line_at_widths_fit (lines m) (i + oy m) Hw) as Hl.
      pose proof (visualLength_bounds _ Hl) as Hb.
      pose proof (tab_loops_agree_from (line_at (lines m) (i + oy m)) 0 ltac:(lia)
                    ltac:(rewrite Z.add_0_l; exact Hl)) as Hagree.
      unfold tab_width in Hl, Hb.
      fold (visualLength (line_at (lines m) (i + oy m))) in Hagree.
      fold (expandTabs (line_at (lines m) (i + oy m))) in Hagree.
      unfold INT_MAX in *. lia.
    - rewrite to_unsigned_small by (unfold INT_MAX in *; lia). done. }
  rewrite Hrow. clear row Hrow.
  assert (Hlt : (Z.to_nat i < length (back m))%nat) by lia.
  destruct (lookup_lt_is_Some_2 _ _ Hlt) as [old Hold].
  pose proof (take_drop_middle (back m) (Z.to_nat i) old Hold) as Hsplit.
  set (pre := take (Z.to_nat i) (back m)) in *.
  set (post := drop (S (Z.to_nat i)) (back m)) in *.
  assert (Htl : length pre = Z.to_nat i) by (subst pre; rewrite length_take; lia).
  assert (Hupd : <[Z.to_nat i := frame_row m i]> (back m) = pre ++ frame_row m i :: post).
  { rewrite <- Hsplit, <- Htl. apply lines_insert_middle. }
  rewrite Hupd.
  specialize (IH (i + 1) (set_back (pre ++ frame_row m i :: post) m)).
  cbn [lines ox oy ax back set_back] in IH.
  rewrite IH; try done; try lia.
  2:{ rewrite length_app. simpl. rewrite <- Hsplit, length_app in Hlen. simpl in Hlen. lia. }
  replace (Z.of_nat (S n)) with (Z.succ (Z.of_nat n)) by lia.
  rewrite (seqZ_cons i) by lia. rewrite Z.pred_succ. cbn [map].
  replace (Z.to_nat (i + 1)) with (length (pre ++ [frame_row m i]))
    by (rewrite length_app; simpl; lia).
  replace (pre ++ frame_row m i :: post) with ((pre ++ [frame_row m i]) ++ post)
    by (by rewrite <- app_assoc).
  rewrite take_app_length, <- !app_assoc. cbn [app]. do 2 f_equal.
  replace (Z.succ i) with (i + 1) by lia.
  f_equal.
  rewrite <- Hsplit, length_app. simpl length.
  rewrite !(drop_app_ge pre) by lia.
  replace (length pre + 1 + n - length pre)%nat with (S n) by lia.
  replace (Z.to_nat i + S n - length pre)%nat with (S n) by lia.
  done.
Qed.

(** * Properties kept by every key and every command *)

Lemma set_lines_id (m : Melt) : set_lines (lines m) m = m.
Proof. by destruct m. Qed.

(** The editing operations change the document and nothing else. *)
Lemma edits_set_lines (m : Melt) (x y : Z) (c : ascii) (l : line) :
  insCh x y c m = set_lines (lines (insCh x y c m)) m
  /\ rmCh x y m = set_lines (lines (rmCh x y m)) m
  /\ insLn y l m = set_lines (lines (insLn y l m)) m
  /\ rmLn y m = set_lines (lines (rmLn y m)) m
  /\ jnLn y m = set_lines (lines (jnLn y m)) m
  /\ spLn x y m = set_lines (lines (spLn x y m)) m.
Proof.
  unfold insCh, rmCh, insLn, rmLn, jnLn, spLn, insLn, rmLn.
  repeat split; repeat case_match; cbn [lines set_lines];
    try reflexivity; by rewrite set_lines_id.
Qed.

Section CommandLifting.

Variable char_signed : bool.
Variable can_write : line -> bool.

(** [P] is a property of the editor that the steps of the command
    interpreter keep. *)
Variable P : Melt -> Prop.

Hypothesis P_delete : forall m, P m -> P (cmd_delete m).
Hypothesis P_smessage : forall v m, P m -> P (set_smessage v m).
Hypothesis P_pending : forall v m, P m -> P (set_pending v m).
Hypothesis P_last_cmd : forall v m, P m -> P (set_last_cmd v m).
Hypothesis P_stop : forall m, P m -> P (set_is_running false m).
Hypothesis P_save : forall m, P m -> P (cmd_save can_write m).
Hypothesis P_confirm : forall fn m, P m -> P (confirm_write char_signed can_write fn m).

Lemma lift_prompt_loop (ks : list Z) (fn : line) (m m' : Melt) :
  prompt_loop char_signed can_write ks fn m = Some m' -> P m -> P m'.
Proof.
  revert fn. induction ks as [|k ks IH]; intros fn; simpl; [done|].
  repeat case_match; try (by apply IH).
  - intros [= <-] Hm. by apply P_confirm, P_pending.
  - intros [= <-] Hm. by apply P_pending.
Qed.

Lemma lift_cmd_loop (replay : Melt -> option Melt) (c : line) (m m' : Melt) :
  (forall x y, replay x = Some y -> P x -> P y) ->
  cmd_loop char_signed can_write replay c m = Some m' -> P m -> P m'.
Proof.
  intros Hreplay. revert m. induction c as [|ch c IH]; intros m; simpl.
  { intros [= <-] Hm. by apply P_last_cmd. }
  repeat (destruct (Ascii.eqb ch _)).
  - destruct (replay m) as [m1|] eqn:E; simpl; [|done].
    intros Hrun Hm. eapply IH; [exact Hrun|]. by eapply Hreplay.
  - intros Hrun Hm. eapply IH; [exact Hrun|]. by apply P_save.
  - destruct (cmd_write char_signed can_write m) as [m1|] eqn:E; simpl; [|done].
    intros Hrun Hm. eapply IH; [exact Hrun|].
    unfold cmd_write in E. eapply lift_prompt_loop; [exact E|]. by apply P_smessage.
  - intros Hrun Hm. eapply IH; [exact Hrun|]. unfold cmd_quit.
    destruct (fstate m =? 2); [by apply P_smessage | by apply P_stop].
  - intros Hrun Hm. eapply IH; [exact Hrun|]. by apply P_stop.
  - intros Hrun Hm. eapply IH; [exact Hrun|]. by apply P_delete.
  - intros [= <-] Hm. by apply P_smessage.
Qed.

Lemma lift_commands (fuel : nat) (c : line) (m m' : Melt) :
  processCmd char_signed can_write fuel c m = Some m' -> P m -> P m'.
Proof.
  revert c m m'. induction fuel as [|fuel IH]; intros c m m'; simpl; [done|].
  destruct c as [|ch c]; [by intros [= <-]|].
  apply lift_cmd_loop. intros x y. apply IH.
Qed.

End CommandLifting.

Section Lifting.

Variable char_signed : bool.
Variable can_write : line -> bool.

(** [P] is a property of the editor that the primitive steps keep. *)
Variable P : Melt -> Prop.

Hypothesis P_lines : forall v m, P m -> P (set_lines v m).
Hypothesis P_mvCursor : forall xd yd m, P m -> P (mvCursor xd yd m).
Hypothesis P_dirty : forall m, P m -> P (set_fstate 2 m).
Hypothesis P_smessage : forall v m, P m -> P (set_smessage v m).
Hypothesis P_pending : forall v m, P m -> P (set_pending v m).
Hypothesis P_cmd : forall v m, P m -> P (set_cmd v m).
Hypothesis P_last_cmd : forall v m, P m -> P (set_last_cmd v m).
Hypothesis P_edit_mode : forall m, P m -> P (set_edmode 0 m).
Hypothesis P_command_mode : forall m, P m -> P (set_edmode 1 m).
Hypothesis P_stop : forall m, P m -> P (set_is_running false m).
Hypothesis P_save : forall m, P m -> P (cmd_save can_write m).
Hypothesis P_confirm : forall fn m, P m -> P (confirm_write char_signed can_write fn m).

Lemma lift_edits (m : Melt) (x y : Z) (c : ascii) :
  P m ->
  P (insCh x y c m) /\ P (rmCh x y m) /\ P (rmLn y m) /\ P (jnLn y m) /\ P (spLn x y m).
Proof.
  intros Hm.
  destruct (edits_set_lines m x y c []) as (Hi & Hr & _ & Hd & Hj & Hs).
  rewrite Hi, Hr, Hd, Hj, Hs. repeat split; by apply P_lines.
Qed.

Lemma lift_cmd_delete (m : Melt) : P m -> P (cmd_delete m).
Proof.
  intros Hm. unfold cmd_delete. destruct (cy m >? 0).
  - apply P_dirty, P_mvCursor. by apply (lift_edits m 0 (cy m) SPACE).
  - by apply P_smessage.
Qed.

Lemma lift_processCmd (fuel : nat) (c : line) (m m' : Melt) :
  processCmd char_signed can_write fuel c m = Some m' -> P m -> P m'.
Proof.
  apply lift_commands; try done. apply lift_cmd_delete.
Qed.

Lemma lift_processEvents (fuel : nat) (m m' : Melt) :
  processEvents char_signed can_write fuel m = Some m' -> P m -> P m'.
Proof.
  unfold processEvents. destruct (pending m) as [|ch ks]; [discriminate|].
  intros Hev Hm. apply (P_pending ks) in Hm. revert Hev Hm.
  generalize (set_pending ks m). clear m. intros m Hev Hm.
  destruct (ch =? KEY_UP).
  { injection Hev as <-. unfold key_up. repeat case_match; try done; by apply P_mvCursor. }
  destruct (ch =? KEY_DOWN).
  { injection Hev as <-. unfold key_down. repeat case_match; try done; by apply P_mvCursor. }
  destruct (ch =? KEY_LEFT).
  { injection Hev as <-. unfold key_left. repeat case_match; try done; by apply P_mvCursor. }
  destruct (ch =? KEY_RIGHT).
  { injection Hev as <-. unfold key_right. repeat case_match; try done; by apply P_mvCursor. }
  destruct ((ch =? KEY_BACKSPACE) || (ch =? 127) || (ch =? 8)).
  { injection Hev as <-. unfold key_backspace.
    destruct (edmode m =? 0); [|done]. apply P_dirty.
    destruct ((cx m =? 0) && (cy m >? 0)); [|destruct (cx m >? 0)]; [| |done].
    - do 2 apply P_mvCursor. by apply (lift_edits m 0 _ SPACE).
    - apply P_mvCursor. by apply (lift_edits m _ _ SPACE). }
  destruct ((ch =? KEY_ENTER) || (ch =? 10) || (ch =? 13)).
  { unfold key_enter in Hev.
    destruct (edmode m =? 0); [|destruct (edmode m =? 1)].
    - injection Hev as <-. apply P_dirty, P_mvCursor. by apply (lift_edits m _ _ SPACE).
    - destruct (processCmd char_signed can_write fuel (cmd m) m) as [m1|] eqn:E;
        [|discriminate Hev].
      injection Hev as <-. apply P_edit_mode, P_cmd. by eapply lift_processCmd.
    - by injection Hev as <-. }
  destruct (ch =? 9).
  { injection Hev as <-. unfold key_tab. destruct (edmode m =? 0); [|done].
    apply P_dirty, P_mvCursor.
    repeat match goal with
           | |- P (insCh ?x ?y ?c ?n) => apply (lift_edits n x y c)
           end. done. }
  destruct (ch =? 27).
  { injection Hev as <-. unfold key_escape. apply P_cmd.
    destruct (edmode m =? 0); [by apply P_command_mode|].
    destruct (edmode m =? 1); [by apply P_edit_mode | done]. }
  injection Hev as <-. unfold key_other.
  destruct ((ch >=? 32) && (ch <=? 126)); [|done].
  destruct (edmode m =? 0); [|destruct (edmode m =? 1); [by apply P_cmd | done]].
  apply P_dirty, P_mvCursor. by apply (lift_edits m _ _ (char_of ch)).
Qed.

End Lifting.

(** * The frame buffers *)

Lemma to_size_t_le (z : Z) : 0 <= z -> 0 <= to_size_t z <= z.
Proof.
  intros Hz. unfold to_size_t.
  pose proof (Z.mod_pos_bound z (2 ^ 64) ltac:(lia)).
  pose proof (Z.mod_le z (2 ^ 64) Hz ltac:(lia)). lia.
Qed.

Lemma getVisible_length (s : line) (m : Melt) :
  0 <= ox m -> 0 <= ax m -> len (getVisible s m) = ax m.
Proof.
  intros Hox Hax. unfold getVisible, len.
  destruct (Z.gtb_spec (Z.of_nat (length (expandTabs s))) (ox m)) as [Hgt|Hle].
  - fold (len (expandTabs s)) in *.
    pose proof (to_size_t_le (len (expandTabs s) - ox m) ltac:(lia)) as Ht.
    set (t := to_size_t (len (expandTabs s) - ox m)) in *.
    destruct (Z.ltb_spec (ax m `min` t) (ax m)).
    + rewrite length_resize_to. lia.
    + unfold str_substr_n. rewrite length_take, length_drop. unfold len in *. lia.
  - rewrite repeat_length. lia.
Qed.

Lemma fill_back_below (n : nat) (i : Z) (m : Melt) (k : nat) :
  0 <= i -> (k < Z.to_nat i)%nat ->
  back (fill_back n i m) !! k = back m !! k.
Proof.
  revert i m. induction n as [|n IH]; intros i m Hi Hk; simpl; [done|].
  rewrite IH by lia. cbn [back set_back]. apply list_lookup_insert_ne. lia.
Qed.

Lemma fill_back_length (n : nat) (i : Z) (m : Melt) :
  length (back (fill_back n i m)) = length (back m).
Proof.
  revert i m. induction n as [|n IH]; intros i m; simpl; [done|].
  rewrite IH. cbn [back set_back]. apply length_insert.
Qed.

Lemma fill_back_widths (n : nat) (i : Z) (m : Melt) (k : nat) (r : line) :
  0 <= ox m -> 1 <= ax m < 2 ^ 32 -> 0 <= i ->
  back (fill_back n i m) !! k = Some r ->
  (Z.to_nat i <= k < Z.to_nat i + n)%nat ->
  len r = ax m.
Proof.
  intros Hox Hax. revert i m Hox Hax.
  induction n as [|n IH]; intros i m Hox Hax Hi Hr Hk; [lia|].
  cbn [fill_back] in Hr.
  set (row := if to_size_t (i + oy m) <? size (lines m) then _ else _) in Hr.
  assert (Hrow : len row = ax m).
  { subst row. destruct (to_size_t (i + oy m) <? size (lines m)).
    - apply getVisible_length; lia.
    - unfold len. simpl. rewrite repeat_length.
      rewrite to_unsigned_small by lia. lia. }
  destruct (decide (k = Z.to_nat i)) as [->|Hne].
  - rewrite fill_back_below in Hr by lia. cbn [back set_back] in Hr.
    pose proof (lookup_lt_Some _ _ _ Hr) as Hlt. rewrite length_insert in Hlt.
    rewrite list_lookup_insert_eq in Hr by done. by injection Hr as <-.
  - eapply (IH (i + 1) _ _ _ _ Hr). Unshelve. all: cbn [ox ax set_back]; lia.
Qed.

Lemma copy_rows_back (n i : nat) (m : Melt) : back (copy_rows n i m) = back m.
Proof.
  revert i m. induction n as [|n IH]; intros i m; simpl; [done|].
  rewrite IH. by case_match.
Qed.

Lemma copy_rows_ws (n i : nat) (m : Melt) :
  is_ws_changed (copy_rows n i m) = is_ws_changed m.
Proof.
  revert i m. induction n as [|n IH]; intros i m; simpl; [done|].
  rewrite IH. by case_match.
Qed.

(** The row-by-row copy brings [front] to [back]. *)
Lemma copy_rows_front (n i : nat) (m : Melt) :
  length (front m) = length (back m) ->
  (i + n = length (back m))%nat ->
  take i (front m) = take i (back m) ->
  front (copy_rows n i m) = back m.
Proof.
  revert i m. induction n as [|n IH]; intros i m Hlen Hin Htake.
  - simpl. rewrite Nat.add_0_r in Hin. subst i.
    rewrite <- Hlen in Htake at 1. by rewrite !firstn_all in Htake.
  - cbn [copy_rows].
    match goal with |- context [copy_rows n (S i) ?x] => set (m1 := x) end.
    assert (Hb : back m1 = back m) by (subst m1; by case_match).
    assert (Hi : (i < length (back m))%nat) by lia.
    destruct (lookup_lt_is_Some_2 _ _ Hi) as [b Hbi].
    assert (Hf : front m1 !! i = Some b /\ length (front m1) = length (front m)
                 /\ take i (front m1) = take i (front m)).
    { subst m1. destruct (bool_decide_reflect (length (front m) <= i)%nat) as [Hge|Hlt];
        [lia|]. cbn [orb].
      destruct (bool_decide_reflect (front m !! i = back m !! i)) as [Heq|Hne]; cbn [negb].
      - split; [by rewrite Heq|done].
      - cbn [front set_front]. unfold line_at. rewrite Nat2Z.id, Hbi. cbn [default].
        split; [apply list_lookup_insert_eq; lia|].
        split; [apply length_insert|]. apply take_insert_ge. lia. }
    destruct Hf as (Hfi & Hfl & Hft).
    rewrite <- Hb. apply IH.
    + rewrite Hb. lia.
    + rewrite Hb. lia.
    + rewrite Hb. rewrite (take_S_r _ _ b Hfi), (take_S_r _ _ b Hbi), Hft, Htake. done.
Qed.

Lemma render_copies_back (m : Melt) :
  front (render m) = back m /\ back (render m) = back m /\ is_ws_changed (render m) = false.
Proof.
  unfold render. destruct (is_ws_changed m) eqn:Hws; [done|].
  match goal with |- context [copy_rows _ 0 ?x] => set (m1 := x) end.
  assert (H1 : back m1 = back m /\ length (front m1) = length (back m)
               /\ is_ws_changed m1 = false).
  { subst m1. destruct (Nat.eqb_spec (length (front m)) (length (back m))); cbn [negb].
    - done.
    - cbn [back front set_front is_ws_changed]. split; [done|]. split; [|done].
      rewrite length_resize_to. unfold size. lia. }
  destruct H1 as (Hb & Hl & Hw). rewrite <- Hb.
  split; [|split].
  - apply copy_rows_front; [by rewrite Hb | done | done].
  - apply copy_rows_back.
  - by rewrite copy_rows_ws.
Qed.

Lemma set_front_id (m : Melt) : set_front (front m) m = m.
Proof. by destruct m. Qed.



(** * Invariants of the running editor *)

Lemma scrollToFit_origin_nonneg (m : Melt) :
  0 <= ox m -> 0 <= ox (scrollToFit m).
Proof.
  intros Hox. unfold scrollToFit.
  match goal with |- context [if cy ?x <? _ then _ else _] => set (m1 := x) end.
  assert (H1 : 0 <= ox m1).
  { subst m1. unfold scrollLeft, scrollRight.
    repeat case_match; cbn [ox set_ox]; try done; try lia; apply to_unsigned_nonneg. }
  clearbody m1. unfold scrollUp, scrollDown. repeat case_match; done.
Qed.

Lemma mvCursor_origin_nonneg (xd yd : Z) (m : Melt) :
  0 <= ox m -> 0 <= ox (mvCursor xd yd m).
Proof.
  intros Hox. unfold mvCursor. destruct (mvCursor_target xd yd m) as [nx ny].
  by apply scrollToFit_origin_nonneg.
Qed.

Lemma mvCursor_frames_sized (xd yd : Z) (m : Melt) :
  frames_sized m -> frames_sized (mvCursor xd yd m).
Proof.
  intros Hm. pose proof (mvCursor_origin_nonneg xd yd m) as Hox.
  destruct (mvCursor_frame xd yd m) as (x & y & vx & vy & Heq). rewrite Heq in *.
  unfold frames_sized in *. cbn in *. intuition.
Qed.

Lemma save_frames_sized can_write (fn : line) (m : Melt) :
  frames_sized m -> frames_sized (save can_write fn m).2.
Proof. unfold save. by repeat case_match. Qed.

Lemma events_keep_frames_sized char_signed can_write (fuel : nat) (m m' : Melt) :
  processEvents char_signed can_write fuel m = Some m' ->
  frames_sized m -> frames_sized m'.
Proof.
  apply lift_processEvents; try done.
  - intros xd yd x. apply mvCursor_frames_sized.
  - intros x Hx. unfold cmd_save.
    pose proof (save_frames_sized can_write (fname x) x Hx) as Hs.
    by destruct (save can_write (fname x) x) as [[ret|] x'].
  - intros fn x Hx. unfold confirm_write. destruct fn as [|c fn]; [done|].
    destruct (negb _); [done|].
    pose proof (save_frames_sized can_write (c :: fn) x Hx) as Hs.
    by destruct (save can_write (c :: fn) x) as [[ret|] x'].
Qed.

Lemma commands_keep_frames_sized char_signed can_write (fuel : nat) (c : line)
    (m m' : Melt) :
  processCmd char_signed can_write fuel c m = Some m' ->
  frames_sized m -> frames_sized m'.
Proof.
  apply lift_processCmd; try done.
  - intros xd yd x. apply mvCursor_frames_sized.
  - intros x Hx. unfold cmd_save.
    pose proof (save_frames_sized can_write (fname x) x Hx) as Hs.
    by destruct (save can_write (fname x) x) as [[ret|] x'].
  - intros fn x Hx. unfold confirm_write. destruct fn as [|ch fn]; [done|].
    destruct (negb _); [done|].
    pose proof (save_frames_sized can_write (ch :: fn) x Hx) as Hs.
    by destruct (save can_write (ch :: fn) x) as [[ret|] x'].
Qed.

Lemma resize_frames_sized (m : Melt) :
  ax m = mx m -> ay m = to_unsigned (my m - 2) ->
  40 <= ax m < 2 ^ 32 -> 12 <= ay m -> 0 <= ox m ->
  size (back (resize_frames m)) = ay m /\ size (front (resize_frames m)) = ay m.
Proof.
  intros. unfold resize_frames, size. cbn [back front set_front set_back].
  rewrite !length_resize_to. lia.
Qed.

Lemma update_keeps_frames_sized (rows cols : Z) (m m' : Melt) :
  update rows cols m = Running m' -> frames_sized m -> frames_sized m'.
Proof.
  unfold update. intros Hu Hm.
  match type of Hu with
  | match ?r with Running _ => _ | _ => _ end = _ => destruct r as [m1| |] eqn:Hres
  end; [|discriminate Hu|discriminate Hu].
  assert (H1 : ax m1 = mx m1 /\ ay m1 = to_unsigned (my m1 - 2)
               /\ 40 <= ax m1 < 2 ^ 32 /\ 12 <= ay m1 /\ 0 <= ox m1
               /\ size (back m1) = ay m1 /\ size (front m1) = ay m1).
  { destruct Hm as (Hax & Hay & Hw & Hh & Hox & Hb & Hf & _).
    destruct (negb (mx m =? to_unsigned cols) || negb (my m =? to_unsigned rows)).
    - match type of Hres with
      | (if ?b then _ else _) = _ => destruct b eqn:Hsmall
      end; [discriminate Hres|].
      injection Hres as <-.
      apply orb_false_iff in Hsmall as [Hc Hr].
      apply Z.ltb_ge in Hc, Hr. cbn [ax ay set_term] in Hc, Hr.
      pose proof (Z.mod_pos_bound cols (2 ^ 32) ltac:(lia)) as Hcols.
      set (m0 := set_term _ _ _ _ _) in *.
      assert (Hg : ax m0 = mx m0 /\ ay m0 = to_unsigned (my m0 - 2)
                   /\ 40 <= ax m0 < 2 ^ 32 /\ 12 <= ay m0 /\ 0 <= ox m0).
      { subst m0. cbn [ax ay mx my ox set_term set_is_ws_changed] in *.
        split; [done|]. split; [done|]. unfold to_unsigned in *. lia. }
      destruct Hg as (? & ? & ? & ? & ?).
      destruct (resize_frames_sized m0) as [? ?]; try done.
    - injection Hres as <-. repeat split; try done; lia. }
  destruct H1 as (Hax & Hay & Hw & Hh & Hox & Hb & Hf).
  destruct (status_bar _) as [bar|] eqn:Hbar; [|discriminate Hu].
  injection Hu as <-.
  destruct (fill_back_fields (Z.to_nat (ay m1)) 0 m1) as (El & Eox & Eoy & Eax & Eay & Ef & Emx & Emy).
  unfold frames_sized. cbn [ax ay mx my ox back front set_smessage].
  rewrite Eox, Eax, Eay, Ef, Emx, Emy.
  pose proof (fill_back_length (Z.to_nat (ay m1)) 0 m1) as Hlen.
  split; [done|]. split; [done|]. split; [done|]. split; [done|]. split; [done|].
  split; [unfold size in *; lia|]. split; [done|].
  apply Forall_lookup. intros k r Hr.
  eapply (fill_back_widths (Z.to_nat (ay m1)) 0 m1 k r); try done; try lia.
  apply lookup_lt_Some in Hr. unfold size in *. lia.
Qed.


Lemma copy_rows_frame (n i : nat) (m : Melt) :
  exists f, copy_rows n i m = set_front f m.
Proof.
  revert i m. induction n as [|n IH]; intros i m; simpl.
  - exists (front m). by rewrite set_front_id.
  - case_match.
    + destruct (IH (S i) (set_front (<[i:=line_at (back m) (Z.of_nat i)]> (front m)) m))
        as [f ->]. by exists f.
    + apply IH.
Qed.

Lemma render_keeps_frames_sized (m : Melt) : frames_sized m -> frames_sized (render m).
Proof.
  intros (Hax & Hay & Hw & Hh & Hox & Hb & Hf & Hrows).
  destruct (render_copies_back m) as (Hfront & Hback & _).
  assert (Hg : ax (render m) = ax m /\ ay (render m) = ay m /\ mx (render m) = mx m
               /\ my (render m) = my m /\ ox (render m) = ox m).
  { unfold render. destruct (is_ws_changed m); [done|].
    match goal with |- context [copy_rows ?n 0 ?x] => destruct (copy_rows_frame n 0 x) as [f ->] end.
    by case_match. }
  destruct Hg as (Eax & Eay & Emx & Emy & Eox).
  unfold frames_sized. rewrite Eax, Eay, Emx, Emy, Eox, Hfront, Hback. done.
Qed.

Lemma init_file_fields char_signed fs_exists fs_read (arg : option line) (keys : list Z) :
  let m := init_file char_signed fs_exists fs_read arg (Melt_new keys) in
  cx m = 0 /\ cy m = 0 /\ ox m = 0 /\ oy m = 0 /\ edmode m = 0
  /\ pending m = keys /\ front m = [] /\ back m = [].
Proof.
  unfold init_file. destruct arg as [a|]; [|done].
  cbn [fname set_fstate set_fname].
  destruct a as [|c a]; [done|].
  destruct (negb (valFn char_signed (c :: a))); [done|].
  destruct (negb (fs_exists (c :: a))); [done|].
  unfold load. by destruct (fs_read (c :: a)) as [| |bytes].
Qed.

Lemma init_frames_sized char_signed fs_exists fs_read arg scr_ok modes_ok rows cols keys m :
  init char_signed fs_exists fs_read arg scr_ok modes_ok rows cols keys = Running m ->
  frames_sized m /\ cx m = 0 /\ cy m = 0 /\ ox m = 0 /\ oy m = 0
  /\ is_ws_changed m = true /\ edmode m = 0 /\ pending m = keys.
Proof.
  unfold init. destruct (negb scr_ok); [done|]. destruct (negb modes_ok); [done|].
  match goal with |- context [if ?b then Fatal _ else _] => destruct b eqn:Hsmall end; [done|].
  intros [= <-].
  apply orb_false_iff in Hsmall as [Hc Hr]. apply Z.ltb_ge in Hc, Hr.
  set (m0 := init_file char_signed fs_exists fs_read arg (Melt_new keys)) in *.
  assert (H0 : cx m0 = 0 /\ cy m0 = 0 /\ ox m0 = 0 /\ oy m0 = 0 /\ edmode m0 = 0
               /\ pending m0 = keys /\ front m0 = [] /\ back m0 = []).
  { subst m0. apply init_file_fields. }
  destruct H0 as (Ecx & Ecy & Eox & Eoy & Eed & Epe & Efr & Eba).
  clearbody m0.
  cbn [ax ay set_term] in Hc, Hr.
  pose proof (Z.mod_pos_bound cols (2 ^ 32) ltac:(lia)) as Hcols.
  unfold frames_sized, resize_frames.
  cbn [ax ay mx my ox oy cx cy back front edmode pending is_ws_changed
       set_term set_is_ws_changed set_front set_back].
  rewrite Eox, Efr, Eba. unfold size. rewrite !length_resize_to.
  repeat split; try done; try (unfold to_unsigned in *; lia).
  unfold resize_to. rewrite take_nil. simpl. rewrite Nat.sub_0_r.
  apply Forall_forall. intros r Hr'. apply list_elem_of_In, repeat_spec in Hr'. subst r.
  unfold len. rewrite repeat_length. unfold to_unsigned in *. lia.
Qed.

(** The file binding and the mode. *)

Lemma save_binding can_write (fn : line) (m : Melt) :
  fname (save can_write fn m).2 = fname m /\ fstate (save can_write fn m).2 = fstate m
  /\ edmode (save can_write fn m).2 = edmode m
  /\ ((save can_write fn m).1 = None -> fn <> []).
Proof. unfold save. by repeat case_match. Qed.

Lemma save_written char_signed can_write (fn : line) (m : Melt) :
  fn = [] \/ valFn char_signed fn = true ->
  Forall (fun w => valFn char_signed w.1 = true) (written m) ->
  Forall (fun w => valFn char_signed w.1 = true) (written (save can_write fn m).2).
Proof.
  intros Hfn Hall. unfold save. destruct fn as [|c fn]; [done|].
  destruct (can_write (c :: fn)); [|done].
  cbn [snd written set_written]. constructor; [|done].
  by destruct Hfn.
Qed.

Lemma cmd_save_binding_ok char_signed can_write (m : Melt) :
  binding_ok char_signed m -> binding_ok char_signed (cmd_save can_write m).
Proof.
  intros (Hname & Hclean & Hstate & Hmode & Hfiles). unfold cmd_save.
  destruct (save_binding can_write (fname m) m) as (En & Es & Em & Hne).
  pose proof (save_written char_signed can_write (fname m) m Hname Hfiles) as Hw.
  destruct (save can_write (fname m) m) as [[ret|] m']; cbn [fst snd] in *.
  - unfold binding_ok. cbn. by rewrite En, Es, Em.
  - unfold binding_ok. cbn. rewrite En, Em.
    split; [done|]. split; [by intros _; apply Hne|]. split; [by right; left | done].
Qed.

Lemma confirm_write_binding_ok char_signed can_write (fn : line) (m : Melt) :
  binding_ok char_signed m ->
  binding_ok char_signed (confirm_write char_signed can_write fn m).
Proof.
  intros (Hname & Hclean & Hstate & Hmode & Hfiles). unfold confirm_write.
  destruct fn as [|c fn]; [done|].
  destruct (valFn char_signed (c :: fn)) eqn:Hval; cbn [negb]; [|done].
  destruct (save_binding can_write (c :: fn) m) as (En & Es & Em & Hne).
  pose proof (save_written char_signed can_write (c :: fn) m (or_intror Hval) Hfiles) as Hw.
  destruct (save can_write (c :: fn) m) as [[ret|] m']; cbn [fst snd] in *.
  - unfold binding_ok. cbn. by rewrite En, Es, Em.
  - unfold binding_ok. cbn. rewrite Em.
    split; [by right|]. split; [done|]. split; [by right; left | done].
Qed.

Lemma mvCursor_binding_ok char_signed (xd yd : Z) (m : Melt) :
  binding_ok char_signed m -> binding_ok char_signed (mvCursor xd yd m).
Proof.
  intros Hm. destruct (mvCursor_frame xd yd m) as (x & y & vx & vy & ->). done.
Qed.

Lemma events_keep_binding_ok char_signed can_write (fuel : nat) (m m' : Melt) :
  processEvents char_signed can_write fuel m = Some m' ->
  binding_ok char_signed m -> binding_ok char_signed m'.
Proof.
  apply lift_processEvents; try done.
  - intros xd yd x. apply mvCursor_binding_ok.
  - intros x (Hname & Hclean & Hstate & Hmode & Hfiles). unfold binding_ok. cbn.
    split; [done|]. split; [done|]. split; [by right; right | done].
  - intros x (Hname & Hclean & Hstate & Hmode & Hfiles). unfold binding_ok. cbn.
    repeat split; try done. by left.
  - intros x (Hname & Hclean & Hstate & Hmode & Hfiles). unfold binding_ok. cbn.
    repeat split; try done. by right.
  - intros x. apply cmd_save_binding_ok.
  - intros fn x. apply confirm_write_binding_ok.
Qed.

Lemma commands_keep_binding_ok char_signed can_write (fuel : nat) (c : line)
    (m m' : Melt) :
  processCmd char_signed can_write fuel c m = Some m' ->
  binding_ok char_signed m -> binding_ok char_signed m'.
Proof.
  apply lift_processCmd; try done.
  - intros xd yd x. apply mvCursor_binding_ok.
  - intros x (Hname & Hclean & Hstate & Hmode & Hfiles). unfold binding_ok. cbn.
    split; [done|]. split; [done|]. split; [by right; right | done].
  - intros x. apply cmd_save_binding_ok.
  - intros fn x. apply confirm_write_binding_ok.
Qed.

Lemma init_file_binding_ok char_signed fs_exists fs_read (arg : option line) (keys : list Z) :
  binding_ok char_signed (init_file char_signed fs_exists fs_read arg (Melt_new keys)).
Proof.
  unfold init_file. destruct arg as [a|].
  2:{ unfold binding_ok. cbn. repeat split; try done; try by left. }
  cbn [fname set_fstate set_fname].
  destruct a as [|c a].
  { unfold binding_ok. cbn. repeat split; try done; try by left. }
  destruct (valFn char_signed (c :: a)) eqn:Hval; cbn [negb].
  2:{ unfold binding_ok. cbn. repeat split; try done; try by left. }
  destruct (negb (fs_exists (c :: a))).
  { unfold binding_ok. cbn. split; [by right|].
    repeat split; try done; try by left. }
  unfold load. destruct (fs_read (c :: a)) as [| |bytes].
  - unfold binding_ok. cbn. repeat split; try done; try by left.
  - unfold binding_ok. cbn. repeat split; try done; try by left.
  - unfold binding_ok. cbn. split; [by right|]. split; [done|].
    split; [by right; left |]. split; [by left | done].
Qed.

Lemma set_back_id (m : Melt) : set_back (back m) m = m.
Proof. by destruct m. Qed.

Lemma fill_back_frame (n : nat) (i : Z) (m : Melt) :
  exists b, fill_back n i m = set_back b m.
Proof.
  revert i m. induction n as [|n IH]; intros i m; cbn [fill_back].
  - exists (back m). by rewrite set_back_id.
  - match goal with |- context [fill_back n (i + 1) (set_back ?v m)] =>
      destruct (IH (i + 1) (set_back v m)) as [b ->] end.
    by exists b.
Qed.

Lemma update_keeps_binding_ok char_signed (rows cols : Z) (m m' : Melt) :
  update rows cols m = Running m' ->
  binding_ok char_signed m -> binding_ok char_signed m'.
Proof.
  unfold update. intros Hu Hm.
  match type of Hu with
  | match ?r with Running _ => _ | _ => _ end = _ => destruct r as [m1| |] eqn:Hres
  end; [|discriminate Hu|discriminate Hu].
  assert (H1 : binding_ok char_signed m1).
  { destruct (negb (mx m =? to_unsigned cols) || negb (my m =? to_unsigned rows)).
    - match type of Hres with (if ?b then _ else _) = _ => destruct b end;
        [discriminate Hres|].
      by injection Hres as <-.
    - by injection Hres as <-. }
  destruct (status_bar _) as [bar|] eqn:Hbar; [|discriminate Hu].
  injection Hu as <-.
  destruct (fill_back_frame (Z.to_nat (ay m1)) 0 m1) as [b ->]. done.
Qed.

Lemma render_keeps_binding_ok char_signed (m : Melt) :
  binding_ok char_signed m -> binding_ok char_signed (render m).
Proof.
  intros Hm. unfold render. destruct (is_ws_changed m); [done|].
  match goal with |- context [copy_rows ?n 0 ?x] =>
    destruct (copy_rows_frame n 0 x) as [f ->] end.
  by case_match.
Qed.

Lemma init_binding_ok char_signed fs_exists fs_read arg scr_ok modes_ok rows cols keys m :
  init char_signed fs_exists fs_read arg scr_ok modes_ok rows cols keys = Running m ->
  binding_ok char_signed m.
Proof.
  intros Hi.
  unfold init in Hi. destruct (negb scr_ok); [done|]. destruct (negb modes_ok); [done|].
  match type of Hi with (if ?b then _ else _) = _ => destruct b end; [done|].
  injection Hi as <-.
  pose proof (init_file_binding_ok char_signed fs_exists fs_read arg keys) as Hb.
  exact Hb.
Qed.

(** X12: in every state the running editor reaches, the frame buffers
    match the terminal size (at least 40 columns, a body of at least 12
    rows, [ay] rows of [ax] characters in the back buffer), the bound
    filename is empty or valid, a clean buffer is bound to a name, the
    state and mode fields hold known values, and every file written so far
    has a valid name. *)
Theorem reachable_state_is_consistent char_signed fs_exists fs_read can_write (m : Melt) :
  reachable char_signed fs_exists fs_read can_write m ->
  frames_sized m /\ binding_ok char_signed m.
Proof.
  induction 1 as [arg scr_ok modes_ok rows cols keys m Hi
                 | fuel rows cols m m' _ IH Ht
                 | rows cols m m' _ IH Hu
                 | m _ IH
                 | fuel m m' _ IH He
                 | fuel c m m' _ IH Hc
                 | keys m _ IH].
  - split; [by eapply init_frames_sized | by eapply init_binding_ok].
  - destruct IH as [Hf Hb]. unfold turn in Ht.
    destruct (update rows cols m) as [m1| |] eqn:Hu; [|done|done].
    destruct (processEvents char_signed can_write fuel (render m1)) as [m2|] eqn:He;
      [|done].
    injection Ht as <-.
    assert (Hf1 : frames_sized (render m1))
      by (eapply render_keeps_frames_sized, update_keeps_frames_sized; eauto).
    assert (Hb1 : binding_ok char_signed (render m1))
      by (eapply render_keeps_binding_ok, update_keeps_binding_ok; eauto).
    split; [by eapply events_keep_frames_sized | by eapply events_keep_binding_ok].
  - destruct IH as [Hf Hb].
    split; [by eapply update_keeps_frames_sized | by eapply update_keeps_binding_ok].
  - destruct IH as [Hf Hb].
    split; [by apply render_keeps_frames_sized | by apply render_keeps_binding_ok].
  - destruct IH as [Hf Hb].
    split; [by eapply events_keep_frames_sized | by eapply events_keep_binding_ok].
  - destruct IH as [Hf Hb].
    split; [by eapply commands_keep_frames_sized | by eapply commands_keep_binding_ok].
  - done.
Qed.

Lemma update_builds_frame (rows cols : Z) (m m' : Melt) :
  update rows cols m = Running m' ->
  frames_sized m ->
  size (lines m) <= INT_MAX -> widths_fit (lines m) ->
  0 <= oy m <= INT_MAX ->
  2 <= rows <= INT_MAX -> 0 <= cols <= INT_MAX ->
  ax m' = cols /\ ay m' = rows - 2
  /\ back m' = map (frame_row m') (seqZ 0 (ay m')).
Proof.
  intros Hu Hm Hsz Hw Hoy Hrows Hcols.
  pose proof (update_keeps_frames_sized rows cols m m' Hu Hm) as Hm'.
  revert Hu. unfold update. intros Hu.
  match type of Hu with
  | match ?r with Running _ => _ | _ => _ end = _ => destruct r as [m1| |] eqn:Hres
  end; [|discriminate Hu|discriminate Hu].
  assert (H1 : lines m1 = lines m /\ ox m1 = ox m /\ oy m1 = oy m
               /\ mx m1 = cols /\ my m1 = rows /\ ax m1 = cols
               /\ ay m1 = to_unsigned (rows - 2)
               /\ length (back m1) = Z.to_nat (ay m1)).
  { destruct Hm as (Hax & Hay & Hwd & Hh & Hox & Hb & Hf & _).
    destruct (negb (mx m =? to_unsigned cols) || negb (my m =? to_unsigned rows)) eqn:Hchg.
    - match type of Hres with (if ?b then _ else _) = _ => destruct b end;
        [discriminate Hres|].
      injection Hres as <-. unfold resize_frames.
      cbn [lines ox oy mx my ax ay back set_term set_is_ws_changed set_front set_back].
      rewrite length_resize_to.
      rewrite !to_unsigned_small by (unfold INT_MAX in *; lia). done.
    - injection Hres as <-.
      apply orb_false_iff in Hchg as [Hc Hr].
      apply negb_false_iff, Z.eqb_eq in Hc, Hr.
      rewrite !to_unsigned_small in Hc, Hr by (unfold INT_MAX in *; lia).
      assert (Hb' : length (back m) = Z.to_nat (ay m)) by (unfold size in Hb; lia).
      rewrite Hb', Hax, Hay, Hc, Hr. done. }
  destruct H1 as (El & Eox & Eoy & Emx & Emy & Eax & Eay & Hlen).
  destruct (status_bar _) as [bar|] eqn:Hbar; [|discriminate Hu].
  injection Hu as <-.
  destruct Hm' as (_ & _ & Hwd' & Hh' & Hox' & _).
  destruct (fill_back_fields (Z.to_nat (ay m1)) 0 m1)
    as (Fl & Fox & Foy & Fax & Fay & _).
  cbn [ax ay ox set_smessage] in Hwd', Hh', Hox'. rewrite Fax in Hwd'. rewrite Fay in Hh'.
  rewrite Fox in Hox'.
  rewrite to_unsigned_small in Eay by (unfold INT_MAX in *; lia).
  cbn [ax ay back set_smessage]. rewrite Fax, Fay.
  split; [done|]. split; [done|].
  rewrite <- El in Hsz, Hw. rewrite <- Eoy in Hoy.
  rewrite fill_back_rows; try done; try (unfold INT_MAX in *; lia).
  - change (Z.to_nat 0) with 0%nat. rewrite take_0, Nat.add_0_l, <- Hlen, drop_all, app_nil_r.
    cbn [app]. rewrite Hlen, Z2Nat.id by lia. apply map_ext. intros i.
    unfold frame_row. cbn [lines ox oy ax set_smessage]. by rewrite Fl, Fox, Foy, Fax.
Qed.

(** * Where the cursor goes *)

Lemma mvCursor_cursor (m : Melt) (xd yd : Z) :
  lines m <> [] -> lines_fit (lines m) ->
  (cx (mvCursor xd yd m), cy (mvCursor xd yd m)) = mvCursor_target xd yd m.
Proof.
  intros Hne Hfit. unfold mvCursor.
  destruct (mvCursor_target xd yd m) as [nx ny] eqn:Ht.
  destruct (mvCursor_target_in_bounds m xd yd nx ny Hne Hfit Ht) as [Hy Hx].
  pose proof (line_at_fits (lines m) ny (proj2 Hfit)) as Hl.
  destruct Hfit as [Hsz _].
  destruct (scrollToFit_keeps (set_cursor (to_unsigned nx) (to_unsigned ny) m))
    as (_ & -> & -> & _).
  cbn [cx cy set_cursor].
  by rewrite !to_unsigned_small by (unfold INT_MAX in *; lia).
Qed.

Lemma mvCursor_row_plain (m : Melt) (yd : Z) :
  lines m <> [] -> size (lines m) <= INT_MAX ->
  0 <= cy m <= INT_MAX -> - 2 ^ 31 <= cy m + yd <= INT_MAX ->
  mvCursor_row yd m = Z.max 0 (Z.min (cy m + yd) (size (lines m) - 1)).
Proof.
  intros Hne Hsz Hcy Hyd. pose proof (size_pos _ Hne) as Hpos.
  unfold mvCursor_row.
  rewrite (to_int_small (cy m)) by (unfold INT_MAX in *; lia).
  rewrite (to_int_small (cy m + yd)) by lia.
  rewrite (to_int_small (size (lines m))) by (unfold INT_MAX in *; lia).
  rewrite (to_size_t_small (size (lines m) - 1)) by (unfold INT_MAX in *; lia).
  rewrite (to_int_small (size (lines m) - 1)) by (unfold INT_MAX in *; lia).
  destruct (Z.ltb_spec (cy m + yd) 0); [lia|].
  destruct (Z.geb_spec (cy m + yd) (size (lines m))); lia.
Qed.

Lemma mvCursor_col_plain (m : Melt) (xd yd : Z) :
  lines m <> [] -> lines_fit (lines m) ->
  0 <= cx m <= INT_MAX -> - 2 ^ 31 <= cx m + xd <= INT_MAX ->
  0 <= cy m <= INT_MAX ->
  mvCursor_col xd yd m =
    if mvCursor_row yd m =? cy m then cx m + xd
    else Z.min (cx m + xd) (len (line_at (lines m) (mvCursor_row yd m))).
Proof.
  intros Hne [Hsz Hall] Hcx Hxd Hcy.
  pose proof (mvCursor_row_range m yd Hne Hsz) as Hrow.
  pose proof (line_at_fits (lines m) (mvCursor_row yd m) Hall) as Hl.
  unfold mvCursor_col.
  rewrite (to_int_small (cx m)) by (unfold INT_MAX in *; lia).
  rewrite (to_int_small (cx m + xd)) by lia.
  rewrite (to_int_small (cy m)) by (unfold INT_MAX in *; lia).
  rewrite (to_int_small (size (lines m))) by (unfold INT_MAX in *; lia).
  rewrite (to_int_small (len _)) by (unfold INT_MAX in *; lia).
  destruct (Z.eqb_spec (mvCursor_row yd m) (cy m)); cbn [negb andb]; [done|].
  destruct (Z.geb_spec (mvCursor_row yd m) 0); [|lia].
  destruct (Z.ltb_spec (mvCursor_row yd m) (size (lines m))); [done | lia].
Qed.

Lemma mvCursor_position (m : Melt) (xd yd : Z) :
  lines m <> [] -> lines_fit (lines m) ->
  0 <= cx m <= INT_MAX -> 0 <= cy m <= INT_MAX ->
  - 2 ^ 31 <= cx m + xd <= INT_MAX -> - 2 ^ 31 <= cy m + yd <= INT_MAX ->
  let row := Z.max 0 (Z.min (cy m + yd) (size (lines m) - 1)) in
  let col := if row =? cy m then cx m + xd
             else Z.min (cx m + xd) (len (line_at (lines m) row)) in
  (cx (mvCursor xd yd m), cy (mvCursor xd yd m)) =
    if col <? 0
    then if row >? 0 then (len (line_at (lines m) (row - 1)), row - 1) else (0, row)
    else if col >? len (line_at (lines m) row)
    then (0, if row <? size (lines m) - 1 then row + 1 else row)
    else (col, row).
Proof.
  intros Hne Hfit Hcx Hcy Hxd Hyd.
  rewrite mvCursor_cursor, mvCursor_target_eq by done. cbv zeta.
  rewrite mvCursor_col_plain by done.
  rewrite mvCursor_row_plain by (try done; apply Hfit). done.
Qed.

(** Corollaries for a cursor that is on the document. *)

Lemma size_nonempty (ls : list line) : 0 < size ls -> ls <> [].
Proof. unfold size. by destruct ls; [simpl; lia|]. Qed.

Lemma mvCursor_within_row (m : Melt) (xd : Z) :
  lines_fit (lines m) ->
  0 <= cy m < size (lines m) -> 0 <= cx m <= INT_MAX ->
  0 <= cx m + xd <= len (line_at (lines m) (cy m)) ->
  cx (mvCursor xd 0 m) = cx m + xd /\ cy (mvCursor xd 0 m) = cy m
  /\ lines (mvCursor xd 0 m) = lines m.
Proof.
  intros Hfit Hy Hx Hxd.
  assert (Hne : lines m <> []) by (apply size_nonempty; lia).
  pose proof (line_at_fits (lines m) (cy m) (proj2 Hfit)) as Hl.
  pose proof (proj1 Hfit) as Hsz.
  pose proof (mvCursor_position m xd 0 Hne Hfit) as Hpos. cbv zeta in Hpos.
  rewrite Z.add_0_r in Hpos.
  replace (Z.max 0 (Z.min (cy m) (size (lines m) - 1))) with (cy m) in Hpos by lia.
  rewrite Z.eqb_refl in Hpos.
  destruct (Z.ltb_spec (cx m + xd) 0); [lia|].
  destruct (Z.gtb_spec (cx m + xd) (len (line_at (lines m) (cy m)))); [lia|].
  specialize (Hpos ltac:(unfold INT_MAX in *; lia) ltac:(unfold INT_MAX in *; lia)
                   ltac:(unfold INT_MAX in *; lia) ltac:(unfold INT_MAX in *; lia)).
  injection Hpos as -> ->. by rewrite mvCursor_lines.
Qed.

Lemma mvCursor_row_change (m : Melt) (yd : Z) :
  lines_fit (lines m) ->
  0 <= cx m <= INT_MAX -> 0 <= cy m <= INT_MAX ->
  0 <= cy m + yd < size (lines m) -> yd <> 0 ->
  cy (mvCursor 0 yd m) = cy m + yd
  /\ cx (mvCursor 0 yd m) = Z.min (cx m) (len (line_at (lines m) (cy m + yd))).
Proof.
  intros Hfit Hx Hy Hyd Hnz.
  assert (Hne : lines m <> []) by (apply size_nonempty; lia).
  pose proof (len_nonneg (line_at (lines m) (cy m + yd))) as Hl'.
  pose proof (proj1 Hfit) as Hsz.
  pose proof (mvCursor_position m 0 yd Hne Hfit) as Hpos. cbv zeta in Hpos.
  rewrite Z.add_0_r in Hpos.
  replace (Z.max 0 (Z.min (cy m + yd) (size (lines m) - 1))) with (cy m + yd) in Hpos by lia.
  specialize (Hpos ltac:(unfold INT_MAX in *; lia) ltac:(unfold INT_MAX in *; lia)
                   ltac:(unfold INT_MAX in *; lia) ltac:(unfold INT_MAX in *; lia)).
  destruct (Z.eqb_spec (cy m + yd) (cy m)) as [Heq|Hne']; [lia|].
  destruct (Z.ltb_spec (Z.min (cx m) (len (line_at (lines m) (cy m + yd)))) 0); [lia|].
  destruct (Z.gtb_spec (Z.min (cx m) (len (line_at (lines m) (cy m + yd))))
              (len (line_at (lines m) (cy m + yd)))); [lia|].
  injection Hpos as -> ->. done.
Qed.

Lemma mvCursor_to_other_row (m : Melt) (yd : Z) :
  lines_fit (lines m) -> cursor_on_document m ->
  0 <= cy m + yd < size (lines m) ->
  cy (mvCursor 0 yd m) = cy m + yd
  /\ cx (mvCursor 0 yd m) = Z.min (cx m) (len (line_at (lines m) (cy m + yd))).
Proof.
  intros Hfit [Hy Hx] Hyd.
  assert (Hne : lines m <> []) by (apply size_nonempty; lia).
  pose proof (line_at_fits (lines m) (cy m) (proj2 Hfit)) as Hl.
  pose proof (len_nonneg (line_at (lines m) (cy m + yd))) as Hl'.
  pose proof (proj1 Hfit) as Hsz.
  pose proof (mvCursor_position m 0 yd Hne Hfit) as Hpos. cbv zeta in Hpos.
  rewrite Z.add_0_r in Hpos.
  replace (Z.max 0 (Z.min (cy m + yd) (size (lines m) - 1))) with (cy m + yd) in Hpos by lia.
  specialize (Hpos ltac:(unfold INT_MAX in *; lia) ltac:(unfold INT_MAX in *; lia)
                   ltac:(unfold INT_MAX in *; lia) ltac:(unfold INT_MAX in *; lia)).
  destruct (Z.eqb_spec (cy m + yd) (cy m)) as [Heq|Hne'].
  - rewrite Heq in *.
    destruct (Z.ltb_spec (cx m) 0); [lia|].
    destruct (Z.gtb_spec (cx m) (len (line_at (lines m) (cy m)))); [lia|].
    injection Hpos as -> ->. lia.
  - destruct (Z.ltb_spec (Z.min (cx m) (len (line_at (lines m) (cy m + yd)))) 0); [lia|].
    destruct (Z.gtb_spec (Z.min (cx m) (len (line_at (lines m) (cy m + yd))))
                (len (line_at (lines m) (cy m + yd)))); [lia|].
    injection Hpos as -> ->. done.
Qed.

Lemma mvCursor_before_start_of_row (m : Melt) (xd : Z) :
  lines_fit (lines m) -> cursor_on_document m ->
  - 2 ^ 31 <= cx m + xd < 0 ->
  (0 < cy m ->
     cx (mvCursor xd 0 m) = len (line_at (lines m) (cy m - 1))
     /\ cy (mvCursor xd 0 m) = cy m - 1)
  /\ (cy m = 0 -> cx (mvCursor xd 0 m) = 0 /\ cy (mvCursor xd 0 m) = 0).
Proof.
  intros Hfit [Hy Hx] Hxd.
  assert (Hne : lines m <> []) by (apply size_nonempty; lia).
  pose proof (line_at_fits (lines m) (cy m) (proj2 Hfit)) as Hl.
  pose proof (proj1 Hfit) as Hsz.
  pose proof (mvCursor_position m xd 0 Hne Hfit) as Hpos. cbv zeta in Hpos.
  rewrite Z.add_0_r in Hpos.
  replace (Z.max 0 (Z.min (cy m) (size (lines m) - 1))) with (cy m) in Hpos by lia.
  rewrite Z.eqb_refl in Hpos.
  destruct (Z.ltb_spec (cx m + xd) 0); [|lia].
  specialize (Hpos ltac:(unfold INT_MAX in *; lia) ltac:(unfold INT_MAX in *; lia)
                   ltac:(unfold INT_MAX in *; lia) ltac:(unfold INT_MAX in *; lia)).
  split; intros Hrow.
  - destruct (Z.gtb_spec (cy m) 0); [|lia]. by injection Hpos as -> ->.
  - destruct (Z.gtb_spec (cy m) 0); [lia|]. injection Hpos as -> ->. done.
Qed.

(** X14: [mvCursor] for a cursor on the document.  A move within the
    line goes where it is asked to; a move to another row keeps the column
    as far as that row reaches; a move to before the start of the line
    wraps to the end of the line above, and stays at the start on the
    first line. *)
Theorem mvCursor_moves_on_document (m : Melt) (xd yd : Z) :
  lines_fit (lines m) -> cursor_on_document m ->
  (0 <= cx m + xd <= len (line_at (lines m) (cy m)) ->
     cx (mvCursor xd 0 m) = cx m + xd /\ cy (mvCursor xd 0 m) = cy m)
  /\ (0 <= cy m + yd < size (lines m) ->
      cy (mvCursor 0 yd m) = cy m + yd
      /\ cx (mvCursor 0 yd m) = Z.min (cx m) (len (line_at (lines m) (cy m + yd))))
  /\ (- 2 ^ 31 <= cx m + xd < 0 ->
      (0 < cy m ->
         cx (mvCursor xd 0 m) = len (line_at (lines m) (cy m - 1))
         /\ cy (mvCursor xd 0 m) = cy m - 1)
      /\ (cy m = 0 -> cx (mvCursor xd 0 m) = 0 /\ cy (mvCursor xd 0 m) = 0)).
Proof.
  intros Hfit Hcur. split; [|split].
  - intros Hxd. destruct Hcur as [Hy Hx].
    pose proof (line_at_fits (lines m) (cy m) (proj2 Hfit)) as Hl.
    destruct (mvCursor_within_row m xd Hfit Hy ltac:(lia) Hxd) as (Hcx & Hcy & _).
    by split.
  - by apply mvCursor_to_other_row.
  - by apply mvCursor_before_start_of_row.
Qed.

(** * How far the viewport scrolls *)

Lemma set_cursor_id (m : Melt) : set_cursor (cx m) (cy m) m = m.
Proof. by destruct m. Qed.

(** X15: [scrollToFit] moves the viewport by the least amount vertically:
    up to the cursor row when it is above, down until the cursor row is
    the last one shown when it is below.  Horizontally it moves left to
    the cursor column when that is to the left; when the cursor is to
    the right it moves until the cursor column is the last one shown, or
    not at all.  A viewport that holds the cursor is left alone. *)
Theorem scrollToFit_shift (m : Melt) :
  0 <= cx m -> 0 <= cy m < size (lines m) ->
  0 <= ox m -> 0 <= oy m -> 1 <= ax m -> 1 <= ay m ->
  cx m <= INT_MAX -> size (lines m) <= INT_MAX ->
  ox m + ax m <= INT_MAX -> oy m + ay m <= INT_MAX ->
  oy (scrollToFit m) =
    (if cy m <? oy m then cy m
     else if cy m >=? oy m + ay m then cy m - ay m + 1 else oy m)
  /\ (cx m < ox m + ax m -> ox (scrollToFit m) = Z.min (cx m) (ox m))
  /\ (ox m + ax m <= cx m ->
      ox (scrollToFit m) = ox m \/ ox (scrollToFit m) = cx m - ax m + 1)
  /\ (cursor_in_viewport m -> scrollToFit m = m).
Proof.
  intros Hcx Hcy Hox Hoy Hax Hay Hcxm Hsz Hxfit Hyfit. unfold INT_MAX in *.
  unfold scrollToFit.
  match goal with |- context [if cy ?x <? _ then _ else _] => set (m1 := x) end.
  assert (H1 : lines m1 = lines m /\ cy m1 = cy m /\ oy m1 = oy m /\ ay m1 = ay m
               /\ (cx m < ox m + ax m -> ox m1 = Z.min (cx m) (ox m))
               /\ (ox m + ax m <= cx m -> ox m1 = ox m \/ ox m1 = cx m - ax m + 1)
               /\ (ox m <= cx m < ox m + ax m -> m1 = m)).
  { subst m1. destruct (Z.ltb_spec (cx m) (ox m)).
    - unfold scrollLeft. rewrite (to_unsigned_small (ox m - cx m)) by lia.
      destruct (Z.geb_spec (ox m) (ox m - cx m)); [|lia].
      cbn [lines cy oy ay ox set_ox]. rewrite to_unsigned_small by lia.
      repeat split; try done; lia.
    - rewrite (to_unsigned_small (ox m + ax m)) by lia.
      destruct (Z.geb_spec (cx m) (ox m + ax m)).
      + rewrite (to_unsigned_small (cx m - (ox m + ax m))) by lia.
        rewrite (to_unsigned_small (cx m - (ox m + ax m) + 1)) by lia.
        unfold scrollRight. destruct (front m); [repeat split; try done; lia|].
        rewrite (to_unsigned_small (ox m + _)) by lia.
        case_match; cbn [lines cy oy ay ox set_ox]; repeat split; try done; lia.
      + repeat split; try done; lia. }
  destruct H1 as (El & Ecy & Eoy & Eay & Hleft & Hright & Hsame).
  assert (H2 : oy (if cy m1 <? oy m1 then scrollUp (to_unsigned (oy m1 - cy m1)) m1
                   else if cy m1 >=? to_unsigned (oy m1 + ay m1)
                        then scrollDown (to_unsigned (to_unsigned
                               (cy m1 - to_unsigned (oy m1 + ay m1)) + 1)) m1
                        else m1)
               = (if cy m <? oy m then cy m
                  else if cy m >=? oy m + ay m then cy m - ay m + 1 else oy m)
               /\ ox (if cy m1 <? oy m1 then scrollUp (to_unsigned (oy m1 - cy m1)) m1
                      else if cy m1 >=? to_unsigned (oy m1 + ay m1)
                           then scrollDown (to_unsigned (to_unsigned
                                  (cy m1 - to_unsigned (oy m1 + ay m1)) + 1)) m1
                           else m1) = ox m1
               /\ (oy m <= cy m < oy m + ay m ->
                   (if cy m1 <? oy m1 then scrollUp (to_unsigned (oy m1 - cy m1)) m1
                    else if cy m1 >=? to_unsigned (oy m1 + ay m1)
                         then scrollDown (to_unsigned (to_unsigned
                                (cy m1 - to_unsigned (oy m1 + ay m1)) + 1)) m1
                         else m1) = m1)).
  { rewrite Ecy, Eoy, Eay.
    destruct (Z.ltb_spec (cy m) (oy m)).
    - unfold scrollUp. rewrite Eoy. rewrite (to_unsigned_small (oy m - cy m)) by lia.
      destruct (Z.geb_spec (oy m) (oy m - cy m)); [|lia].
      cbn [oy ox set_oy]. rewrite to_unsigned_small by lia.
      repeat split; try done; lia.
    - rewrite (to_unsigned_small (oy m + ay m)) by lia.
      destruct (Z.geb_spec (cy m) (oy m + ay m)).
      + rewrite (to_unsigned_small (cy m - (oy m + ay m))) by lia.
        rewrite (to_unsigned_small (cy m - (oy m + ay m) + 1)) by lia.
        unfold scrollDown. rewrite Eoy, El.
        rewrite (to_unsigned_small (oy m + _)) by lia.
        destruct (Z.ltb_spec (oy m + (cy m - (oy m + ay m) + 1)) (size (lines m))); [|lia].
        cbn [oy ox set_oy]. repeat split; try done; lia.
      + repeat split; try done; lia. }
  destruct H2 as (Hoy2 & Hox2 & Hsame2).
  split; [exact Hoy2|]. rewrite Hox2.
  split; [exact Hleft|]. split; [exact Hright|].
  intros [Hh Hv]. rewrite (Hsame2 Hv). by apply Hsame.
Qed.

(** * What the keys do in edit mode *)

Lemma line_at_insert (ls : list line) (y : Z) (v : line) :
  0 <= y < size ls -> line_at (<[Z.to_nat y := v]> ls) y = v.
Proof.
  intros Hy. unfold line_at, size in *. by rewrite list_lookup_insert_eq by lia.
Qed.

Lemma line_at_insert_ne (ls : list line) (y z : Z) (v : line) :
  0 <= y -> 0 <= z -> y <> z -> line_at (<[Z.to_nat y := v]> ls) z = line_at ls z.
Proof.
  intros Hy Hz Hne. unfold line_at. by rewrite list_lookup_insert_ne by lia.
Qed.

Lemma line_at_elem (ls : list line) (y : Z) :
  0 <= y < size ls -> line_at ls y ∈ ls.
Proof.
  intros Hy. unfold line_at, size in *.
  destruct (lookup_lt_is_Some_2 ls (Z.to_nat y) ltac:(lia)) as [l Hl].
  rewrite Hl. simpl. by eapply list_elem_of_lookup_2.
Qed.

Lemma lines_fit_insert (ls : list line) (y : Z) (v : line) :
  lines_fit ls -> len v <= INT_MAX -> lines_fit (<[Z.to_nat y := v]> ls).
Proof.
  intros [Hsz Hall] Hv. split; [by rewrite size_insert|].
  apply Forall_insert; done.
Qed.

Lemma insCh_lines (m : Melt) (x y : Z) (c : ascii) :
  0 <= y < size (lines m) -> 0 <= x <= len (line_at (lines m) y) ->
  lines (insCh x y c m) = <[Z.to_nat y := str_insert x c (line_at (lines m) y)]> (lines m).
Proof.
  intros Hy Hx. unfold insCh.
  replace (y <? size (lines m)) with true by (symmetry; apply Z.ltb_lt; lia).
  by replace (x <=? _) with true by (symmetry; apply Z.leb_le; lia).
Qed.

Lemma rmCh_lines (m : Melt) (x y : Z) :
  0 <= y < size (lines m) -> 0 <= x < len (line_at (lines m) y) ->
  lines (rmCh x y m) = <[Z.to_nat y := str_erase1 x (line_at (lines m) y)]> (lines m).
Proof.
  intros Hy Hx. unfold rmCh.
  replace (y <? size (lines m)) with true by (symmetry; apply Z.ltb_lt; lia).
  by replace (x <? _) with true by (symmetry; apply Z.ltb_lt; lia).
Qed.

Lemma len_str_insert (x : Z) (c : ascii) (s : line) :
  0 <= x <= len s -> len (str_insert x c s) = len s + 1.
Proof.
  intros Hx. unfold len, str_insert in *.
  rewrite length_app, length_take. simpl. rewrite length_drop. lia.
Qed.

Lemma str_erase1_insert (x : Z) (c : ascii) (s : line) :
  0 <= x <= len s -> str_erase1 x (str_insert x c s) = s.
Proof.
  intros Hx. unfold len, str_erase1, str_insert in *.
  rewrite take_app_le by (rewrite length_take; lia).
  rewrite take_take, Nat.min_id.
  rewrite drop_app_ge by (rewrite length_take; lia).
  rewrite length_take.
  replace (S (Z.to_nat x) - Z.to_nat x `min` length s)%nat with 1%nat by lia.
  simpl. rewrite drop_0. apply take_drop.
Qed.

Lemma insert_insert_same (ls : list line) (i : nat) (v w : line) :
  <[i := w]> (<[i := v]> ls) = <[i := w]> ls.
Proof. apply list_insert_insert_eq. Qed.

Lemma insert_line_at (ls : list line) (y : Z) :
  0 <= y < size ls -> <[Z.to_nat y := line_at ls y]> ls = ls.
Proof.
  intros Hy. unfold line_at, size in *.
  destruct (lookup_lt_is_Some_2 ls (Z.to_nat y) ltac:(lia)) as [l Hl].
  rewrite Hl. simpl. by apply list_insert_id.
Qed.

Lemma to_int_neg (z : Z) : 0 <= z <= INT_MAX -> to_int (to_size_t (- z)) = - z.
Proof.
  intros Hz. unfold to_int, to_size_t, INT_MAX in *.
  destruct (Z.eq_dec z 0) as [->|Hne]; [done|].
  replace (- z) with (2 ^ 64 - z + (-1) * 2 ^ 64) by lia.
  rewrite Z.mod_add by lia. rewrite (Z.mod_small (2 ^ 64 - z)) by lia.
  replace (2 ^ 64 - z + 2 ^ 31) with (2 ^ 31 - z + 2 ^ 32 * 2 ^ 32) by lia.
  rewrite Z.mod_add by lia. rewrite Z.mod_small by lia. lia.
Qed.

Lemma spLn_lines (m : Melt) (x y : Z) :
  size (lines m) < INT_MAX ->
  0 <= y < size (lines m) -> 0 <= x <= len (line_at (lines m) y) ->
  lines (spLn x y m)
    = take (Z.to_nat y) (lines m)
      ++ str_erase x (line_at (lines m) y) :: str_substr x (line_at (lines m) y)
      :: drop (S (Z.to_nat y)) (lines m).
Proof.
  intros Hsz Hy Hx. unfold spLn.
  replace (y <? size (lines m)) with true by (symmetry; apply Z.ltb_lt; lia).
  replace (x <=? _) with true by (symmetry; apply Z.leb_le; lia).
  cbn [andb]. unfold insLn. cbn [lines set_lines]. rewrite size_insert.
  rewrite to_unsigned_small by (unfold INT_MAX in *; lia).
  replace (y + 1 <=? size (lines m)) with true by (symmetry; apply Z.leb_le; lia).
  cbn [lines set_lines]. unfold vec_insert.
  replace (Z.to_nat (y + 1)) with (S (Z.to_nat y)) by lia.
  destruct (lookup_lt_is_Some_2 (lines m) (Z.to_nat y) ltac:(unfold size in *; lia))
    as [l Hl].
  rewrite (take_S_r _ _ (str_erase x (line_at (lines m) y))).
  2:{ apply list_lookup_insert_eq. unfold size in *. lia. }
  rewrite take_insert_ge by lia. rewrite drop_insert_lt by lia.
  by rewrite <- app_assoc.
Qed.

Lemma jnLn_lines (m : Melt) (y : Z) :
  size (lines m) <= INT_MAX ->
  0 <= y < size (lines m) - 1 ->
  lines (jnLn y m)
    = take (Z.to_nat y) (lines m)
      ++ (line_at (lines m) y ++ line_at (lines m) (y + 1))
      :: drop (S (S (Z.to_nat y))) (lines m).
Proof.
  intros Hsz Hy. unfold jnLn.
  rewrite to_size_t_small by (unfold INT_MAX in *; lia).
  replace (y <? size (lines m) - 1) with true by (symmetry; apply Z.ltb_lt; lia).
  rewrite to_unsigned_small by (unfold INT_MAX in *; lia).
  unfold rmLn. cbn [lines set_lines]. rewrite size_insert.
  replace (y + 1 <? size (lines m)) with true by (symmetry; apply Z.ltb_lt; lia).
  cbn [lines set_lines]. unfold vec_erase.
  rewrite delete_take_drop.
  replace (Z.to_nat (y + 1)) with (S (Z.to_nat y)) by lia.
  rewrite (take_S_r _ _ (line_at (lines m) y ++ line_at (lines m) (y + 1))).
  2:{ apply list_lookup_insert_eq. unfold size in *. lia. }
  rewrite take_insert_ge by lia. rewrite drop_insert_lt by lia.
  by rewrite <- app_assoc.
Qed.

Lemma line_at_app_middle (pre post : list line) (l : line) (y : Z) :
  y = Z.of_nat (length pre) -> line_at (pre ++ l :: post) y = l.
Proof. intros ->. apply line_at_middle. Qed.

Lemma edit_keeps_cursor (m : Melt) (x y : Z) (c : ascii) :
  (cx (insCh x y c m) = cx m /\ cy (insCh x y c m) = cy m /\ edmode (insCh x y c m) = edmode m)
  /\ (cx (rmCh x y m) = cx m /\ cy (rmCh x y m) = cy m /\ edmode (rmCh x y m) = edmode m)
  /\ (cx (jnLn y m) = cx m /\ cy (jnLn y m) = cy m /\ edmode (jnLn y m) = edmode m)
  /\ (cx (spLn x y m) = cx m /\ cy (spLn x y m) = cy m /\ edmode (spLn x y m) = edmode m)
  /\ (cx (rmLn y m) = cx m /\ cy (rmLn y m) = cy m /\ edmode (rmLn y m) = edmode m).
Proof.
  destruct (edits_set_lines m x y c []) as (E1 & E2 & _ & E4 & E5 & E6).
  split; [rewrite E1 | split; [rewrite E2 | split; [rewrite E5 | split; [rewrite E6 | rewrite E4]]]];
    cbn [cx cy edmode set_lines]; done.
Qed.

Lemma set_fstate_fields (v : Z) (m : Melt) :
  cx (set_fstate v m) = cx m /\ cy (set_fstate v m) = cy m
  /\ fstate (set_fstate v m) = v /\ edmode (set_fstate v m) = edmode m.
Proof. done. Qed.

Lemma mvCursor_edmode (xd yd : Z) (m : Melt) : edmode (mvCursor xd yd m) = edmode m.
Proof. destruct (mvCursor_frame xd yd m) as (x & y & vx & vy & ->). done. Qed.

Ltac set_fstate_simpl :=
  rewrite ?set_fstate_lines,
    ?(proj1 (set_fstate_fields _ _)),
    ?(proj1 (proj2 (set_fstate_fields _ _))),
    ?(proj1 (proj2 (proj2 (set_fstate_fields _ _)))),
    ?(proj2 (proj2 (proj2 (set_fstate_fields _ _)))).

Lemma key_other_effect (ch : Z) (m : Melt) :
  edmode m = 0 -> 32 <= ch <= 126 ->
  lines_fit (lines m) -> cursor_on_document m ->
  len (line_at (lines m) (cy m)) < INT_MAX ->
  lines (key_other ch m)
    = <[Z.to_nat (cy m) := str_insert (cx m) (char_of ch) (line_at (lines m) (cy m))]> (lines m)
  /\ cx (key_other ch m) = cx m + 1 /\ cy (key_other ch m) = cy m
  /\ fstate (key_other ch m) = 2 /\ edmode (key_other ch m) = 0.
Proof.
  intros Hmode Hch Hfit [Hy Hx] Hroom. unfold key_other.
  replace ((ch >=? 32) && (ch <=? 126)) with true
    by (symmetry; apply andb_true_iff; split; [apply Z.geb_le | apply Z.leb_le]; lia).
  rewrite Hmode. cbn [Z.eqb].
  set (m1 := insCh (cx m) (cy m) (char_of ch) m).
  assert (Hl1 : lines m1 = <[Z.to_nat (cy m) :=
                  str_insert (cx m) (char_of ch) (line_at (lines m) (cy m))]> (lines m))
    by (by apply insCh_lines).
  destruct (edit_keeps_cursor m (cx m) (cy m) (char_of ch)) as ((Ecx & Ecy & Eed) & _).
  fold m1 in Ecx, Ecy, Eed.
  assert (Hline : line_at (lines m1) (cy m1)
                  = str_insert (cx m) (char_of ch) (line_at (lines m) (cy m))).
  { rewrite Hl1, Ecy. by apply line_at_insert. }
  assert (Hne1 : lines m1 <> []).
  { apply nonempty_length. rewrite Hl1, length_insert. unfold size in Hy. lia. }
  assert (Hfit1 : lines_fit (lines m1)).
  { rewrite Hl1. apply lines_fit_insert; [done|]. rewrite len_str_insert by done. lia. }
  pose proof (line_at_fits (lines m) (cy m) (proj2 Hfit)) as Hlfit.
  destruct (mvCursor_within_row m1 1 Hfit1) as (Hcx & Hcy & Hls).
  - by rewrite Ecy, Hl1, size_insert.
  - rewrite Ecx. lia.
  - rewrite Hline, Ecx, len_str_insert by done. lia.
  - set_fstate_simpl. rewrite mvCursor_edmode, Hcx, Hcy, Hls, Ecx, Ecy, Hl1, Eed.
    repeat split; done.
Qed.

Lemma backspace_in_row (m : Melt) :
  edmode m = 0 ->
  lines_fit (lines m) -> cursor_on_document m ->
  0 < cx m ->
  lines (key_backspace m)
    = <[Z.to_nat (cy m) := str_erase1 (cx m - 1) (line_at (lines m) (cy m))]> (lines m)
  /\ cx (key_backspace m) = cx m - 1 /\ cy (key_backspace m) = cy m.
Proof.
  intros Hmode [Hsz Hall] [Hy Hx] Hpos. unfold key_backspace. rewrite Hmode. cbn [Z.eqb].
  pose proof (line_at_fits (lines m) (cy m) Hall) as Hlfit.
  replace ((cx m =? 0) && (cy m >? 0)) with false.
  2:{ symmetry. apply andb_false_iff. left. apply Z.eqb_neq. lia. }
  replace (cx m >? 0) with true by (symmetry; apply Z.gtb_lt; lia).
  rewrite to_unsigned_small by (unfold INT_MAX in *; lia).
  set (m1 := rmCh (cx m - 1) (cy m) m).
  assert (Hl1 : lines m1 = <[Z.to_nat (cy m) :=
                  str_erase1 (cx m - 1) (line_at (lines m) (cy m))]> (lines m))
    by (apply rmCh_lines; lia).
  destruct (edit_keeps_cursor m (cx m - 1) (cy m) SPACE) as (_ & (Ecx & Ecy & _) & _).
  fold m1 in Ecx, Ecy.
  assert (Hlen1 : len (str_erase1 (cx m - 1) (line_at (lines m) (cy m)))
                  = len (line_at (lines m) (cy m)) - 1).
  { unfold len, str_erase1 in *. rewrite length_app, length_take, length_drop. lia. }
  destruct (mvCursor_within_row m1 (-1)) as (Hcx1 & Hcy1 & Hls1).
  + rewrite Hl1. apply lines_fit_insert; [done|]. lia.
  + by rewrite Ecy, Hl1, size_insert.
  + rewrite Ecx. lia.
  + rewrite Ecx, Ecy, Hl1, line_at_insert, Hlen1 by done. lia.
  + set_fstate_simpl. rewrite Hls1, Hcx1, Hcy1, Hl1, Ecx, Ecy.
    split; [reflexivity|]. split; [lia|reflexivity].
Qed.

Lemma backspace_joins_rows (m : Melt) :
  edmode m = 0 ->
  lines_fit (lines m) -> cursor_on_document m ->
  cx m = 0 -> 0 < cy m ->
  len (line_at (lines m) (cy m - 1)) + len (line_at (lines m) (cy m)) <= INT_MAX ->
  lines (key_backspace m)
    = take (Z.to_nat (cy m - 1)) (lines m)
      ++ (line_at (lines m) (cy m - 1) ++ line_at (lines m) (cy m))
      :: drop (S (Z.to_nat (cy m))) (lines m)
  /\ cx (key_backspace m) = len (line_at (lines m) (cy m - 1))
  /\ cy (key_backspace m) = cy m - 1.
Proof.
  intros Hmode [Hsz Hall] [Hy Hx] Hcx0 Hcy0 Hroom.
  unfold key_backspace. rewrite Hmode. cbn [Z.eqb].
  pose proof (line_at_fits (lines m) (cy m) Hall) as Hlfit.
  rewrite Hcx0. cbn [Z.eqb andb].
  replace (cy m >? 0) with true by (symmetry; apply Z.gtb_lt; lia).
  rewrite (to_unsigned_small (cy m - 1)) by (unfold INT_MAX in *; lia).
  pose proof (line_at_fits (lines m) (cy m - 1) Hall) as Hpfit.
  rewrite (to_unsigned_small (len _)) by (unfold INT_MAX in *; lia).
  rewrite to_int_small by (unfold INT_MAX in *; lia).
  set (m1 := jnLn (cy m - 1) m).
  pose proof (jnLn_lines m (cy m - 1) Hsz ltac:(lia)) as Hl1. fold m1 in Hl1.
  replace (cy m - 1 + 1) with (cy m) in Hl1 by lia.
  replace (S (S (Z.to_nat (cy m - 1)))) with (S (Z.to_nat (cy m))) in Hl1 by lia.
  destruct (edit_keeps_cursor m 0 (cy m - 1) SPACE) as (_ & _ & (Ecx & Ecy & _) & _).
  fold m1 in Ecx, Ecy.
  set (prev := line_at (lines m) (cy m - 1)) in *.
  set (cur := line_at (lines m) (cy m)) in *.
  set (pre := take (Z.to_nat (cy m - 1)) (lines m)) in *.
  set (post := drop (S (Z.to_nat (cy m))) (lines m)) in *.
  assert (Hpre : Z.of_nat (length pre) = cy m - 1).
  { subst pre. rewrite length_take. unfold size in *. lia. }
  assert (Hpost : Z.of_nat (length post) = size (lines m) - cy m - 1).
  { subst post. rewrite length_drop. unfold size in *. lia. }
  assert (Hsz1 : size (lines m1) = size (lines m) - 1).
  { rewrite Hl1. unfold size. rewrite length_app. simpl. unfold size in Hpost. lia. }
  assert (Hfit1 : lines_fit (lines m1)).
  { split; [lia|]. rewrite Hl1. apply Forall_app. split.
    - subst pre. by apply Forall_take.
    - constructor; [rewrite len_app; lia|]. subst post. by apply Forall_drop. }
  assert (Hrow : line_at (lines m1) (cy m - 1) = prev ++ cur).
  { rewrite Hl1. by apply line_at_app_middle. }
  destruct (mvCursor_row_change m1 (-1) Hfit1) as (Hcy2 & Hcx2).
  + rewrite Ecx, Hcx0. unfold INT_MAX. lia.
  + rewrite Ecy. lia.
  + rewrite Ecy, Hsz1. lia.
  + lia.
  + set (m2 := mvCursor 0 (-1) m1) in *.
    rewrite Ecx, Hcx0 in Hcx2. rewrite Ecy in Hcy2, Hcx2.
    replace (cy m + -1) with (cy m - 1) in Hcy2, Hcx2 by lia.
    rewrite Hrow in Hcx2.
    assert (Hcx2' : cx m2 = 0) by (rewrite Hcx2; pose proof (len_nonneg (prev ++ cur)); lia).
    assert (Hl2 : lines m2 = lines m1) by apply mvCursor_lines.
    destruct (mvCursor_within_row m2 (len prev)) as (Hcx3 & Hcy3 & Hls3).
    * by rewrite Hl2.
    * rewrite Hcy2, Hl2, Hsz1. lia.
    * rewrite Hcx2'. unfold INT_MAX. lia.
    * rewrite Hcx2', Hcy2, Hl2, Hrow, len_app. pose proof (len_nonneg cur). lia.
    * set_fstate_simpl. rewrite Hls3, Hcx3, Hcy3, Hl2, Hl1, Hcx2', Hcy2.
      split; [reflexivity|]. split; [lia|reflexivity].
Qed.

Lemma backspace_at_origin (m : Melt) :
  edmode m = 0 -> cx m = 0 -> cy m = 0 -> key_backspace m = set_fstate 2 m.
Proof.
  intros Hmode Hx Hy. unfold key_backspace. rewrite Hmode, Hx, Hy. reflexivity.
Qed.

Section Keys.

Variable char_signed : bool.
Variable can_write : line -> bool.

Lemma key_enter_effect (fuel : nat) (m : Melt) :
  edmode m = 0 ->
  lines_fit (lines m) -> cursor_on_document m ->
  size (lines m) < INT_MAX ->
  exists m',
    key_enter char_signed can_write fuel m = Some m'
    /\ lines m' = take (Z.to_nat (cy m)) (lines m)
                  ++ str_erase (cx m) (line_at (lines m) (cy m))
                  :: str_substr (cx m) (line_at (lines m) (cy m))
                  :: drop (S (Z.to_nat (cy m))) (lines m)
    /\ cx m' = 0 /\ cy m' = cy m + 1 /\ fstate m' = 2 /\ edmode m' = 0.
Proof.
  intros Hmode [Hsz Hall] [Hy Hx] Hroom. unfold key_enter. rewrite Hmode. cbn [Z.eqb].
  eexists. split; [reflexivity|].
  set (m1 := spLn (cx m) (cy m) m).
  pose proof (spLn_lines m (cx m) (cy m) Hroom Hy Hx) as Hl1. fold m1 in Hl1.
  destruct (edit_keeps_cursor m (cx m) (cy m) SPACE) as (_ & _ & _ & (Ecx & Ecy & Eed) & _).
  fold m1 in Ecx, Ecy, Eed.
  pose proof (line_at_fits (lines m) (cy m) Hall) as Hlfit.
  set (l := line_at (lines m) (cy m)) in *.
  set (pre := take (Z.to_nat (cy m)) (lines m)) in *.
  set (post := drop (S (Z.to_nat (cy m))) (lines m)) in *.
  assert (Hpre : Z.of_nat (length pre) = cy m).
  { subst pre. rewrite length_take. unfold size in *. lia. }
  assert (Hpost : Z.of_nat (length post) = size (lines m) - cy m - 1).
  { subst post. rewrite length_drop. unfold size in *. lia. }
  assert (Herase : len (str_erase (cx m) l) = cx m).
  { unfold len, str_erase in *. rewrite length_take. lia. }
  assert (Hsub : len (str_substr (cx m) l) = len l - cx m).
  { unfold len, str_substr in *. rewrite length_drop. lia. }
  assert (Hsz1 : size (lines m1) = size (lines m) + 1).
  { rewrite Hl1. unfold size. rewrite length_app. simpl. unfold size in Hpost. lia. }
  assert (Hfit1 : lines_fit (lines m1)).
  { split; [lia|]. rewrite Hl1. apply Forall_app. split.
    - subst pre. by apply Forall_take.
    - constructor; [lia|]. constructor; [lia|]. subst post. by apply Forall_drop. }
  assert (Hrow : line_at (lines m1) (cy m1) = str_erase (cx m) l).
  { rewrite Hl1, Ecy. by apply line_at_app_middle. }
  assert (Hnext : line_at (lines m1) (cy m + 1) = str_substr (cx m) l).
  { rewrite Hl1.
    replace (pre ++ str_erase (cx m) l :: str_substr (cx m) l :: post)
      with ((pre ++ [str_erase (cx m) l]) ++ str_substr (cx m) l :: post)
      by (by rewrite <- app_assoc).
    apply line_at_app_middle. rewrite length_app. simpl. lia. }
  rewrite Hrow, Herase, to_int_neg by lia.
  pose proof (mvCursor_position m1 (- cx m) 1) as Hpos. cbv zeta in Hpos.
  rewrite Ecx, Ecy, Hsz1 in Hpos.
  replace (Z.max 0 (Z.min (cy m + 1) (size (lines m) + 1 - 1))) with (cy m + 1) in Hpos by lia.
  replace (cy m + 1 =? cy m) with false in Hpos by (symmetry; apply Z.eqb_neq; lia).
  rewrite Hnext, Hsub in Hpos.
  replace (Z.min (cx m + - cx m) (len l - cx m)) with 0 in Hpos by lia.
  cbn [Z.ltb Z.compare] in Hpos.
  replace (0 >? len l - cx m) with false in Hpos by (symmetry; rewrite Z.gtb_ltb; apply Z.ltb_ge; lia).
  specialize (Hpos ltac:(apply size_nonempty; lia) Hfit1
                   ltac:(unfold INT_MAX in *; lia) ltac:(unfold INT_MAX in *; lia)
                   ltac:(unfold INT_MAX in *; lia) ltac:(unfold INT_MAX in *; lia)).
  injection Hpos as Hcx Hcy.
  set_fstate_simpl. rewrite mvCursor_lines, mvCursor_edmode, Hcx, Hcy, Eed.
  repeat split; done.
Qed.

Lemma backspace_after_enter (fuel : nat) (m m' : Melt) :
  edmode m = 0 ->
  lines_fit (lines m) -> cursor_on_document m ->
  size (lines m) < INT_MAX ->
  key_enter char_signed can_write fuel m = Some m' ->
  lines (key_backspace m') = lines m
  /\ cx (key_backspace m') = cx m /\ cy (key_backspace m') = cy m.
Proof.
  intros Hmode Hfit Hcur Hroom Hent.
  destruct (key_enter_effect fuel m Hmode Hfit Hcur Hroom)
    as (m1 & Hent1 & Hl1 & Hcx1 & Hcy1 & _ & Hed1).
  rewrite Hent in Hent1. injection Hent1 as <-.
  destruct Hfit as [Hsz Hall]. destruct Hcur as [Hy Hx].
  pose proof (line_at_fits (lines m) (cy m) Hall) as Hlfit.
  set (l := line_at (lines m) (cy m)) in *.
  set (pre := take (Z.to_nat (cy m)) (lines m)) in *.
  set (post := drop (S (Z.to_nat (cy m))) (lines m)) in *.
  assert (Hpre : Z.of_nat (length pre) = cy m).
  { subst pre. rewrite length_take. unfold size in *. lia. }
  assert (Hpost : Z.of_nat (length post) = size (lines m) - cy m - 1).
  { subst post. rewrite length_drop. unfold size in *. lia. }
  assert (Herase : len (str_erase (cx m) l) = cx m).
  { unfold len, str_erase in *. rewrite length_take. lia. }
  assert (Hsub : len (str_substr (cx m) l) = len l - cx m).
  { unfold len, str_substr in *. rewrite length_drop. lia. }
  assert (Hsz1 : size (lines m') = size (lines m) + 1).
  { rewrite Hl1. unfold size. rewrite length_app. simpl. unfold size in Hpost. lia. }
  assert (Hfit1 : lines_fit (lines m')).
  { split; [lia|]. rewrite Hl1. apply Forall_app. split.
    - subst pre. by apply Forall_take.
    - constructor; [lia|]. constructor; [lia|]. subst post. by apply Forall_drop. }
  assert (Hrow : line_at (lines m') (cy m) = str_erase (cx m) l).
  { rewrite Hl1. by apply line_at_app_middle. }
  assert (Hnext : line_at (lines m') (cy m + 1) = str_substr (cx m) l).
  { rewrite Hl1.
    replace (pre ++ str_erase (cx m) l :: str_substr (cx m) l :: post)
      with ((pre ++ [str_erase (cx m) l]) ++ str_substr (cx m) l :: post)
      by (by rewrite <- app_assoc).
    apply line_at_app_middle. rewrite length_app. simpl. lia. }
  destruct (backspace_joins_rows m' Hed1 Hfit1) as (Hl2 & Hcx2 & Hcy2).
  { split; rewrite Hcy1, ?Hcx1, ?Hsz1; [lia|]. split; [done | apply len_nonneg]. }
  { done. }
  { lia. }
  { rewrite Hcy1. replace (cy m + 1 - 1) with (cy m) by lia. rewrite Hrow, Hnext. lia. }
  rewrite Hcy1 in Hl2, Hcx2, Hcy2. replace (cy m + 1 - 1) with (cy m) in * by lia.
  rewrite Hrow in Hl2, Hcx2. rewrite Hnext in Hl2.
  rewrite Hl2, Hcx2, Hcy2, Herase. split; [|done].
  unfold str_erase, str_substr. rewrite take_drop.
  rewrite Hl1. fold pre.
  replace (take (Z.to_nat (cy m)) (pre ++ str_erase (cx m) l :: str_substr (cx m) l :: post))
    with pre.
  2:{ rewrite take_app_le by lia. rewrite take_ge by lia. done. }
  replace (S (Z.to_nat (cy m + 1))) with (length pre + 2)%nat by lia.
  rewrite drop_app_ge by lia.
  replace (length pre + 2 - length pre)%nat with 2%nat by lia. cbn [drop].
  subst pre post l. unfold line_at.
  destruct (lookup_lt_is_Some_2 (lines m) (Z.to_nat (cy m)) ltac:(unfold size in *; lia))
    as [l0 Hl0].
  rewrite Hl0. cbn [default]. by apply take_drop_middle.
Qed.

End Keys.

(** X16: typing a printable character in edit mode puts it into the current
    line at the cursor and moves the cursor one column to the right;
    Backspace pressed next gives back the document and the cursor. *)
Theorem typing_inserts_character (ch : Z) (m : Melt) :
  edmode m = 0 -> 32 <= ch <= 126 ->
  lines_fit (lines m) -> cursor_on_document m ->
  len (line_at (lines m) (cy m)) < INT_MAX ->
  (lines (key_other ch m)
     = <[Z.to_nat (cy m) := str_insert (cx m) (char_of ch) (line_at (lines m) (cy m))]> (lines m)
   /\ cx (key_other ch m) = cx m + 1 /\ cy (key_other ch m) = cy m
   /\ fstate (key_other ch m) = 2 /\ edmode (key_other ch m) = 0)
  /\ lines (key_backspace (key_other ch m)) = lines m
  /\ cx (key_backspace (key_other ch m)) = cx m
  /\ cy (key_backspace (key_other ch m)) = cy m.
Proof.
  intros Hmode Hch Hfit Hcur Hroom.
  pose proof (key_other_effect ch m Hmode Hch Hfit Hcur Hroom) as Heff.
  split; [exact Heff|].
  destruct Heff as (Hl & Hcx & Hcy & _ & Hed). destruct Hcur as [Hy Hx].
  pose proof (line_at_fits (lines m) (cy m) (proj2 Hfit)) as Hlfit.
  set (m1 := key_other ch m) in *.
  assert (Hline : line_at (lines m1) (cy m1)
                  = str_insert (cx m) (char_of ch) (line_at (lines m) (cy m))).
  { rewrite Hl, Hcy. by apply line_at_insert. }
  destruct (backspace_in_row m1 Hed) as (Hl2 & Hcx2 & Hcy2).
  - rewrite Hl. apply lines_fit_insert; [done|]. rewrite len_str_insert by done. lia.
  - split; [by rewrite Hcy, Hl, size_insert|].
    rewrite Hline, Hcx, len_str_insert by done. lia.
  - lia.
  - rewrite Hl2, Hcx2, Hcy2, Hline, Hcx, Hcy.
    replace (cx m + 1 - 1) with (cx m) by lia.
    rewrite str_erase1_insert by done. rewrite Hl, insert_insert_same.
    split; [by apply insert_line_at | done].
Qed.

(** X17: Backspace in edit mode: inside a line it removes the character before
    the cursor; at the start of a line other than the first it joins the
    line to the one above and puts the cursor at the seam; at the start of
    the first line it changes nothing but the modified flag. *)
Theorem backspace_effect (m : Melt) :
  edmode m = 0 ->
  lines_fit (lines m) -> cursor_on_document m ->
  (0 < cx m ->
     lines (key_backspace m)
       = <[Z.to_nat (cy m) := str_erase1 (cx m - 1) (line_at (lines m) (cy m))]> (lines m)
     /\ cx (key_backspace m) = cx m - 1 /\ cy (key_backspace m) = cy m)
  /\ (cx m = 0 -> 0 < cy m ->
      len (line_at (lines m) (cy m - 1)) + len (line_at (lines m) (cy m)) <= INT_MAX ->
      lines (key_backspace m)
        = take (Z.to_nat (cy m - 1)) (lines m)
          ++ (line_at (lines m) (cy m - 1) ++ line_at (lines m) (cy m))
          :: drop (S (Z.to_nat (cy m))) (lines m)
      /\ cx (key_backspace m) = len (line_at (lines m) (cy m - 1))
      /\ cy (key_backspace m) = cy m - 1)
  /\ (cx m = 0 -> cy m = 0 -> key_backspace m = set_fstate 2 m).
Proof.
  intros Hmode Hfit Hcur. split; [|split].
  - by apply backspace_in_row.
  - by apply backspace_joins_rows.
  - by apply backspace_at_origin.
Qed.

Section Enter.

Variable char_signed : bool.
Variable can_write : line -> bool.

(** X18: Enter in edit mode splits the current line at the cursor and puts the
    cursor at the start of the new line below; Backspace pressed next
    gives back the document and the cursor. *)
Theorem enter_splits_line (fuel : nat) (m : Melt) :
  edmode m = 0 ->
  lines_fit (lines m) -> cursor_on_document m ->
  size (lines m) < INT_MAX ->
  exists m',
    key_enter char_signed can_write fuel m = Some m'
    /\ lines m' = take (Z.to_nat (cy m)) (lines m)
                  ++ str_erase (cx m) (line_at (lines m) (cy m))
                  :: str_substr (cx m) (line_at (lines m) (cy m))
                  :: drop (S (Z.to_nat (cy m))) (lines m)
    /\ cx m' = 0 /\ cy m' = cy m + 1 /\ fstate m' = 2 /\ edmode m' = 0
    /\ lines (key_backspace m') = lines m
    /\ cx (key_backspace m') = cx m /\ cy (key_backspace m') = cy m.
Proof.
  intros Hmode Hfit Hcur Hroom.
  destruct (key_enter_effect char_signed can_write fuel m Hmode Hfit Hcur Hroom)
    as (m' & Hent & Hl & Hcx & Hcy & Hfs & Hed).
  exists m'. repeat (split; [done|]).
  by apply (backspace_after_enter char_signed can_write fuel m m').
Qed.

End Enter.

(** * The arrow keys, Tab and the [d] command *)

Lemma to_int_unsigned_neg (z : Z) : 0 <= z <= INT_MAX -> to_int (to_unsigned (- z)) = - z.
Proof.
  intros Hz. unfold to_int, to_unsigned, INT_MAX in *.
  destruct (Z.eq_dec z 0) as [->|Hne]; [done|].
  replace (- z) with (2 ^ 32 - z + (-1) * 2 ^ 32) by lia.
  rewrite Z.mod_add by lia. rewrite (Z.mod_small (2 ^ 32 - z)) by lia.
  replace (2 ^ 32 - z + 2 ^ 31) with (2 ^ 31 - z + 1 * 2 ^ 32) by lia.
  rewrite Z.mod_add by lia. rewrite Z.mod_small by lia. lia.
Qed.

Lemma key_left_cursor (m : Melt) :
  edmode m = 0 -> lines_fit (lines m) -> cursor_on_document m ->
  cx (key_left m) = Z.max 0 (cx m - 1) /\ cy (key_left m) = cy m.
Proof.
  intros Hmode Hfit [Hy Hx]. unfold key_left. rewrite Hmode. cbn [Z.eqb andb].
  pose proof (line_at_fits (lines m) (cy m) (proj2 Hfit)) as Hl.
  destruct (Z.gtb_spec (cx m) 0) as [Hpos|Hzero].
  - destruct (mvCursor_within_row m (-1) Hfit Hy) as (-> & -> & _); lia.
  - split; [lia|done].
Qed.

Lemma key_right_cursor (m : Melt) :
  edmode m = 0 -> lines_fit (lines m) -> cursor_on_document m ->
  cx (key_right m) = Z.min (len (line_at (lines m) (cy m))) (cx m + 1)
  /\ cy (key_right m) = cy m.
Proof.
  intros Hmode Hfit [Hy Hx]. unfold key_right. rewrite Hmode. cbn [Z.eqb andb].
  pose proof (line_at_fits (lines m) (cy m) (proj2 Hfit)) as Hl.
  destruct (Z.ltb_spec (cx m) (len (line_at (lines m) (cy m)))) as [Hlt|Hge].
  - destruct (mvCursor_within_row m 1 Hfit Hy) as (-> & -> & _); lia.
  - split; [lia|done].
Qed.

Lemma key_up_cursor (m : Melt) :
  edmode m = 0 -> lines_fit (lines m) -> cursor_on_document m ->
  cy (key_up m) = Z.max 0 (cy m - 1)
  /\ cx (key_up m) = if cy m =? 0 then 0
                     else Z.min (cx m) (len (line_at (lines m) (cy m - 1))).
Proof.
  intros Hmode Hfit [Hy Hx]. unfold key_up. rewrite Hmode. cbn [Z.eqb].
  pose proof (line_at_fits (lines m) (cy m) (proj2 Hfit)) as Hl.
  pose proof (proj1 Hfit) as Hsz.
  destruct (Z.eqb_spec (cy m) 0) as [Hzero|Hpos].
  - rewrite to_int_unsigned_neg by lia.
    destruct (mvCursor_within_row m (- cx m) Hfit Hy) as (-> & -> & _); lia.
  - destruct (mvCursor_row_change m (-1) Hfit) as (-> & ->); try lia.
    replace (cy m + -1) with (cy m - 1) by lia. split; [lia|done].
Qed.

Lemma key_down_cursor (m : Melt) :
  edmode m = 0 -> lines_fit (lines m) -> cursor_on_document m ->
  cy (key_down m) = Z.min (size (lines m) - 1) (cy m + 1)
  /\ cx (key_down m) = if cy m =? size (lines m) - 1
                       then len (line_at (lines m) (cy m))
                       else Z.min (cx m) (len (line_at (lines m) (cy m + 1))).
Proof.
  intros Hmode Hfit [Hy Hx]. unfold key_down. rewrite Hmode. cbn [Z.eqb].
  pose proof (line_at_fits (lines m) (cy m) (proj2 Hfit)) as Hl.
  pose proof (proj1 Hfit) as Hsz.
  rewrite to_size_t_small by (unfold INT_MAX in *; lia).
  destruct (Z.eqb_spec (cy m) (size (lines m) - 1)) as [Hlast|Hmid].
  - rewrite to_size_t_small by (unfold INT_MAX in *; lia).
    rewrite to_int_small by (unfold INT_MAX in *; lia).
    destruct (mvCursor_within_row m (len (line_at (lines m) (cy m)) - cx m) Hfit Hy)
      as (-> & -> & _); lia.
  - destruct (mvCursor_row_change m 1 Hfit) as (-> & ->); lia.
Qed.

(** X19: the arrow keys in edit mode, for a cursor on the document: Left and
    Right stop at the ends of the line, Up on the first line goes to its
    start and Down on the last line to its end; Up and Down otherwise keep
    the column as far as the other line reaches.  None changes the lines. *)
Theorem arrow_keys_move_cursor (m : Melt) :
  edmode m = 0 -> lines_fit (lines m) -> cursor_on_document m ->
  (cx (key_left m) = Z.max 0 (cx m - 1) /\ cy (key_left m) = cy m)
  /\ (cx (key_right m) = Z.min (len (line_at (lines m) (cy m))) (cx m + 1)
      /\ cy (key_right m) = cy m)
  /\ (cy (key_up m) = Z.max 0 (cy m - 1)
      /\ cx (key_up m) = if cy m =? 0 then 0
                         else Z.min (cx m) (len (line_at (lines m) (cy m - 1))))
  /\ (cy (key_down m) = Z.min (size (lines m) - 1) (cy m + 1)
      /\ cx (key_down m) = if cy m =? size (lines m) - 1
                           then len (line_at (lines m) (cy m))
                           else Z.min (cx m) (len (line_at (lines m) (cy m + 1))))
  /\ lines (key_left m) = lines m /\ lines (key_right m) = lines m
  /\ lines (key_up m) = lines m /\ lines (key_down m) = lines m.
Proof.
  intros Hmode Hfit Hcur.
  split; [by apply key_left_cursor|].
  split; [by apply key_right_cursor|].
  split; [by apply key_up_cursor|].
  split; [by apply key_down_cursor|].
  split; [apply key_left_lines|].
  split; [apply key_right_lines|].
  split; [apply key_up_lines | apply key_down_lines].
Qed.

(** The four insertions of the Tab key. *)
Lemma insert_spaces (n : nat) (m : Melt) :
  0 <= cy m < size (lines m) -> 0 <= cx m <= len (line_at (lines m) (cy m)) ->
  let m' := Nat.iter n (fun m' : Melt => insCh (cx m') (cy m') SPACE m') m in
  lines m' = <[Z.to_nat (cy m) := str_erase (cx m) (line_at (lines m) (cy m))
                                  ++ repeat SPACE n
                                  ++ str_substr (cx m) (line_at (lines m) (cy m))]> (lines m)
  /\ cx m' = cx m /\ cy m' = cy m /\ edmode m' = edmode m.
Proof.
  intros Hy Hx. induction n as [|n IH]; cbv zeta.
  - cbn [Nat.iter repeat app]. unfold str_erase, str_substr. rewrite take_drop.
    by rewrite insert_line_at.
  - cbv zeta in IH. rewrite Nat.iter_succ.
    set (m1 := Nat.iter n (fun m' : Melt => insCh (cx m') (cy m') SPACE m') m) in *.
    destruct IH as (Hl & Ecx & Ecy & Eed).
    destruct (edit_keeps_cursor m1 (cx m1) (cy m1) SPACE) as ((-> & -> & ->) & _).
    split; [|done].
    assert (Hrow : line_at (lines m1) (cy m1)
                   = str_erase (cx m) (line_at (lines m) (cy m)) ++ repeat SPACE n
                     ++ str_substr (cx m) (line_at (lines m) (cy m))).
    { rewrite Hl, Ecy. by apply line_at_insert. }
    assert (Htake : length (str_erase (cx m) (line_at (lines m) (cy m))) = Z.to_nat (cx m)).
    { unfold str_erase, len in *. rewrite length_take. lia. }
    rewrite insCh_lines.
    + rewrite Hrow, Hl, Ecx, Ecy, insert_insert_same. f_equal.
      unfold str_insert.
      rewrite take_app_length' by done. rewrite drop_app_length' by done. done.
    + by rewrite Ecy, Hl, size_insert.
    + rewrite Hrow, Ecx, len_app. pose proof (len_nonneg (repeat SPACE n
        ++ str_substr (cx m) (line_at (lines m) (cy m)))).
      unfold len in *. lia.
Qed.

(** X20: Tab in edit mode inserts four spaces at the cursor, whatever the tab
    stops are, and moves the cursor four columns to the right. *)
Theorem tab_inserts_four_spaces (m : Melt) :
  edmode m = 0 -> lines_fit (lines m) -> cursor_on_document m ->
  len (line_at (lines m) (cy m)) + 4 <= INT_MAX ->
  lines (key_tab m)
    = <[Z.to_nat (cy m) := str_erase (cx m) (line_at (lines m) (cy m))
                           ++ repeat SPACE 4
                           ++ str_substr (cx m) (line_at (lines m) (cy m))]> (lines m)
  /\ cx (key_tab m) = cx m + 4 /\ cy (key_tab m) = cy m
  /\ fstate (key_tab m) = 2 /\ edmode (key_tab m) = 0.
Proof.
  intros Hmode Hfit [Hy Hx] Hroom. unfold key_tab. rewrite Hmode. cbn [Z.eqb].
  destruct (insert_spaces 4 m Hy Hx) as (Hl & Ecx & Ecy & Eed).
  cbn [Nat.iter nat_rect] in Hl, Ecx, Ecy, Eed.
  set (m4 := insCh _ _ _ _) in *.
  set (row := str_erase (cx m) (line_at (lines m) (cy m)) ++ repeat SPACE 4
              ++ str_substr (cx m) (line_at (lines m) (cy m))) in *.
  assert (Hlen : len row = len (line_at (lines m) (cy m)) + 4).
  { subst row. unfold len, str_erase, str_substr in *.
    rewrite !length_app, length_take, length_drop. simpl. lia. }
  destruct (mvCursor_within_row m4 4) as (Hcx & Hcy & Hls).
  - rewrite Hl. apply lines_fit_insert; [done|]. lia.
  - by rewrite Ecy, Hl, size_insert.
  - rewrite Ecx. pose proof (line_at_fits (lines m) (cy m) (proj2 Hfit)). lia.
  - rewrite Ecx, Ecy, Hl, line_at_insert by done. lia.
  - set_fstate_simpl. rewrite mvCursor_edmode, Hcx, Hcy, Hls, Ecx, Ecy, Hl, Eed.
    repeat split; done.
Qed.

(** * The [d] command *)

Lemma line_at_delete_before (ls : list line) (y z : Z) :
  0 <= z < y -> line_at (delete (Z.to_nat y) ls) z = line_at ls z.
Proof. intros Hz. unfold line_at. by rewrite list_lookup_delete_lt by lia. Qed.

(** X21: on any row but the first, [d] removes the row of the cursor and moves
    the cursor one row up, keeping the column as far as that row reaches. *)
Theorem d_deletes_current_row (m : Melt) :
  lines_fit (lines m) -> cursor_on_document m -> 0 < cy m ->
  lines (cmd_delete m) = delete (Z.to_nat (cy m)) (lines m)
  /\ cy (cmd_delete m) = cy m - 1
  /\ cx (cmd_delete m) = Z.min (cx m) (len (line_at (lines m) (cy m - 1)))
  /\ fstate (cmd_delete m) = 2.
Proof.
  intros [Hsz Hall] [Hy Hx] Hrow. unfold cmd_delete.
  replace (cy m >? 0) with true by (symmetry; apply Z.gtb_lt; lia).
  pose proof (line_at_fits (lines m) (cy m) Hall) as Hlfit.
  set (m1 := rmLn (cy m) m).
  assert (Hl1 : lines m1 = delete (Z.to_nat (cy m)) (lines m)).
  { subst m1. unfold rmLn.
    by replace (cy m <? size (lines m)) with true by (symmetry; apply Z.ltb_lt; lia). }
  destruct (edit_keeps_cursor m 0 (cy m) SPACE) as (_ & _ & _ & _ & (Ecx & Ecy & _)).
  fold m1 in Ecx, Ecy.
  assert (Hsz1 : size (lines m1) = size (lines m) - 1).
  { rewrite Hl1. unfold size in *. rewrite length_delete; [lia|].
    apply lookup_lt_is_Some_2. lia. }
  assert (Hfit1 : lines_fit (lines m1)).
  { split; [lia|]. rewrite Hl1. by apply Forall_delete. }
  destruct (mvCursor_row_change m1 (-1) Hfit1) as (Hcy2 & Hcx2).
  - rewrite Ecx. lia.
  - rewrite Ecy. lia.
  - rewrite Ecy, Hsz1. lia.
  - lia.
  - set_fstate_simpl. rewrite mvCursor_lines, Hcy2, Hcx2, Ecx, Ecy, Hl1.
    replace (cy m + -1) with (cy m - 1) by lia.
    rewrite line_at_delete_before by lia. repeat split; done.
Qed.

(** * Command mode *)

Section CommandMode.

Variable char_signed : bool.
Variable can_write : line -> bool.


(** X23: in command mode no key but Enter touches the document, the cursor or
    the modified flag: a printable key is appended to the pending command,
    Escape clears it and goes back to edit mode, and every other key,
    Backspace among them, is dropped. *)
Theorem command_mode_keys (fuel : nat) (ch : Z) (ks : list Z) (m : Melt) :
  edmode m = 1 -> pending m = ch :: ks ->
  ch <> KEY_ENTER -> ch <> 10 -> ch <> 13 ->
  exists m',
    processEvents char_signed can_write fuel m = Some m'
    /\ lines m' = lines m /\ cx m' = cx m /\ cy m' = cy m /\ fstate m' = fstate m
    /\ pending m' = ks
    /\ cmd m' = (if ch =? 27 then []
                 else if (32 <=? ch) && (ch <=? 126) then cmd m ++ [char_of ch]
                 else cmd m)
    /\ edmode m' = (if ch =? 27 then 0 else 1).
Proof.
  intros Hmode Hpend He1 He2 He3. unfold processEvents. rewrite Hpend.
  unfold KEY_UP, KEY_DOWN, KEY_LEFT, KEY_RIGHT, KEY_BACKSPACE, KEY_ENTER in *.
  assert (Hm : edmode (set_pending ks m) = 1) by done.
  destruct (Z.eqb_spec ch 259) as [->|?].
  { eexists. split; [reflexivity|]. unfold key_up. rewrite Hm. done. }
  destruct (Z.eqb_spec ch 258) as [->|?].
  { eexists. split; [reflexivity|]. unfold key_down. rewrite Hm. done. }
  destruct (Z.eqb_spec ch 260) as [->|?].
  { eexists. split; [reflexivity|]. unfold key_left. rewrite Hm. done. }
  destruct (Z.eqb_spec ch 261) as [->|?].
  { eexists. split; [reflexivity|]. unfold key_right. rewrite Hm. done. }
  destruct (Z.eqb_spec ch 263) as [->|?].
  { eexists. split; [reflexivity|]. unfold key_backspace. rewrite Hm. done. }
  destruct (Z.eqb_spec ch 127) as [->|?].
  { eexists. split; [reflexivity|]. unfold key_backspace. rewrite Hm. done. }
  destruct (Z.eqb_spec ch 8) as [->|?].
  { eexists. split; [reflexivity|]. unfold key_backspace. rewrite Hm. done. }
  destruct (Z.eqb_spec ch 343) as [->|?]; [done|].
  destruct (Z.eqb_spec ch 10) as [->|?]; [done|].
  destruct (Z.eqb_spec ch 13) as [->|?]; [done|].
  cbn [orb].
  destruct (Z.eqb_spec ch 9) as [->|?].
  { eexists. split; [reflexivity|]. unfold key_tab. rewrite Hm. done. }
  destruct (Z.eqb_spec ch 27) as [->|?].
  { eexists. split; [reflexivity|]. unfold key_escape. rewrite Hm. done. }
  eexists. split; [reflexivity|]. unfold key_other. rewrite Hm. cbn [Z.eqb].
  replace (ch >=? 32) with (32 <=? ch) by (rewrite Z.geb_leb; done).
  destruct ((32 <=? ch) && (ch <=? 126)); done.
Qed.

Lemma cmd_delete_stays (m : Melt) :
  is_running (cmd_delete m) = is_running m
  /\ (fstate m = 2 -> fstate (cmd_delete m) = 2).
Proof.
  unfold cmd_delete. destruct (cy m >? 0); [|done].
  set_fstate_simpl. split; [|done].
  destruct (mvCursor_frame 0 (-1) (rmLn (cy m) m)) as (x & y & vx & vy & ->).
  unfold rmLn. by destruct (cy m <? size (lines m)).
Qed.

Lemma cmd_loop_q_d (replay : Melt -> option Melt) (c : line) (m : Melt) :
  Forall (fun k => k = "q"%char \/ k = "d"%char) c ->
  fstate m = 2 ->
  exists m',
    cmd_loop char_signed can_write replay c m = Some m'
    /\ is_running m' = is_running m /\ fstate m' = 2.
Proof.
  intros Hc. revert m.
  induction Hc as [|k c Hk _ IH]; intros m Hf; simpl.
  { eexists. split; [reflexivity|]. done. }
  destruct Hk as [-> | ->]; cbn [Ascii.eqb Bool.eqb].
  - unfold cmd_quit. rewrite Hf. cbn [Z.eqb].
    destruct (IH (set_smessage (str "No write since last change (use Q to override)!") m) Hf)
      as (m' & Hrun & Hr & Hf').
    exists m'. done.
  - destruct (cmd_delete_stays m) as [Hr1 Hf1].
    destruct (IH (cmd_delete m) (Hf1 Hf)) as (m' & Hrun & Hr & Hf').
    exists m'. split; [done|]. split; [|done]. by rewrite Hr, Hr1.
Qed.

(** [q] does not leave while there are changes to write: a command
    string made of [q] and [d] alone, run on a modified buffer, returns
    with the editor still running and the buffer still modified. *)
Lemma q_keeps_modified_buffer (fuel : nat) (c : line) (m : Melt) :
  Forall (fun k => k = "q"%char \/ k = "d"%char) c ->
  fstate m = 2 ->
  exists m',
    processCmd char_signed can_write (S fuel) c m = Some m'
    /\ is_running m' = is_running m /\ fstate m' = 2.
Proof.
  intros Hc Hf. simpl. destruct c as [|k0 c0] eqn:Ec; [by eexists|]. rewrite <- Ec in *.
  by apply cmd_loop_q_d.
Qed.

End CommandMode.

(** * The cursor stays on the document *)

Lemma mvCursor_on_document (xd yd : Z) (m : Melt) :
  lines m <> [] -> lines_fit (lines m) -> cursor_on_document (mvCursor xd yd m).
Proof.
  intros Hne Hfit. unfold cursor_on_document. rewrite mvCursor_lines.
  pose proof (mvCursor_cursor m xd yd Hne Hfit) as Hc.
  destruct (mvCursor_target xd yd m) as [nx ny] eqn:Ht.
  injection Hc as -> ->.
  by apply (mvCursor_target_in_bounds m xd yd).
Qed.

Lemma bounded_fit (n w : Z) (ls : list line) :
  n <= INT_MAX -> w <= INT_MAX -> bounded n w ls -> lines_fit ls.
Proof.
  intros Hn Hw [Hsz Hall]. split; [lia|].
  eapply Forall_impl; [exact Hall|]. simpl. lia.
Qed.

Lemma bounded_weaken (n n' w w' : Z) (ls : list line) :
  n <= n' -> w <= w' -> bounded n w ls -> bounded n' w' ls.
Proof.
  intros Hn Hw [Hsz Hall]. split; [lia|].
  eapply Forall_impl; [exact Hall|]. simpl. lia.
Qed.

Lemma has_room_bounded (ls : list line) :
  has_room ls -> bounded (INT_MAX - 1) 1073741821 ls.
Proof.
  intros [Hsz Hall]. split; [lia|].
  eapply Forall_impl; [exact Hall|]. unfold INT_MAX. simpl. lia.
Qed.

Lemma line_at_bounded (n w : Z) (ls : list line) (y : Z) :
  0 <= w -> bounded n w ls -> len (line_at ls y) <= w.
Proof.
  intros Hw [_ Hall]. unfold line_at.
  destruct (ls !! Z.to_nat y) as [l|] eqn:E; simpl.
  - eapply (Forall_lookup_1 _ _ _ _ Hall E).
  - unfold len. simpl. lia.
Qed.

Lemma insCh_bounded (n w x y : Z) (c : ascii) (m : Melt) :
  0 <= w -> bounded n w (lines m) -> bounded n (w + 1) (lines (insCh x y c m)).
Proof.
  intros Hw Hb. pose proof (line_at_bounded n w (lines m) y Hw Hb) as Hl.
  destruct Hb as [Hsz Hall]. unfold insCh.
  destruct (Z.ltb_spec y (size (lines m))); cbn [andb].
  2:{ split; [done|]. eapply Forall_impl; [exact Hall|]. simpl. lia. }
  destruct (Z.leb_spec x (len (line_at (lines m) y))).
  2:{ split; [done|]. eapply Forall_impl; [exact Hall|]. simpl. lia. }
  cbn [lines set_lines]. split; [by rewrite size_insert|].
  apply Forall_insert.
  - eapply Forall_impl; [exact Hall|]. simpl. lia.
  - unfold str_insert, len in *. rewrite length_app, length_take. simpl.
    rewrite length_drop. lia.
Qed.

Lemma rmCh_bounded (n w x y : Z) (m : Melt) :
  0 <= w -> bounded n w (lines m) -> bounded n w (lines (rmCh x y m)).
Proof.
  intros Hw Hb. pose proof (line_at_bounded n w (lines m) y Hw Hb) as Hl.
  destruct Hb as [Hsz Hall]. unfold rmCh.
  destruct ((y <? size (lines m)) && (x <? len (line_at (lines m) y))); [|done].
  cbn [lines set_lines]. split; [by rewrite size_insert|].
  apply Forall_insert; [done|].
  unfold str_erase1, len in *. rewrite length_app, length_take, length_drop. lia.
Qed.

Lemma rmLn_bounded (n w y : Z) (m : Melt) :
  bounded n w (lines m) -> bounded n w (lines (rmLn y m)).
Proof.
  intros [Hsz Hall]. unfold rmLn. destruct (y <? size (lines m)); [|done].
  cbn [lines set_lines]. unfold vec_erase. split; [|by apply Forall_delete].
  unfold size in *. rewrite delete_take_drop, length_app, length_take, length_drop. lia.
Qed.

Lemma jnLn_bounded (n w y : Z) (m : Melt) :
  0 <= w -> bounded n w (lines m) -> bounded n (2 * w) (lines (jnLn y m)).
Proof.
  intros Hw Hb. unfold jnLn.
  destruct (y <? to_size_t (size (lines m) - 1)).
  2:{ eapply bounded_weaken; [| |exact Hb]; lia. }
  apply rmLn_bounded. cbn [lines set_lines].
  pose proof (line_at_bounded n w (lines m) y Hw Hb) as Hl1.
  pose proof (line_at_bounded n w (lines m) (to_unsigned (y + 1)) Hw Hb) as Hl2.
  destruct Hb as [Hsz Hall]. split; [by rewrite size_insert|].
  apply Forall_insert.
  - eapply Forall_impl; [exact Hall|]. simpl. lia.
  - rewrite len_app. lia.
Qed.

Lemma spLn_bounded (n w x y : Z) (m : Melt) :
  0 <= w -> bounded n w (lines m) -> bounded (n + 1) w (lines (spLn x y m)).
Proof.
  intros Hw Hb. pose proof (line_at_bounded n w (lines m) y Hw Hb) as Hl.
  unfold spLn.
  destruct ((y <? size (lines m)) && (x <=? len (line_at (lines m) y))).
  2:{ eapply bounded_weaken; [| |exact Hb]; lia. }
  destruct Hb as [Hsz Hall]. unfold insLn. cbn [lines set_lines].
  assert (Hins : Forall (fun l => len l <= w)
                   (<[Z.to_nat y := str_erase x (line_at (lines m) y)]> (lines m))).
  { apply Forall_insert; [done|]. unfold str_erase, len in *. rewrite length_take. lia. }
  destruct (to_unsigned (y + 1) <=? _).
  2:{ cbn [lines set_lines]. split; [rewrite size_insert; lia | done]. }
  cbn [lines set_lines]. unfold vec_insert. split.
  - unfold size in *. rewrite length_app. simpl. rewrite length_take, length_drop.
    rewrite length_insert. lia.
  - apply Forall_app. split; [by apply Forall_take|].
    constructor; [|by apply Forall_drop].
    unfold str_substr, len in *. rewrite length_drop. lia.
Qed.

Lemma spLn_nonempty (x y : Z) (m : Melt) : lines m <> [] -> lines (spLn x y m) <> [].
Proof.
  intros Hne. apply nonempty_length in Hne. apply nonempty_length.
  pose proof (spLn_length x y m). lia.
Qed.

Lemma insCh_nonempty (x y : Z) (c : ascii) (m : Melt) :
  lines m <> [] -> lines (insCh x y c m) <> [].
Proof.
  intros Hne. apply nonempty_length in Hne. apply nonempty_length.
  by rewrite insCh_length.
Qed.

Lemma rmCh_nonempty (x y : Z) (m : Melt) : lines m <> [] -> lines (rmCh x y m) <> [].
Proof.
  intros Hne. apply nonempty_length in Hne. apply nonempty_length.
  by rewrite rmCh_length.
Qed.

(** A state with the same document and cursor. *)
Lemma on_document_same (m m' : Melt) :
  lines m' = lines m -> cx m' = cx m -> cy m' = cy m ->
  cursor_on_document m -> cursor_on_document m'.
Proof. unfold cursor_on_document. by intros -> -> ->. Qed.

Lemma on_document_dirty (v : Z) (m : Melt) :
  cursor_on_document m -> cursor_on_document (set_fstate v m).
Proof. by apply on_document_same. Qed.

Lemma on_document_nonempty (m : Melt) : cursor_on_document m -> lines m <> [].
Proof. intros [Hy _]. apply size_nonempty. lia. Qed.

Section Safety.

Variable char_signed : bool.
Variable can_write : line -> bool.

Lemma cmd_save_document (m : Melt) :
  lines (cmd_save can_write m) = lines m
  /\ cx (cmd_save can_write m) = cx m /\ cy (cmd_save can_write m) = cy m.
Proof.
  unfold cmd_save, save. destruct (fname m); [done|]. by destruct (can_write _).
Qed.

Lemma confirm_write_document (fn : line) (m : Melt) :
  lines (confirm_write char_signed can_write fn m) = lines m
  /\ cx (confirm_write char_signed can_write fn m) = cx m
  /\ cy (confirm_write char_signed can_write fn m) = cy m.
Proof.
  unfold confirm_write, save. destruct fn; [done|].
  destruct (negb _); [done|]. by destruct (can_write _).
Qed.

(** The command interpreter keeps the cursor on a document that fits. *)
Lemma commands_keep_cursor_on_document (fuel : nat) (c : line) (m m' : Melt) :
  processCmd char_signed can_write fuel c m = Some m' ->
  lines_fit (lines m) /\ cursor_on_document m ->
  lines_fit (lines m') /\ cursor_on_document m'.
Proof.
  apply (lift_commands char_signed can_write
           (fun m => lines_fit (lines m) /\ cursor_on_document m)); try done.
  - clear. intros m [Hfit Hcur]. unfold cmd_delete.
    destruct (Z.gtb_spec (cy m) 0) as [Hrow|]; [|done].
    assert (Hfit1 : lines_fit (lines (rmLn (cy m) m))).
    { apply (bounded_fit INT_MAX INT_MAX); [lia..|]. by apply rmLn_bounded. }
    assert (Hne1 : lines (rmLn (cy m) m) <> []).
    { apply nonempty_length. pose proof (rmLn_length (cy m) m) as Hlen.
      destruct Hcur as [Hy _]. unfold size in Hy. lia. }
    split.
    + by rewrite set_fstate_lines, mvCursor_lines.
    + apply on_document_dirty. by apply mvCursor_on_document.
  - clear. intros m [Hfit Hcur].
    destruct (cmd_save_document m) as (Hl & Hx & Hy).
    split; [by rewrite Hl | by apply (on_document_same m)].
  - clear. intros fn m [Hfit Hcur].
    destruct (confirm_write_document fn m) as (Hl & Hx & Hy).
    split; [by rewrite Hl | by apply (on_document_same m)].
Qed.

Lemma moved_on_document (xd yd : Z) (m : Melt) (n w : Z) :
  n <= INT_MAX -> w <= INT_MAX ->
  lines m <> [] -> bounded n w (lines m) ->
  lines_fit (lines (mvCursor xd yd m)) /\ cursor_on_document (mvCursor xd yd m).
Proof.
  intros Hn Hw Hne Hb. pose proof (bounded_fit n w _ Hn Hw Hb) as Hfit.
  split; [by rewrite mvCursor_lines | by apply mvCursor_on_document].
Qed.

Lemma dirty_on_document (m : Melt) :
  lines_fit (lines m) /\ cursor_on_document m ->
  lines_fit (lines (set_fstate 2 m)) /\ cursor_on_document (set_fstate 2 m).
Proof. intros [Hfit Hcur]. split; [done | by apply on_document_dirty]. Qed.

Ltac room_consts := unfold INT_MAX; lia.

Lemma arrows_on_document (m : Melt) :
  lines_fit (lines m) -> cursor_on_document m ->
  (lines_fit (lines (key_up m)) /\ cursor_on_document (key_up m))
  /\ (lines_fit (lines (key_down m)) /\ cursor_on_document (key_down m))
  /\ (lines_fit (lines (key_left m)) /\ cursor_on_document (key_left m))
  /\ (lines_fit (lines (key_right m)) /\ cursor_on_document (key_right m)).
Proof.
  intros Hfit Hcur. pose proof (on_document_nonempty m Hcur) as Hne.
  assert (Hmv : forall xd yd,
             lines_fit (lines (mvCursor xd yd m)) /\ cursor_on_document (mvCursor xd yd m)).
  { intros xd yd. split; [by rewrite mvCursor_lines | by apply mvCursor_on_document]. }
  unfold key_up, key_down, key_left, key_right.
  split; [|split; [|split]]; repeat case_match; try apply Hmv; by split.
Qed.

Lemma key_backspace_on_document (m : Melt) :
  has_room (lines m) -> cursor_on_document m ->
  lines_fit (lines (key_backspace m)) /\ cursor_on_document (key_backspace m).
Proof.
  intros Hroom Hcur. pose proof (on_document_nonempty m Hcur) as Hne.
  pose proof (has_room_bounded _ Hroom) as Hb.
  pose proof (bounded_fit (INT_MAX - 1) 1073741821 _ ltac:(room_consts) ltac:(room_consts) Hb) as Hfit.
  unfold key_backspace. destruct (edmode m =? 0); [|done].
  apply dirty_on_document.
  destruct ((cx m =? 0) && (cy m >? 0)); [|destruct (cx m >? 0); [|done]].
  - set (m1 := jnLn (to_unsigned (cy m - 1)) m).
    assert (Hb1 : bounded (INT_MAX - 1) (2 * 1073741821) (lines m1))
      by (apply jnLn_bounded; [lia | done]).
    assert (Hne1 : lines m1 <> []).
    { apply jnLn_nonempty; [apply to_unsigned_nonneg | done]. }
    apply (moved_on_document _ _ _ (INT_MAX - 1) (2 * 1073741821));
      [room_consts | room_consts | by rewrite mvCursor_lines | by rewrite mvCursor_lines].
  - apply (moved_on_document _ _ _ (INT_MAX - 1) 1073741821);
      [room_consts | room_consts | by apply rmCh_nonempty | by apply rmCh_bounded].
Qed.

Lemma key_enter_on_document (fuel : nat) (m m' : Melt) :
  has_room (lines m) -> cursor_on_document m ->
  key_enter char_signed can_write fuel m = Some m' ->
  lines_fit (lines m') /\ cursor_on_document m'.
Proof.
  intros Hroom Hcur. pose proof (on_document_nonempty m Hcur) as Hne.
  pose proof (has_room_bounded _ Hroom) as Hb.
  pose proof (bounded_fit (INT_MAX - 1) 1073741821 _ ltac:(room_consts) ltac:(room_consts) Hb) as Hfit.
  unfold key_enter. destruct (edmode m =? 0); [|destruct (edmode m =? 1)].
  - intros [= <-]. apply dirty_on_document.
    apply (moved_on_document _ _ _ (INT_MAX - 1 + 1) 1073741821);
      [room_consts | room_consts | by apply spLn_nonempty | by apply spLn_bounded].
  - destruct (processCmd char_signed can_write fuel (cmd m) m) as [m1|] eqn:E; [|done].
    intros [= <-].
    destruct (commands_keep_cursor_on_document _ _ _ _ E (conj Hfit Hcur)) as [Hfit1 Hcur1].
    split; [done | by apply (on_document_same m1)].
  - by intros [= <-].
Qed.

Lemma key_tab_on_document (m : Melt) :
  has_room (lines m) -> cursor_on_document m ->
  lines_fit (lines (key_tab m)) /\ cursor_on_document (key_tab m).
Proof.
  intros Hroom Hcur. pose proof (on_document_nonempty m Hcur) as Hne.
  pose proof (has_room_bounded _ Hroom) as Hb.
  pose proof (bounded_fit (INT_MAX - 1) 1073741821 _ ltac:(room_consts) ltac:(room_consts) Hb) as Hfit.
  unfold key_tab. destruct (edmode m =? 0); [|done].
  apply dirty_on_document.
  apply (moved_on_document _ _ _ (INT_MAX - 1) (1073741821 + 1 + 1 + 1 + 1));
    [room_consts | room_consts | by do 4 apply insCh_nonempty |].
  do 4 (apply insCh_bounded; [lia|]). done.
Qed.

Lemma key_other_on_document (ch : Z) (m : Melt) :
  has_room (lines m) -> cursor_on_document m ->
  lines_fit (lines (key_other ch m)) /\ cursor_on_document (key_other ch m).
Proof.
  intros Hroom Hcur. pose proof (on_document_nonempty m Hcur) as Hne.
  pose proof (has_room_bounded _ Hroom) as Hb.
  pose proof (bounded_fit (INT_MAX - 1) 1073741821 _ ltac:(room_consts) ltac:(room_consts) Hb) as Hfit.
  unfold key_other. destruct ((ch >=? 32) && (ch <=? 126)); [|done].
  destruct (edmode m =? 0); [|by destruct (edmode m =? 1)].
  apply dirty_on_document.
  apply (moved_on_document _ _ _ (INT_MAX - 1) (1073741821 + 1));
    [room_consts | room_consts | by apply insCh_nonempty | by apply insCh_bounded].
Qed.

(** X25: whatever key arrives, in either mode, the cursor stays on a line of
    the document and within that line (its end included), as long as the
    document leaves room for the edit; so no handler indexes [lines] or a
    line out of range on the next key. *)
Theorem events_keep_cursor_on_document (fuel : nat) (m m' : Melt) :
  has_room (lines m) -> cursor_on_document m ->
  processEvents char_signed can_write fuel m = Some m' ->
  lines_fit (lines m') /\ cursor_on_document m'.
Proof.
  intros Hroom Hcur. unfold processEvents.
  destruct (pending m) as [|ch ks]; [done|].
  set (m0 := set_pending ks m).
  assert (Hroom0 : has_room (lines m0)) by done.
  assert (Hcur0 : cursor_on_document m0) by done.
  clearbody m0.
  pose proof (bounded_fit (INT_MAX - 1) 1073741821 _ ltac:(room_consts) ltac:(room_consts)
                (has_room_bounded _ Hroom0)) as Hfit0.
  destruct (arrows_on_document m0 Hfit0 Hcur0) as (Hu & Hd & Hl & Hr).
  destruct (ch =? KEY_UP); [by intros [= <-]|].
  destruct (ch =? KEY_DOWN); [by intros [= <-]|].
  destruct (ch =? KEY_LEFT); [by intros [= <-]|].
  destruct (ch =? KEY_RIGHT); [by intros [= <-]|].
  destruct ((ch =? KEY_BACKSPACE) || (ch =? 127) || (ch =? 8)).
  { intros [= <-]. by apply key_backspace_on_document. }
  destruct ((ch =? KEY_ENTER) || (ch =? 10) || (ch =? 13)).
  { by apply key_enter_on_document. }
  destruct (ch =? 9).
  { intros [= <-]. by apply key_tab_on_document. }
  destruct (ch =? 27).
  { intros [= <-]. unfold key_escape.
    split; [by repeat case_match|].
    apply (on_document_same m0); try done; by repeat case_match. }
  intros [= <-]. by apply key_other_on_document.
Qed.

End Safety.

(** * The prompt of the [w] command *)

Lemma char_of_code (c : ascii) : char_of (code c) = c.
Proof.
  unfold char_of. pose proof (code_range c) as Hc.
  rewrite Z.mod_small by lia. unfold code. rewrite Nat2Z.id. apply ascii_nat_embedding.
Qed.

Section Prompt.

Variable char_signed : bool.
Variable can_write : line -> bool.

Lemma to_char_small (z : Z) : 0 <= z < 128 -> to_char char_signed z = z.
Proof.
  intros Hz. unfold to_char. destruct char_signed.
  - rewrite Z.mod_small by lia. lia.
  - apply Z.mod_small. lia.
Qed.

Lemma to_char_keypad :
  to_char char_signed KEY_ENTER = 87 /\ to_char char_signed KEY_BACKSPACE = 7.
Proof. unfold to_char. by destruct char_signed. Qed.

Lemma prompt_loop_types (name : line) (ks : list Z) (fn : line) (m : Melt) :
  Forall printable name ->
  prompt_loop char_signed can_write (map code name ++ ks) fn m
  = prompt_loop char_signed can_write ks (fn ++ name) m.
Proof.
  intros Hname. revert fn. induction Hname as [|c name Hc _ IH]; intros fn.
  { by rewrite app_nil_r. }
  unfold printable in Hc. cbn [map app prompt_loop].
  rewrite to_char_small by lia.
  unfold KEY_ENTER, KEY_BACKSPACE.
  repeat match goal with
         | |- context [code c =? ?k] => destruct (Z.eqb_spec (code c) k); [lia|]
         end.
  cbn [orb].
  replace ((code c >=? 32) && (code c <=? 126)) with true
    by (symmetry; apply andb_true_iff; split; [apply Z.geb_le | apply Z.leb_le]; lia).
  rewrite char_of_code, IH. by rewrite <- app_assoc.
Qed.

Lemma str_substr_n_removelast (fn : line) :
  len fn < 2 ^ 64 -> str_substr_n 0 (to_size_t (len fn - 1)) fn = removelast fn.
Proof.
  intros Hlen. unfold str_substr_n. rewrite drop_0, Z.sub_0_r.
  destruct fn as [|c fn _] using rev_ind; [done|].
  rewrite removelast_last. unfold len in *. rewrite length_app in *. simpl in *.
  rewrite to_size_t_small by lia.
  rewrite Z.min_l by lia.
  replace (Z.to_nat _) with (length fn) by lia.
  by rewrite take_app_length.
Qed.

(** X26: the keys of the prompt, after a name typed in printable characters:
    Enter (codes 10 and 13) hands the name to the check and the write,
    Escape leaves without any change, Backspace (codes 127 and 8) drops
    the last character.  The keys are read into a [char]: the keypad
    codes [KEY_ENTER] and [KEY_BACKSPACE] are narrowed to the letter W,
    which is typed, and to the bell character, which is ignored.  With no
    key left the prompt waits. *)
Theorem write_prompt_keys (name : line) (ks : list Z) (fn : line) (m : Melt) :
  Forall printable name ->
  (forall k, k = 10 \/ k = 13 ->
     prompt_loop char_signed can_write (map code name ++ k :: ks) fn m
     = Some (confirm_write char_signed can_write (fn ++ name) (set_pending ks m)))
  /\ prompt_loop char_signed can_write (map code name ++ 27 :: ks) fn m
     = Some (set_pending ks m)
  /\ (forall k, k = 127 \/ k = 8 -> len (fn ++ name) < 2 ^ 64 ->
        prompt_loop char_signed can_write (map code name ++ k :: ks) fn m
        = prompt_loop char_signed can_write ks (removelast (fn ++ name)) m)
  /\ prompt_loop char_signed can_write (map code name ++ KEY_ENTER :: ks) fn m
     = prompt_loop char_signed can_write ks (fn ++ name ++ ["W"%char]) m
  /\ prompt_loop char_signed can_write (map code name ++ KEY_BACKSPACE :: ks) fn m
     = prompt_loop char_signed can_write ks (fn ++ name) m
  /\ prompt_loop char_signed can_write (map code name) fn m = None.
Proof.
  intros Hname.
  destruct to_char_keypad as [Hent Hbs].
  split; [|split; [|split; [|split; [|split]]]].
  - intros k Hk. rewrite prompt_loop_types by done. cbn [prompt_loop].
    destruct Hk as [-> | ->]; by rewrite to_char_small by lia.
  - rewrite prompt_loop_types by done. cbn [prompt_loop].
    by rewrite to_char_small by lia.
  - intros k Hk Hlen. rewrite prompt_loop_types by done. cbn [prompt_loop].
    destruct Hk as [-> | ->]; rewrite to_char_small by lia;
      cbn [Z.eqb Pos.eqb orb]; by rewrite str_substr_n_removelast.
  - rewrite prompt_loop_types by done. cbn [prompt_loop]. rewrite Hent.
    cbn [Z.eqb Pos.eqb orb Z.geb Z.leb Z.compare Pos.compare Pos.compare_cont andb].
    by rewrite <- app_assoc.
  - rewrite prompt_loop_types by done. cbn [prompt_loop]. by rewrite Hbs.
  - rewrite <- (app_nil_r (map code name)). by rewrite prompt_loop_types.
Qed.

(** X27: the [w] command, with a name typed at its prompt and confirmed by
    Enter: the document is written under that name, and the editor is
    bound to it with a clean buffer, exactly when the name is valid and
    the file can be opened; otherwise nothing is written and the binding
    stays.  The document itself is never changed. *)
Theorem w_writes_under_typed_name (name : line) (ks : list Z) (m : Melt) :
  Forall printable name ->
  pending m = map code name ++ 10 :: ks ->
  exists m',
    cmd_write char_signed can_write m = Some m'
    /\ lines m' = lines m /\ pending m' = ks
    /\ (if valFn char_signed name && can_write name
        then written m' = (name, file_image (lines m)) :: written m
             /\ fname m' = name /\ fstate m' = 1
        else written m' = written m /\ fname m' = fname m /\ fstate m' = fstate m).
Proof.
  intros Hname Hpend. unfold cmd_write. cbn [pending set_smessage]. rewrite Hpend.
  rewrite prompt_loop_types by done. cbn [prompt_loop app].
  rewrite to_char_small by lia. cbn [Z.eqb Pos.eqb orb].
  eexists. split; [reflexivity|].
  unfold confirm_write. destruct name as [|c name]; [done|].
  destruct (valFn char_signed (c :: name)); cbn [negb andb]; [|done].
  unfold save. destruct (can_write (c :: name)); done.
Qed.

End Prompt.

(** * Start-up and the main loop *)

Section Startup.

Variable char_signed : bool.
Variable fs_exists : line -> bool.
Variable fs_read : line -> read_result.
Variable can_write : line -> bool.

(** X28: the size check of [init], once curses is up: the start is
    refused as too small exactly on terminals of fewer than 40 columns or
    of 2 to 13 rows.  The body height [my - 2] is computed in [unsigned],
    so the check does not turn away a terminal of 0 rows or of 1 row. *)
Theorem init_terminal_check (arg : option line) (rows cols : Z) (keys : list Z) :
  0 <= rows <= INT_MAX -> 0 <= cols <= INT_MAX ->
  init char_signed fs_exists fs_read arg true true rows cols keys
    = Fatal (str "Terminal size too small!")
  <-> cols < 40 \/ 2 <= rows < 14.
Proof.
  intros Hrows Hcols. unfold init. cbn [negb].
  cbn [ax ay set_term].
  rewrite (to_unsigned_small cols) by (unfold INT_MAX in *; lia).
  rewrite (to_unsigned_small rows) by (unfold INT_MAX in *; lia).
  assert (Hay : to_unsigned (rows - 2)
                = if rows <? 2 then rows - 2 + 2 ^ 32 else rows - 2).
  { unfold to_unsigned. destruct (Z.ltb_spec rows 2).
    - symmetry. apply (Z.mod_unique_pos _ _ (-1)); lia.
    - apply Z.mod_small. unfold INT_MAX in *. lia. }
  rewrite Hay.
  destruct (Z.ltb_spec cols 40) as [Hc|Hc]; cbn [orb].
  { split; [lia | done]. }
  destruct (Z.ltb_spec rows 2) as [Hr|Hr].
  - destruct (Z.ltb_spec (rows - 2 + 2 ^ 32) 12); [lia|].
    split; [done | lia].
  - destruct (Z.ltb_spec (rows - 2) 12).
    + split; [lia | done].
    + split; [done | lia].
Qed.

Lemma init_keeps_file (arg : option line) (scr_ok modes_ok : bool) (rows cols : Z)
    (keys : list Z) (m : Melt) :
  init char_signed fs_exists fs_read arg scr_ok modes_ok rows cols keys = Running m ->
  let m0 := init_file char_signed fs_exists fs_read arg (Melt_new keys) in
  lines m = lines m0 /\ fname m = fname m0 /\ fstate m = fstate m0
  /\ smessage m = smessage m0 /\ written m = written m0.
Proof.
  unfold init. destruct (negb scr_ok); [done|]. destruct (negb modes_ok); [done|].
  match goal with |- context [if ?b then Fatal _ else _] => destruct b end; [done|].
  by intros [= <-].
Qed.

(** X29: the document that [init] starts with.  A valid name of a file that
    exists and can be read gives the lines of the file, bound to the name
    with a clean buffer; a valid name of a file that does not exist gives
    one empty line bound to the name; in every other case the editor
    starts on one empty line with no name. *)
Theorem init_opens_document (arg : option line) (scr_ok modes_ok : bool) (rows cols : Z)
    (keys : list Z) (m : Melt) :
  init char_signed fs_exists fs_read arg scr_ok modes_ok rows cols keys = Running m ->
  written m = []
  /\ match arg with
     | Some a =>
         if valFn char_signed a
         then
           if fs_exists a
           then
             match fs_read a with
             | Contents bytes =>
                 fname m = a /\ fstate m = 1 /\ smessage m = []
                 /\ file_image (lines m) = with_final_newline bytes
                 /\ Forall (fun l => LF ∉ l) (lines m)
             | _ => fname m = [] /\ fstate m = 0 /\ lines m = [[]] /\ smessage m <> []
             end
           else fname m = a /\ fstate m = 0 /\ lines m = [[]] /\ smessage m = []
         else fname m = [] /\ fstate m = 0 /\ lines m = [[]]
     | None => fname m = [] /\ fstate m = 0 /\ lines m = [[]] /\ smessage m = []
     end.
Proof.
  intros Hinit. destruct (init_keeps_file _ _ _ _ _ _ _ Hinit) as (-> & -> & -> & -> & ->).
  clear Hinit. unfold init_file.
  destruct arg as [a|]; [|done].
  cbn [fname set_fstate set_fname set_lines].
  destruct a as [|c a]; [done|].
  destruct (valFn char_signed (c :: a)); cbn [negb]; [|done].
  destruct (fs_exists (c :: a)); cbn [negb]; [|done].
  unfold load. destruct (fs_read (c :: a)) as [| |bytes]; [done | done |].
  cbn [lines fname fstate smessage written set_lines set_fname set_fstate Melt_new].
  split; [done|]. do 3 (split; [done|]).
  pose proof (file_image_getlines bytes [] ltac:(apply not_elem_of_nil)) as Himg.
  pose proof (getlines_no_newline bytes [] ltac:(apply not_elem_of_nil)) as Hnl.
  cbn [app] in Himg. unfold with_final_newline.
  destruct (getlines bytes []) as [|l ls] eqn:Eg; cbn [lines set_lines].
  - split; [|constructor; [apply not_elem_of_nil | constructor]].
    destruct bytes as [|b bytes]; [done|].
    destruct (bool_decide (last (b :: bytes) = Some LF)); simpl in Himg.
    + done.
    + by destruct bytes.
  - split; [|done]. rewrite Himg. destruct bytes as [|b bytes]; [done|]. done.
Qed.

End Startup.

Section MainLoop.

Variable char_signed : bool.
Variable can_write : line -> bool.

Lemma stopped_stays_stopped_cmd (fuel : nat) (c : line) (m m' : Melt) :
  processCmd char_signed can_write fuel c m = Some m' ->
  is_running m = false -> is_running m' = false.
Proof.
  apply (lift_processCmd char_signed can_write (fun m => is_running m = false)); try done.
  - intros xd yd x Hx. by destruct (mvCursor_frame xd yd x) as (a & b & vx & vy & ->).
  - intros x Hx. unfold cmd_save, save. destruct (fname x); [done|].
    by destruct (can_write _).
  - intros fn x Hx. unfold confirm_write, save. destruct fn; [done|].
    destruct (negb _); [done|]. by destruct (can_write _).
Qed.

Lemma cmd_loop_Q (replay : Melt -> option Melt) (pre rest : line) (m m' : Melt) :
  (forall x y, replay x = Some y -> is_running x = false -> is_running y = false) ->
  Forall (fun k => k ∈ known_commands) pre ->
  cmd_loop char_signed can_write replay (pre ++ "Q"%char :: rest) m = Some m' ->
  is_running m' = false.
Proof.
  intros Hreplay Hpre. revert m.
  assert (Hrest : forall c x y,
             cmd_loop char_signed can_write replay c x = Some y ->
             is_running x = false -> is_running y = false).
  { intros c x y.
    apply (lift_cmd_loop char_signed can_write (fun m => is_running m = false)); try done.
    - intros z Hz. unfold cmd_delete. destruct (cy z >? 0); [|done].
      set_fstate_simpl.
      destruct (mvCursor_frame 0 (-1) (rmLn (cy z) z)) as (a & b & vx & vy & ->).
      unfold rmLn. by destruct (cy z <? size (lines z)).
    - intros z Hz. unfold cmd_save, save. destruct (fname z); [done|].
      by destruct (can_write _).
    - intros fn z Hz. unfold confirm_write, save. destruct fn; [done|].
      destruct (negb _); [done|]. by destruct (can_write _). }
  induction Hpre as [|k pre Hk _ IH]; intros m; cbn [app cmd_loop].
  { cbn [Ascii.eqb Bool.eqb]. intros Hrun. by eapply Hrest. }
  destruct (Ascii.eqb_spec k "."%char).
  { destruct (replay m) as [m1|]; simpl; [apply IH | done]. }
  destruct (Ascii.eqb_spec k "s"%char); [apply IH|].
  destruct (Ascii.eqb_spec k "w"%char).
  { destruct (cmd_write char_signed can_write m) as [m1|]; simpl; [apply IH | done]. }
  destruct (Ascii.eqb_spec k "q"%char); [apply IH|].
  destruct (Ascii.eqb_spec k "Q"%char); [apply IH|].
  destruct (Ascii.eqb_spec k "d"%char); [apply IH|].
  exfalso. apply list_elem_of_In in Hk. unfold known_commands in Hk. simpl in Hk.
  intuition congruence.
Qed.

(** A command string that reaches a [Q] leaves [is_running] false when
    it returns. *)
Lemma Q_stops_the_editor (fuel : nat) (pre rest : line) (m m' : Melt) :
  Forall (fun k => k ∈ known_commands) pre ->
  processCmd char_signed can_write fuel (pre ++ "Q"%char :: rest) m = Some m' ->
  is_running m' = false.
Proof.
  intros Hpre. destruct fuel as [|fuel]; [done|]. simpl.
  destruct (pre ++ "Q"%char :: rest) as [|k c] eqn:Ek; [by destruct pre|].
  rewrite <- Ek. apply cmd_loop_Q; [|done].
  intros x y. apply stopped_stays_stopped_cmd.
Qed.

(** X24: leaving the editor.  [q] does not leave while there are changes
    to write: a command string made of [q] and [d] alone, run on a
    modified buffer, returns with the editor still running and the
    buffer still modified.  [Q] leaves in any case: a command string that
    reaches a [Q] through known commands leaves [is_running] false when
    it returns, whatever follows the [Q]. *)
Theorem quit_commands (fuel : nat) (c pre rest : line) (m : Melt) :
  (Forall (fun k => k = "q"%char \/ k = "d"%char) c -> fstate m = 2 ->
     exists m',
       processCmd char_signed can_write (S fuel) c m = Some m'
       /\ is_running m' = is_running m /\ fstate m' = 2)
  /\ (Forall (fun k => k ∈ known_commands) pre ->
      forall m',
        processCmd char_signed can_write fuel (pre ++ "Q"%char :: rest) m = Some m' ->
        is_running m' = false).
Proof.
  split.
  - apply q_keeps_modified_buffer.
  - intros Hpre m'. by apply Q_stops_the_editor.
Qed.

(** The loop of [run] ends with the turn that leaves [is_running] false,
    or that fails: later turns are not taken. *)
Lemma run_loop_stops (fuel : nat) (sizes more : list (Z * Z)) (m : Melt) (r : outcome) :
  run_loop char_signed can_write fuel sizes m = Some r ->
  match r with Running m' => is_running m' = false | _ => True end ->
  run_loop char_signed can_write fuel (sizes ++ more) m = Some r.
Proof.
  revert m. induction sizes as [|[rows cols] sizes IH]; intros m; cbn [app run_loop].
  - intros [= <-] Hstop. destruct more as [|[rows cols] more]; [done|].
    cbn [run_loop]. by rewrite Hstop.
  - destruct (is_running m) eqn:Hrun.
    + destruct (turn char_signed can_write fuel rows cols m) as [[m1|what|]|]; try done.
      apply IH.
    + intros [= <-] _. done.
Qed.

Lemma turn_keeps_consistent (fuel : nat) (rows cols : Z) (m m' : Melt) :
  turn char_signed can_write fuel rows cols m = Some (Running m') ->
  frames_sized m /\ binding_ok char_signed m /\ lines m <> [] ->
  frames_sized m' /\ binding_ok char_signed m' /\ lines m' <> [].
Proof.
  intros Ht (Hf & Hb & Hne).
  split; [|split; [|by eapply turn_nonempty]].
  - unfold turn in Ht. destruct (update rows cols m) as [m1| |] eqn:Hu; [|done|done].
    destruct (processEvents char_signed can_write fuel (render m1)) as [m2|] eqn:He;
      [|done].
    injection Ht as <-. eapply events_keep_frames_sized; [exact He|].
    by eapply render_keeps_frames_sized, update_keeps_frames_sized.
  - unfold turn in Ht. destruct (update rows cols m) as [m1| |] eqn:Hu; [|done|done].
    destruct (processEvents char_signed can_write fuel (render m1)) as [m2|] eqn:He;
      [|done].
    injection Ht as <-. eapply events_keep_binding_ok; [exact He|].
    by eapply render_keeps_binding_ok, update_keeps_binding_ok.
Qed.

Lemma run_loop_keeps_consistent (fuel : nat) (sizes : list (Z * Z)) (m m' : Melt) :
  run_loop char_signed can_write fuel sizes m = Some (Running m') ->
  frames_sized m /\ binding_ok char_signed m /\ lines m <> [] ->
  frames_sized m' /\ binding_ok char_signed m' /\ lines m' <> [].
Proof.
  revert m. induction sizes as [|[rows cols] sizes IH]; intros m; cbn [run_loop].
  - by intros [= <-].
  - destruct (is_running m); [|by intros [= <-]].
    destruct (turn char_signed can_write fuel rows cols m) as [[m1|what|]|] eqn:Ht;
      try done.
    intros Hrun Hm. eapply IH; [exact Hrun|]. by eapply turn_keeps_consistent.
Qed.

(** X30: the main loop.  From an editor whose frame buffers and file
    binding are consistent and whose document has a line, every state in
    which [run] is after some turns is consistent again and has a line;
    and the loop ends with the turn that leaves [is_running] false, or
    that fails: later turns are not taken. *)
Theorem run_keeps_consistent_and_stops (fuel : nat) (sizes : list (Z * Z)) (m : Melt)
    (r : outcome) :
  frames_sized m -> binding_ok char_signed m -> lines m <> [] ->
  run char_signed can_write fuel sizes m = Some r ->
  match r with
  | Running m' =>
      frames_sized m' /\ binding_ok char_signed m' /\ lines m' <> []
      /\ (is_running m' = false ->
          forall more, run char_signed can_write fuel (sizes ++ more) m = Some r)
  | _ => forall more, run char_signed can_write fuel (sizes ++ more) m = Some r
  end.
Proof.
  intros Hf Hb Hne. unfold run. intros Hrun.
  assert (Hstart : frames_sized (set_is_running true m)
                   /\ binding_ok char_signed (set_is_running true m)
                   /\ lines (set_is_running true m) <> []) by done.
  destruct r as [m'|what|].
  - destruct (run_loop_keeps_consistent _ _ _ _ Hrun Hstart) as (Hf' & Hb' & Hne').
    do 3 (split; [done|]). intros Hstop more. by apply run_loop_stops.
  - intros more. by apply run_loop_stops.
  - intros more. by apply run_loop_stops.
Qed.

End MainLoop.

(** * Where the terminal cursor is put *)

Lemma update_view (rows cols : Z) (m m' : Melt) :
  update rows cols m = Running m' ->
  lines m' = lines m /\ cx m' = cx m /\ cy m' = cy m /\ ox m' = ox m /\ oy m' = oy m.
Proof.
  unfold update. intros Hu.
  match type of Hu with
  | match ?r with Running _ => _ | _ => _ end = _ => destruct r as [m1| |] eqn:Hres
  end; [|discriminate Hu|discriminate Hu].
  assert (H1 : lines m1 = lines m /\ cx m1 = cx m /\ cy m1 = cy m
               /\ ox m1 = ox m /\ oy m1 = oy m).
  { destruct (negb (mx m =? to_unsigned cols) || negb (my m =? to_unsigned rows)).
    - match type of Hres with (if ?b then _ else _) = _ => destruct b end;
        [discriminate Hres|].
      by injection Hres as <-.
    - by injection Hres as <-. }
  destruct (status_bar _) as [bar|] eqn:Hbar; [|discriminate Hu].
  injection Hu as <-.
  destruct (fill_back_frame (Z.to_nat (ay m1)) 0 m1) as [b ->]. exact H1.
Qed.

Lemma lookup_resize_to (n : Z) (x : ascii) (l : line) (k : nat) (c : ascii) :
  (k < Z.to_nat n)%nat -> l !! k = Some c -> resize_to n x l !! k = Some c.
Proof.
  intros Hk Hl. unfold resize_to.
  rewrite lookup_app_l.
  - by rewrite lookup_take_lt.
  - rewrite length_take. pose proof (lookup_lt_Some _ _ _ Hl). lia.
Qed.

Lemma line_at_map_seqZ (f : Z -> line) (n i : Z) :
  0 <= i < n -> line_at (map f (seqZ 0 n)) i = f i.
Proof.
  intros Hi. unfold line_at.
  change (map f (seqZ 0 n)) with (f <$> seqZ 0 n).
  rewrite list_lookup_fmap, lookup_seqZ_lt by lia. simpl. f_equal. lia.
Qed.

(** X13: [update] followed by the cursor placement of [render]: the screen
    cell to which [render] moves the terminal cursor, row [cy - oy] and
    column [visual_cx - ox] of the frame that [update] has built, shows
    the character of the document under the cursor, a tab being shown
    as a space, whenever that cell lies in the frame. *)
Theorem cursor_is_drawn_on_its_character (rows cols : Z) (m m' : Melt) (c : ascii) :
  update rows cols m = Running m' ->
  frames_sized m ->
  size (lines m) <= INT_MAX -> widths_fit (lines m) ->
  0 <= oy m <= INT_MAX ->
  2 <= rows <= INT_MAX -> 0 <= cols <= INT_MAX ->
  0 <= cy m < size (lines m) -> 0 <= cx m ->
  line_at (lines m) (cy m) !! Z.to_nat (cx m) = Some c ->
  oy m <= cy m < oy m + (rows - 2) ->
  ox m <= visual_cx m < ox m + cols ->
  line_at (back m') (cy m' - oy m') !! Z.to_nat (visual_cx m' - ox m')
  = Some (if Ascii.eqb c TAB then SPACE else c).
Proof.
  intros Hu Hm Hsz Hw Hoy Hrows Hcols Hcy Hcx Hc Hrow Hcol.
  destruct (update_builds_frame rows cols m m' Hu Hm Hsz Hw Hoy Hrows Hcols)
    as (Eax & Eay & Eback).
  destruct (update_view rows cols m m' Hu) as (El & Ecx & Ecy & Eox & Eoy).
  assert (Evis : visual_cx m' = visual_cx m).
  { unfold visual_cx. by rewrite El, Ecx, Ecy. }
  rewrite Evis, Eback, Ecy, Eox, Eoy.
  rewrite line_at_map_seqZ by lia.
  unfold frame_row. rewrite El, Eoy, Eax.
  replace (cy m - oy m + oy m) with (cy m) by lia.
  replace (cy m <? size (lines m)) with true by (symmetry; apply Z.ltb_lt; lia).
  pose proof (line_at_widths_fit (lines m) (cy m) Hw) as Hwl.
  destruct (cursor_cell_shows_character (line_at (lines m) (cy m)) (cx m) c)
    as [Hvl Hcell]; [lia | done | done |].
  pose proof (visualLength_bounds (line_at (lines m) (cy m))) as Hvb.
  assert (Hv : visual_cx m = visualLength (str_substr_n 0 (cx m) (line_at (lines m) (cy m)))).
  { unfold visual_cx.
    replace (cy m <? size (lines m)) with true by (symmetry; apply Z.ltb_lt; lia).
    apply to_int_small. unfold INT_MAX in *. unfold tab_width in *. lia. }
  rewrite Hv in *.
  destruct Hm as (_ & _ & _ & _ & Hox & _).
  apply lookup_resize_to; [lia|].
  rewrite lookup_drop. rewrite <- Hcell. f_equal. lia.
Qed.

(** * The status bar *)







(** ** Instances of the further properties *)

(** The bounds of a concrete document are checked by evaluation. *)

Lemma Forall_forallb {A : Type} (P : A -> Prop) (p : A -> bool) (l : list A) :
  (forall x, p x = true -> P x) -> forallb p l = true -> Forall P l.
Proof.
  intros Hp. induction l as [|x l IH]; simpl; [constructor|].
  intros [Hx Hl]%andb_true_iff. constructor; [by apply Hp | by apply IH].
Qed.

Lemma lines_fit_check (ls : list line) :
  (size ls <=? INT_MAX) && forallb (fun l => len l <=? INT_MAX) ls = true -> lines_fit ls.
Proof.
  intros [Hsz Hall]%andb_true_iff. split; [by apply Z.leb_le|].
  eapply Forall_forallb; [|exact Hall]. intros l. apply Z.leb_le.
Qed.

Lemma widths_fit_check (ls : list line) :
  forallb (fun l => tab_width * len l <=? INT_MAX) ls = true -> widths_fit ls.
Proof. apply Forall_forallb. intros l. apply Z.leb_le. Qed.

Lemma has_room_check (ls : list line) :
  (size ls <? INT_MAX) && forallb (fun l => 2 * len l + 4 <=? INT_MAX) ls = true ->
  has_room ls.
Proof.
  intros [Hsz Hall]%andb_true_iff. split; [by apply Z.ltb_lt|].
  eapply Forall_forallb; [|exact Hall]. intros l. apply Z.leb_le.
Qed.

Lemma frames_sized_check (m : Melt) :
  (ax m =? mx m) && (ay m =? to_unsigned (my m - 2))
  && (40 <=? ax m) && (ax m <? 2 ^ 32) && (12 <=? ay m) && (0 <=? ox m)
  && (size (back m) =? ay m) && (size (front m) =? ay m)
  && forallb (fun r => len r =? ax m) (back m) = true ->
  frames_sized m.
Proof.
  intros H. repeat (apply andb_true_iff in H as [H ?]).
  unfold frames_sized.
  repeat match goal with
         | H : (_ =? _) = true |- _ => apply Z.eqb_eq in H
         | H : (_ <=? _) = true |- _ => apply Z.leb_le in H
         | H : (_ <? _) = true |- _ => apply Z.ltb_lt in H
         end.
  do 2 (split; [done|]). split; [done|]. do 4 (split; [done|]).
  eapply Forall_forallb; [|eassumption]. intros r. apply Z.eqb_eq.
Qed.

Ltac closed_atom :=
  vm_compute; first [reflexivity | discriminate | exact I].

Ltac by_computation :=
  lazymatch goal with
  | |- lines_fit _ => apply lines_fit_check; closed_atom
  | |- widths_fit _ => apply widths_fit_check; closed_atom
  | |- has_room _ => apply has_room_check; closed_atom
  | |- frames_sized _ => apply frames_sized_check; closed_atom
  | |- _ =>
      repeat match goal with
             | |- _ /\ _ => split
             | |- cursor_on_document _ => split
             | |- cursor_in_viewport _ => split
             end;
      closed_atom
  end.

Ltac fits_by_computation := by_computation.

Ltac on_document_by_computation := by_computation.

Ltac no_such_character :=
  let H := fresh in
  intros H; apply list_elem_of_In in H; vm_compute in H;
  repeat (destruct H as [H|H]; [discriminate H|]); exact H.

Lemma insLn_rmLn_roundtrip_witness :
  line_at (lines (insLn 1 (str "de") (editor_with [str "abc"] 0 0))) 1 = str "de"
  /\ size (lines (insLn 1 (str "de") (editor_with [str "abc"] 0 0)))
     = size (lines (editor_with [str "abc"] 0 0)) + 1
  /\ lines (rmLn 1 (insLn 1 (str "de") (editor_with [str "abc"] 0 0)))
     = lines (editor_with [str "abc"] 0 0).
Proof.
  apply (insLn_rmLn_roundtrip (editor_with [str "abc"] 0 0) 1 (str "de")).
  split; by_computation.
Defined.

Lemma rmCh_insCh_roundtrip_witness :
  lines (insCh 1 0 "b"%char (rmCh 1 0 (editor_with [str "abc"] 0 0)))
  = lines (editor_with [str "abc"] 0 0).
Proof.
  apply (rmCh_insCh_roundtrip (editor_with [str "abc"] 0 0) 1 0 "b"%char).
  - split; by_computation.
  - by_computation.
  - by_computation.
Defined.

Lemma jnLn_spLn_roundtrip_witness :
  lines (spLn (len (line_at (lines (editor_with [str "abc"; str "de"] 0 0)) 0)) 0
           (jnLn 0 (editor_with [str "abc"; str "de"] 0 0)))
  = lines (editor_with [str "abc"; str "de"] 0 0).
Proof.
  apply (jnLn_spLn_roundtrip (editor_with [str "abc"; str "de"] 0 0) 0).
  - by_computation.
  - split; by_computation.
Defined.


Lemma save_load_roundtrip_witness :
  written (save writable (str "a.txt") (editor_with [str "abc"; str "de"] 0 0)).2
  = [(str "a.txt", file_image [str "abc"; str "de"])]
  /\ load (holding (file_image [str "abc"; str "de"])) (str "a.txt")
       (editor_with [[]] 0 0)
     = (None, set_lines [str "abc"; str "de"] (editor_with [[]] 0 0)).
Proof.
  destruct (save_load_roundtrip
              (holding (file_image [str "abc"; str "de"])) writable
              (str "a.txt") (editor_with [str "abc"; str "de"] 0 0)
              (save writable (str "a.txt") (editor_with [str "abc"; str "de"] 0 0)).2)
    as (Hw & _ & Hload).
  - by_computation.
  - repeat (apply Forall_cons_2; [no_such_character|]). apply Forall_nil_2.
  - by_computation.
  - split; [exact Hw|]. apply Hload. reflexivity.
Defined.

Lemma load_save_normalises_witness :
  written (save writable (str "a.txt")
             (load (holding (str "abc")) (str "a.txt") (editor_with [[]] 0 0)).2).2
  = [(str "a.txt", with_final_newline (str "abc"))]
  /\ lines (load (holding (str "abc")) (str "a.txt") (editor_with [[]] 0 0)).2 <> []
  /\ Forall (fun l => LF ∉ l)
       (lines (load (holding (str "abc")) (str "a.txt") (editor_with [[]] 0 0)).2).
Proof.
  apply (load_save_normalises (holding (str "abc")) writable (str "a.txt")
           (str "abc") (editor_with [[]] 0 0)
           (load (holding (str "abc")) (str "a.txt") (editor_with [[]] 0 0)).2);
    reflexivity.
Defined.


Lemma expandTabs_removes_tabs_witness :
  (TAB ∉ expandTabs (str "a" ++ [TAB] ++ str "b")) /\ expandTabs (str "ab") = str "ab".
Proof.
  split.
  - apply (expandTabs_removes_tabs (str "a" ++ [TAB] ++ str "b")).
  - apply (expandTabs_removes_tabs (str "ab")). no_such_character.
Defined.

Lemma visualLength_step_witness :
  visualLength (str "ab" ++ [TAB])
  = (if Ascii.eqb TAB TAB then tab_width * (visualLength (str "ab") / tab_width + 1)
     else visualLength (str "ab") + 1).
Proof.
  apply (visualLength_step (str "ab") TAB). by_computation.
Defined.

Lemma reachable_state_is_consistent_witness :
  frames_sized (editor_with [[]] 0 0) /\ binding_ok true (editor_with [[]] 0 0).
Proof.
  apply (reachable_state_is_consistent true no_file unreadable writable).
  apply (reach_init true no_file unreadable writable None true true 26 80 []).
  by_computation.
Defined.

Lemma cursor_is_drawn_on_its_character_witness :
  line_at (back tabbed_frame) (cy tabbed_frame - oy tabbed_frame)
    !! Z.to_nat (visual_cx tabbed_frame - ox tabbed_frame)
  = Some (if Ascii.eqb "b" TAB then SPACE else "b"%char).
Proof.
  apply (cursor_is_drawn_on_its_character 26 80 tabbed_editor tabbed_frame "b"%char).
  - by_computation.
  - by_computation.
  - by_computation.
  - by_computation.
  - split; by_computation.
  - split; by_computation.
  - split; by_computation.
  - split; by_computation.
  - by_computation.
  - by_computation.
  - split; by_computation.
  - split; by_computation.
Defined.

Lemma mvCursor_moves_on_document_witness :
  (cx (mvCursor (-1) 0 (editor_with [str "abc"; str "de"] 3 0)) = 3 + -1
   /\ cy (mvCursor (-1) 0 (editor_with [str "abc"; str "de"] 3 0)) = 0)
  /\ (cy (mvCursor 0 1 (editor_with [str "abc"; str "de"] 3 0)) = 0 + 1
      /\ cx (mvCursor 0 1 (editor_with [str "abc"; str "de"] 3 0))
         = Z.min 3 (len (str "de")))
  /\ (cx (mvCursor (-1) 0 (editor_with [str "abc"; str "de"] 0 1)) = len (str "abc")
      /\ cy (mvCursor (-1) 0 (editor_with [str "abc"; str "de"] 0 1)) = 1 - 1)
  /\ (cx (mvCursor (-1) 0 (editor_with [str "abc"; str "de"] 0 0)) = 0
      /\ cy (mvCursor (-1) 0 (editor_with [str "abc"; str "de"] 0 0)) = 0).
Proof.
  destruct (mvCursor_moves_on_document (editor_with [str "abc"; str "de"] 3 0) (-1) 1)
    as (Hrow & Hother & _); [fits_by_computation | on_document_by_computation |].
  destruct (mvCursor_moves_on_document (editor_with [str "abc"; str "de"] 0 1) (-1) 0)
    as (_ & _ & Hwrap); [fits_by_computation | on_document_by_computation |].
  destruct (mvCursor_moves_on_document (editor_with [str "abc"; str "de"] 0 0) (-1) 0)
    as (_ & _ & Hstay); [fits_by_computation | on_document_by_computation |].
  split; [apply Hrow; split; by_computation|].
  split; [apply Hother; split; by_computation|].
  split.
  - apply Hwrap; [split; by_computation | by_computation].
  - apply Hstay; [split; by_computation | by_computation].
Defined.

Lemma scrollToFit_shift_witness :
  oy (scrollToFit (editor_with (repeat [] 30) 0 27))
  = (if 27 <? 0 then 27 else if 27 >=? 0 + 24 then 27 - 24 + 1 else 0)
  /\ ox (scrollToFit (editor_with (repeat [] 30) 0 27)) = Z.min 0 0
  /\ (ox (scrollToFit (editor_with [repeat "x"%char 100] 90 0)) = 0
      \/ ox (scrollToFit (editor_with [repeat "x"%char 100] 90 0)) = 90 - 80 + 1)
  /\ scrollToFit (editor_with [str "abc"] 1 0) = editor_with [str "abc"] 1 0.
Proof.
  destruct (scrollToFit_shift (editor_with (repeat [] 30) 0 27))
    as (Hdown & Hleft & _); [by_computation ..|].
  destruct (scrollToFit_shift (editor_with [repeat "x"%char 100] 90 0))
    as (_ & _ & Hright & _); [by_computation ..|].
  destruct (scrollToFit_shift (editor_with [str "abc"] 1 0))
    as (_ & _ & _ & Hkeep); [by_computation ..|].
  split; [exact Hdown|].
  split; [apply Hleft; by_computation|].
  split; [apply Hright; by_computation|].
  apply Hkeep. split; by_computation.
Defined.

Lemma typing_inserts_character_witness :
  (lines (key_other 120 (editor_with [str "abc"] 1 0))
   = <[Z.to_nat (cy (editor_with [str "abc"] 1 0)) :=
         str_insert (cx (editor_with [str "abc"] 1 0)) (char_of 120)
           (line_at (lines (editor_with [str "abc"] 1 0))
              (cy (editor_with [str "abc"] 1 0)))]>
       (lines (editor_with [str "abc"] 1 0))
   /\ cx (key_other 120 (editor_with [str "abc"] 1 0)) = cx (editor_with [str "abc"] 1 0) + 1
   /\ cy (key_other 120 (editor_with [str "abc"] 1 0)) = cy (editor_with [str "abc"] 1 0)
   /\ fstate (key_other 120 (editor_with [str "abc"] 1 0)) = 2
   /\ edmode (key_other 120 (editor_with [str "abc"] 1 0)) = 0)
  /\ lines (key_backspace (key_other 120 (editor_with [str "abc"] 1 0)))
     = lines (editor_with [str "abc"] 1 0)
  /\ cx (key_backspace (key_other 120 (editor_with [str "abc"] 1 0)))
     = cx (editor_with [str "abc"] 1 0)
  /\ cy (key_backspace (key_other 120 (editor_with [str "abc"] 1 0)))
     = cy (editor_with [str "abc"] 1 0).
Proof.
  apply (typing_inserts_character 120 (editor_with [str "abc"] 1 0)); by_computation.
Defined.

Lemma backspace_effect_witness :
  (lines (key_backspace (editor_with [str "abc"] 2 0)) = [str "ac"]
   /\ cx (key_backspace (editor_with [str "abc"] 2 0)) = 1
   /\ cy (key_backspace (editor_with [str "abc"] 2 0)) = 0)
  /\ (lines (key_backspace (editor_with [str "abc"; str "de"] 0 1)) = [str "abcde"]
      /\ cx (key_backspace (editor_with [str "abc"; str "de"] 0 1)) = 3
      /\ cy (key_backspace (editor_with [str "abc"; str "de"] 0 1)) = 0)
  /\ key_backspace (editor_with [str "abc"] 0 0) = set_fstate 2 (editor_with [str "abc"] 0 0).
Proof.
  destruct (backspace_effect (editor_with [str "abc"] 2 0)) as (Hin & _);
    [by_computation ..|].
  destruct (backspace_effect (editor_with [str "abc"; str "de"] 0 1)) as (_ & Hjoin & _);
    [by_computation ..|].
  destruct (backspace_effect (editor_with [str "abc"] 0 0)) as (_ & _ & Horigin);
    [by_computation ..|].
  split; [apply Hin; by_computation|].
  split; [apply Hjoin; by_computation|].
  apply Horigin; by_computation.
Defined.

Lemma enter_splits_line_witness :
  exists m',
    key_enter true writable 1 (editor_with [str "hello world"] 5 0) = Some m'
    /\ lines m' = take (Z.to_nat (cy (editor_with [str "hello world"] 5 0)))
                    (lines (editor_with [str "hello world"] 5 0))
                  ++ str_erase (cx (editor_with [str "hello world"] 5 0))
                       (line_at (lines (editor_with [str "hello world"] 5 0))
                          (cy (editor_with [str "hello world"] 5 0)))
                  :: str_substr (cx (editor_with [str "hello world"] 5 0))
                       (line_at (lines (editor_with [str "hello world"] 5 0))
                          (cy (editor_with [str "hello world"] 5 0)))
                  :: drop (S (Z.to_nat (cy (editor_with [str "hello world"] 5 0))))
                       (lines (editor_with [str "hello world"] 5 0))
    /\ cx m' = 0 /\ cy m' = cy (editor_with [str "hello world"] 5 0) + 1
    /\ fstate m' = 2 /\ edmode m' = 0
    /\ lines (key_backspace m') = lines (editor_with [str "hello world"] 5 0)
    /\ cx (key_backspace m') = cx (editor_with [str "hello world"] 5 0)
    /\ cy (key_backspace m') = cy (editor_with [str "hello world"] 5 0).
Proof.
  apply (enter_splits_line true writable 1 (editor_with [str "hello world"] 5 0));
    by_computation.
Defined.

Lemma arrow_keys_move_cursor_witness :
  (cx (key_left (editor_with [str "abc"; str "de"] 3 0)) = 2
   /\ cy (key_left (editor_with [str "abc"; str "de"] 3 0)) = 0)
  /\ (cx (key_right (editor_with [str "abc"; str "de"] 3 0)) = 3
      /\ cy (key_right (editor_with [str "abc"; str "de"] 3 0)) = 0)
  /\ (cy (key_up (editor_with [str "abc"; str "de"] 3 0)) = 0
      /\ cx (key_up (editor_with [str "abc"; str "de"] 3 0)) = 0)
  /\ (cy (key_down (editor_with [str "abc"; str "de"] 3 0)) = 1
      /\ cx (key_down (editor_with [str "abc"; str "de"] 3 0)) = 2).
Proof.
  destruct (arrow_keys_move_cursor (editor_with [str "abc"; str "de"] 3 0))
    as (Hl & Hr & Hu & Hd & _); [by_computation ..|].
  split; [exact Hl|]. split; [exact Hr|]. split; [exact Hu | exact Hd].
Defined.

Lemma tab_inserts_four_spaces_witness :
  lines (key_tab (editor_with [str "abc"] 1 0)) = [str "a    bc"]
  /\ cx (key_tab (editor_with [str "abc"] 1 0)) = 5
  /\ cy (key_tab (editor_with [str "abc"] 1 0)) = 0
  /\ fstate (key_tab (editor_with [str "abc"] 1 0)) = 2
  /\ edmode (key_tab (editor_with [str "abc"] 1 0)) = 0.
Proof.
  apply (tab_inserts_four_spaces (editor_with [str "abc"] 1 0)); by_computation.
Defined.

Lemma d_deletes_current_row_witness :
  lines (cmd_delete (editor_with four_lines 4 2)) = map str ["one"; "two"; "four"]%string
  /\ cy (cmd_delete (editor_with four_lines 4 2)) = 1
  /\ cx (cmd_delete (editor_with four_lines 4 2)) = 3
  /\ fstate (cmd_delete (editor_with four_lines 4 2)) = 2.
Proof.
  apply (d_deletes_current_row (editor_with four_lines 4 2)); by_computation.
Defined.


Lemma command_mode_keys_witness :
  exists m',
    processEvents true writable 1 (set_pending [113] (command_editor [[]] 0 0 (str "d") []))
    = Some m'
    /\ lines m' = lines (set_pending [113] (command_editor [[]] 0 0 (str "d") []))
    /\ cx m' = cx (set_pending [113] (command_editor [[]] 0 0 (str "d") []))
    /\ cy m' = cy (set_pending [113] (command_editor [[]] 0 0 (str "d") []))
    /\ fstate m' = fstate (set_pending [113] (command_editor [[]] 0 0 (str "d") []))
    /\ pending m' = []
    /\ cmd m' = (if 113 =? 27 then []
                 else if (32 <=? 113) && (113 <=? 126)
                 then cmd (set_pending [113] (command_editor [[]] 0 0 (str "d") []))
                      ++ [char_of 113]
                 else cmd (set_pending [113] (command_editor [[]] 0 0 (str "d") [])))
    /\ edmode m' = (if 113 =? 27 then 0 else 1).
Proof.
  apply (command_mode_keys true writable 1 113 []
           (set_pending [113] (command_editor [[]] 0 0 (str "d") []))); by_computation.
Defined.

Lemma quit_commands_witness :
  (exists m',
     processCmd true writable 1 (str "qdq")
       (set_fstate 2 (command_editor four_lines 0 3 (str "qdq") []))
     = Some m'
     /\ is_running m' = is_running (set_fstate 2 (command_editor four_lines 0 3 (str "qdq") []))
     /\ fstate m' = 2)
  /\ is_running (set_last_cmd (str "dQ")
                   (set_is_running false
                      (cmd_delete (set_fstate 2 (command_editor four_lines 0 3 (str "dQ") [])))))
     = false.
Proof.
  split.
  - refine (proj1 (quit_commands true writable 0 (str "qdq") [] []
                     (set_fstate 2 (command_editor four_lines 0 3 (str "qdq") []))) _ _).
    + repeat (apply Forall_cons_2; [first [by left | by right]|]). apply Forall_nil_2.
    + reflexivity.
  - refine (proj2 (quit_commands true writable 1 [] (str "d") []
                     (set_fstate 2 (command_editor four_lines 0 3 (str "dQ") []))) _ _ _).
    + apply Forall_cons_2; [|apply Forall_nil_2].
      apply list_elem_of_In. vm_compute. auto 10.
    + by_computation.
Defined.

Lemma events_keep_cursor_on_document_witness :
  lines_fit (lines (key_other 120 (set_pending [] (editor_with [str "abc"] 3 0))))
  /\ cursor_on_document (key_other 120 (set_pending [] (editor_with [str "abc"] 3 0))).
Proof.
  apply (events_keep_cursor_on_document true writable 1
           (set_pending [120] (editor_with [str "abc"] 3 0))); by_computation.
Defined.

Lemma write_prompt_keys_witness :
  prompt_loop true writable (map code (str "a.txt") ++ [10]) []
    (command_editor [str "abc"] 0 0 (str "w") [])
  = Some (confirm_write true writable ([] ++ str "a.txt")
            (set_pending [] (command_editor [str "abc"] 0 0 (str "w") [])))
  /\ prompt_loop true writable (map code (str "a.txt") ++ [27]) []
       (command_editor [str "abc"] 0 0 (str "w") [])
     = Some (set_pending [] (command_editor [str "abc"] 0 0 (str "w") []))
  /\ prompt_loop true writable (map code (str "a.txt") ++ [127; 10]) []
       (command_editor [str "abc"] 0 0 (str "w") [])
     = prompt_loop true writable [10] (removelast ([] ++ str "a.txt"))
         (command_editor [str "abc"] 0 0 (str "w") [])
  /\ prompt_loop true writable (map code (str "a.txt") ++ [KEY_ENTER; 27]) []
       (command_editor [str "abc"] 0 0 (str "w") [])
     = prompt_loop true writable [27] ([] ++ str "a.txt" ++ ["W"%char])
         (command_editor [str "abc"] 0 0 (str "w") []).
Proof.
  assert (Hname : Forall printable (str "a.txt")).
  { repeat (apply Forall_cons_2; [split; by_computation|]). apply Forall_nil_2. }
  destruct (write_prompt_keys true writable (str "a.txt") [] []
              (command_editor [str "abc"] 0 0 (str "w") []) Hname) as (Henter & Hesc & _).
  destruct (write_prompt_keys true writable (str "a.txt") [10] []
              (command_editor [str "abc"] 0 0 (str "w") []) Hname) as (_ & _ & Hback & _).
  destruct (write_prompt_keys true writable (str "a.txt") [27] []
              (command_editor [str "abc"] 0 0 (str "w") []) Hname)
    as (_ & _ & _ & Hkeypad & _).
  split; [apply Henter; by left|].
  split; [exact Hesc|].
  split; [apply Hback; [by left | by_computation]|].
  exact Hkeypad.
Defined.

Lemma w_writes_under_typed_name_witness :
  exists m',
    cmd_write true writable
      (set_pending (map code (str "a.txt") ++ [10]) (command_editor [str "abc"] 0 0 (str "w") []))
    = Some m'
    /\ lines m'
       = lines (set_pending (map code (str "a.txt") ++ [10])
                  (command_editor [str "abc"] 0 0 (str "w") []))
    /\ pending m' = []
    /\ (if valFn true (str "a.txt") && writable (str "a.txt")
        then written m'
             = (str "a.txt",
                file_image (lines (set_pending (map code (str "a.txt") ++ [10])
                                     (command_editor [str "abc"] 0 0 (str "w") []))))
               :: written (set_pending (map code (str "a.txt") ++ [10])
                             (command_editor [str "abc"] 0 0 (str "w") []))
             /\ fname m' = str "a.txt" /\ fstate m' = 1
        else written m'
             = written (set_pending (map code (str "a.txt") ++ [10])
                          (command_editor [str "abc"] 0 0 (str "w") []))
             /\ fname m'
                = fname (set_pending (map code (str "a.txt") ++ [10])
                           (command_editor [str "abc"] 0 0 (str "w") []))
             /\ fstate m'
                = fstate (set_pending (map code (str "a.txt") ++ [10])
                            (command_editor [str "abc"] 0 0 (str "w") []))).
Proof.
  apply (w_writes_under_typed_name true writable (str "a.txt") []
           (set_pending (map code (str "a.txt") ++ [10])
              (command_editor [str "abc"] 0 0 (str "w") []))).
  - repeat (apply Forall_cons_2; [split; by_computation|]). apply Forall_nil_2.
  - reflexivity.
Defined.

Lemma init_terminal_check_witness :
  init true no_file unreadable None true true 13 80 [] = Fatal (str "Terminal size too small!")
  <-> 80 < 40 \/ 2 <= 13 < 14.
Proof.
  apply (init_terminal_check true no_file unreadable None 13 80 []); by_computation.
Defined.

Lemma init_opens_document_witness :
  written opened_editor = []
  /\ fname opened_editor = str "a.txt" /\ fstate opened_editor = 1
  /\ smessage opened_editor = []
  /\ file_image (lines opened_editor) = with_final_newline (str "ab" ++ [LF] ++ str "c")
  /\ Forall (fun l => LF ∉ l) (lines opened_editor).
Proof.
  apply (init_opens_document true present (holding (str "ab" ++ [LF] ++ str "c"))
           (Some (str "a.txt")) true true 26 80 [] opened_editor).
  by_computation.
Defined.

Lemma run_keeps_consistent_and_stops_witness :
  frames_sized stopped_editor /\ binding_ok true stopped_editor
  /\ lines stopped_editor <> []
  /\ run true writable 1 (repeat (26, 80) 3%nat ++ [(26, 80)]) quitting_editor
     = Some (Running stopped_editor).
Proof.
  assert (Hinit : init true no_file unreadable None true true 26 80 quit_keys
                  = Running quitting_editor) by closed_atom.
  pose proof (run_keeps_consistent_and_stops true writable 1 (repeat (26, 80) 3%nat)
                quitting_editor (Running stopped_editor)
                (proj1 (init_frames_sized _ _ _ _ _ _ _ _ _ _ Hinit))
                (init_binding_ok _ _ _ _ _ _ _ _ _ _ Hinit)
                ltac:(closed_atom) ltac:(closed_atom)) as H.
  cbv beta iota in H. destruct H as (Hf & Hb & Hne & Hstop).
  split; [exact Hf|]. split; [exact Hb|]. split; [exact Hne|].
  apply Hstop. closed_atom.
Defined.
